(** * The multi-transport MCP tool client of vertex-mcp-server

    A shallow embedding of
    - [StdioMCPConnection] and [HttpMCPConnection] (the two transports),
    - [BaseMCPConnection.callTool] (the shared error-capturing wrapper),
    - [EnhancedMCPClient] (registry, discovery, routing),
    together with the properties of the natural-language specification
    that concern them.

    JavaScript strings are sequences of UTF-16 code units; [Buffer]s are
    byte sequences.  Numbers used as request ids are integers far below
    2^53, where JavaScript arithmetic is exact, and are modelled in [Z]. *)

From Stdlib Require Import List ZArith NArith Lia Bool String Ascii.
From Stdlib Require Import Strings.Byte Numbers.DecimalString.
From Stdlib Require Import Sorting.Sorted.
Import ListNotations.

Set Implicit Arguments.
Set Warnings "-register-all".

(* ===================================================================== *)
(** * JavaScript values used by the client                                *)
(* ===================================================================== *)

Module JS.

(** A JavaScript string: its UTF-16 code units. *)
Definition jsstring := list N.

(** A string literal of the source (ASCII only). *)
Definition lit (s : string) : jsstring :=
  map N_of_ascii (list_ascii_of_string s).

Fixpoint str_eqb (a b : jsstring) : bool :=
  match a, b with
  | [], [] => true
  | x :: a', y :: b' => N.eqb x y && str_eqb a' b'
  | _, _ => false
  end.

(** [String(n)] / [`${n}`] for a non-negative integer. *)
Definition decimal (n : N) : jsstring :=
  lit (NilEmpty.string_of_uint (N.to_uint n)).

(** ** [String.prototype.split('\n')] and [Array.prototype.pop] *)

Definition NL : N := 10.

(** ["a\nb".split("\n") = ["a","b"]], ["".split("\n") = [""]]: the result
    is never empty and has one more element than there are newlines. *)
Fixpoint split_nl (s : jsstring) : list jsstring :=
  match s with
  | [] => [[]]
  | c :: s' =>
      if N.eqb c NL then [] :: split_nl s'
      else match split_nl s' with
           | l :: ls => (c :: l) :: ls
           | [] => [[c]]
           end
  end.

(** [lines.pop()]: removes the last element and returns it ([None] is
    [undefined], for an empty array). *)
Fixpoint array_pop {A} (l : list A) : list A * option A :=
  match l with
  | [] => ([], None)
  | [x] => ([], Some x)
  | x :: l' => let (r, o) := array_pop l' in (x :: r, o)
  end.

(** [x || ''] for a string or [undefined]. *)
Definition or_empty (o : option jsstring) : jsstring :=
  match o with
  | Some s => s
  | None => []
  end.

(** ** [String.prototype.trim] *)

(** WhiteSpace and LineTerminator code units of ECMAScript. *)
Definition is_ws (c : N) : bool :=
  existsb (N.eqb c)
    [0x09; 0x0A; 0x0B; 0x0C; 0x0D; 0x20; 0xA0; 0x1680; 0x2028; 0x2029;
     0x202F; 0x205F; 0x3000; 0xFEFF]%N
  || (N.leb 0x2000 c && N.leb c 0x200A).

Fixpoint trim_start (s : jsstring) : jsstring :=
  match s with
  | c :: s' => if is_ws c then trim_start s' else s
  | [] => []
  end.

Definition trim (s : jsstring) : jsstring :=
  rev (trim_start (rev (trim_start s))).

(** Truthiness of a string: non-empty. *)
Definition truthy_str (s : jsstring) : bool :=
  match s with
  | [] => false
  | _ => true
  end.

(** ** [Buffer.prototype.toString()]: UTF-8 decoding

    The decoder replaces every ill-formed byte sequence, and a sequence
    cut off by the end of the buffer, with U+FFFD. *)

Record Utf8State := {
  u_cp : N;        (* code point being assembled *)
  u_seen : N;      (* continuation bytes consumed *)
  u_needed : N;    (* continuation bytes expected *)
  u_lower : N;     (* allowed range of the next continuation byte *)
  u_upper : N
}.

Definition utf8_init : Utf8State :=
  {| u_cp := 0; u_seen := 0; u_needed := 0; u_lower := 0x80; u_upper := 0xBF |}.

Definition REPLACEMENT : N := 0xFFFD.

Definition utf8_lead (b : N) : list N * Utf8State :=
  if N.leb b 0x7F then ([b], utf8_init)
  else if N.leb 0xC2 b && N.leb b 0xDF then
    ([], {| u_cp := N.land b 0x1F; u_seen := 0; u_needed := 1;
            u_lower := 0x80; u_upper := 0xBF |})
  else if N.leb 0xE0 b && N.leb b 0xEF then
    ([], {| u_cp := N.land b 0xF; u_seen := 0; u_needed := 2;
            u_lower := if N.eqb b 0xE0 then 0xA0 else 0x80;
            u_upper := if N.eqb b 0xED then 0x9F else 0xBF |})
  else if N.leb 0xF0 b && N.leb b 0xF4 then
    ([], {| u_cp := N.land b 0x7; u_seen := 0; u_needed := 3;
            u_lower := if N.eqb b 0xF0 then 0x90 else 0x80;
            u_upper := if N.eqb b 0xF4 then 0x8F else 0xBF |})
  else ([REPLACEMENT], utf8_init).

Definition utf8_step (st : Utf8State) (b : N) : list N * Utf8State :=
  if N.eqb (u_needed st) 0 then utf8_lead b
  else if N.ltb b (u_lower st) || N.ltb (u_upper st) b then
    let (out, st') := utf8_lead b in (REPLACEMENT :: out, st')
  else
    let cp := N.lor (N.shiftl (u_cp st) 6) (N.land b 0x3F) in
    if N.eqb (u_seen st + 1) (u_needed st) then ([cp], utf8_init)
    else ([], {| u_cp := cp; u_seen := u_seen st + 1; u_needed := u_needed st;
                 u_lower := 0x80; u_upper := 0xBF |}).

(** What is emitted when the input ends in state [st]. *)
Definition utf8_flush (st : Utf8State) : list N :=
  if N.eqb (u_needed st) 0 then [] else [REPLACEMENT].

Fixpoint utf8_decode (st : Utf8State) (bs : list N) : list N :=
  match bs with
  | [] => utf8_flush st
  | b :: bs' => let (out, st') := utf8_step st b in out ++ utf8_decode st' bs'
  end.

(** A code point as UTF-16 code units. *)
Definition utf16 (cp : N) : list N :=
  if N.ltb cp 0x10000 then [cp]
  else [0xD800 + (cp - 0x10000) / 0x400; 0xDC00 + (cp - 0x10000) mod 0x400]%N.

Definition Buffer := list byte.

Definition Buffer_toString (data : Buffer) : jsstring :=
  flat_map utf16 (utf8_decode utf8_init (map Byte.to_N data)).

(** The decoder state at the end of a buffer: a buffer ends on a
    character boundary when no continuation byte is outstanding. *)
Fixpoint utf8_end (st : Utf8State) (bs : list N) : Utf8State :=
  match bs with
  | [] => st
  | b :: bs' => utf8_end (snd (utf8_step st b)) bs'
  end.

Definition on_boundary (data : Buffer) : bool :=
  N.eqb (u_needed (utf8_end utf8_init (map Byte.to_N data))) 0.

(** ** JSON values, as [JSON.parse] returns them *)

Inductive Json :=
| JNull
| JBool (b : bool)
| JNum (n : Z)
| JStr (s : jsstring)
| JArr (items : list Json)
| JObj (fields : list (jsstring * Json)).

(** A JavaScript value that may be [undefined]. *)
Definition value := option Json.

Fixpoint lookup_field (k : jsstring) (fs : list (jsstring * Json)) : value :=
  match fs with
  | [] => None
  | (k', v) :: fs' => if str_eqb k k' then Some v else lookup_field k fs'
  end.

(** [v.k] for one of the keys the client reads ([id], [error], [result],
    [message], [content], [tools]); none of them is a property of a
    primitive or of an array.  [None] as a result of [get_prop] is a
    thrown TypeError: a property read on [null] or [undefined]. *)
Definition get_prop (v : value) (k : jsstring) : option value :=
  match v with
  | None => None
  | Some JNull => None
  | Some (JObj fs) => Some (lookup_field k fs)
  | Some _ => Some None
  end.

(** ToBoolean. *)
Definition truthy (v : value) : bool :=
  match v with
  | None => false
  | Some JNull => false
  | Some (JBool b) => b
  | Some (JNum n) => negb (Z.eqb n 0)
  | Some (JStr s) => truthy_str s
  | Some (JArr _) => true
  | Some (JObj _) => true
  end.

(** ** [Map]: insertion-ordered, one entry per key *)

Section JSMap.
Context {K V : Type} (eqb : K -> K -> bool).

Definition jsmap := list (K * V).

Fixpoint map_get (k : K) (m : jsmap) : option V :=
  match m with
  | [] => None
  | (k', v) :: m' => if eqb k k' then Some v else map_get k m'
  end.

Definition map_has (k : K) (m : jsmap) : bool :=
  match map_get k m with
  | Some _ => true
  | None => false
  end.

(** [set] keeps the position of an existing key and appends a new one. *)
Fixpoint map_set (k : K) (v : V) (m : jsmap) : jsmap :=
  match m with
  | [] => [(k, v)]
  | (k', v') :: m' =>
      if eqb k k' then (k', v) :: m' else (k', v') :: map_set k v m'
  end.

Fixpoint map_delete (k : K) (m : jsmap) : jsmap :=
  match m with
  | [] => []
  | (k', v') :: m' =>
      if eqb k k' then m' else (k', v') :: map_delete k m'
  end.
End JSMap.

(** ** Errors and results of (async) calls *)

Record Error := { message : jsstring }.

Inductive result (A : Type) :=
| Ok (a : A)
| Throw (e : Error).
Arguments Ok {A} a.
Arguments Throw {A} e.

(** The built-in functions whose algorithm the client takes from the
    platform.  [JSON_parse] returns [None] when [JSON.parse] throws, and
    [JSON_parse_error text] is the SyntaxError it then throws.
    [ToString] is the conversion [new Error(v)] applies to a value that
    is not a string; it can throw a TypeError, as it does on an object
    that carries a field named [toString], which [JSON.parse] can
    return.  [TypeError_read v k] is the TypeError thrown by reading the
    property [k] of [v], for [v] [null] or [undefined]. *)
Record Builtins := {
  JSON_parse : jsstring -> option Json;
  JSON_parse_error : jsstring -> Error;
  JSON_stringify : Json -> jsstring;
  ToString : Json -> result jsstring;
  TypeError_read : value -> jsstring -> Error
}.

Arguments lit : simpl never.

End JS.

(* ===================================================================== *)
(** * Tool results, the logger, and [BaseMCPConnection]                   *)
(* ===================================================================== *)

Module Base.
Import JS.

Inductive Status := success | error.

(** [content] is [None] when [JSON.stringify] was given [undefined]. *)
Record ToolResult := {
  status : Status;
  content : option jsstring;
  metadata : option jsstring       (* [{ server }] *)
}.

(** What the shared [Logger] has been asked to record.  The logger is
    an external collaborator; its methods are taken to return normally. *)
Inductive LogEntry :=
| LInfo (text : jsstring)
| LError (text : jsstring) (cause : option Error)
| LToolCall (toolName : jsstring) (args : Json)
| LToolResult (toolName : jsstring) (r : ToolResult).

(** The [catch] branch of [callTool]. *)
Definition errorResult (e : Error) : ToolResult :=
  {| status := error;
     content := Some (lit "Tool execution failed: " ++ message e);
     metadata := None |}.

(** [callTool] once [callToolImpl] has returned or thrown: the
    [try]/[catch] around the awaited call. *)
Definition callTool_result (impl : result ToolResult) : ToolResult :=
  match impl with
  | Ok r => r
  | Throw e => errorResult e
  end.

End Base.

(* ===================================================================== *)
(** * [StdioMCPConnection]                                                *)
(* ===================================================================== *)

Module Stdio.
Import JS Base.

Record StdioMCPConfig := {
  name : jsstring;
  command : jsstring;
  args : list jsstring
}.

(** The [ChildProcess] handle: which of its streams exist, and [killed]. *)
Record ChildProcess := {
  stdin : bool;
  stdout : bool;
  killed : bool
}.

Record Request := {
  rq_id : Z;
  rq_method : jsstring;
  rq_params : Json
}.

(** How a promise created by [sendRequest] was completed. *)
Inductive Settlement :=
| Resolved (v : value)
| Rejected (e : Error).

(** A [setTimeout] registration of [sendRequest]: the closure captures
    [request.id], [request.method] and the promise's [reject]. *)
Record Timer := {
  t_id : Z;
  t_promise : nat;
  t_method : jsstring;
  t_delay : Z
}.

(** The connection object, the [buffer] of the stdout handler, and what
    the connection has done to the outside: lines written to the child's
    stdin, timers armed, promise callbacks invoked, log entries.
    Promises are named by their creation index. *)
Record Conn := {
  process : option ChildProcess;
  messageId : Z;
  pendingRequests : list (Z * nat);     (* Map<number, {resolve, reject}> *)
  buffer : jsstring;
  written : list Request;
  timers : list Timer;
  promises : nat;
  settled : list (nat * Settlement);
  log : list LogEntry
}.

Definition fresh : Conn :=
  {| process := None; messageId := 0; pendingRequests := []; buffer := [];
     written := []; timers := []; promises := 0; settled := []; log := [] |}.

Definition set_process (p : option ChildProcess) (st : Conn) : Conn :=
  {| process := p; messageId := messageId st;
     pendingRequests := pendingRequests st; buffer := buffer st;
     written := written st; timers := timers st; promises := promises st;
     settled := settled st; log := log st |}.

Definition set_messageId (n : Z) (st : Conn) : Conn :=
  {| process := process st; messageId := n;
     pendingRequests := pendingRequests st; buffer := buffer st;
     written := written st; timers := timers st; promises := promises st;
     settled := settled st; log := log st |}.

Definition set_pendingRequests (m : list (Z * nat)) (st : Conn) : Conn :=
  {| process := process st; messageId := messageId st;
     pendingRequests := m; buffer := buffer st;
     written := written st; timers := timers st; promises := promises st;
     settled := settled st; log := log st |}.

Definition set_buffer (b : jsstring) (st : Conn) : Conn :=
  {| process := process st; messageId := messageId st;
     pendingRequests := pendingRequests st; buffer := b;
     written := written st; timers := timers st; promises := promises st;
     settled := settled st; log := log st |}.

Definition set_timers (ts : list Timer) (st : Conn) : Conn :=
  {| process := process st; messageId := messageId st;
     pendingRequests := pendingRequests st; buffer := buffer st;
     written := written st; timers := ts; promises := promises st;
     settled := settled st; log := log st |}.

Definition set_log (l : list LogEntry) (st : Conn) : Conn :=
  {| process := process st; messageId := messageId st;
     pendingRequests := pendingRequests st; buffer := buffer st;
     written := written st; timers := timers st; promises := promises st;
     settled := settled st; log := l |}.

(** [this.process.stdin.write(line)] *)
Definition write (r : Request) (st : Conn) : Conn :=
  {| process := process st; messageId := messageId st;
     pendingRequests := pendingRequests st; buffer := buffer st;
     written := written st ++ [r]; timers := timers st;
     promises := promises st; settled := settled st; log := log st |}.

(** [new Promise(...)]: the next promise index. *)
Definition new_promise (st : Conn) : nat * Conn :=
  (promises st,
   {| process := process st; messageId := messageId st;
      pendingRequests := pendingRequests st; buffer := buffer st;
      written := written st; timers := timers st;
      promises := S (promises st); settled := settled st; log := log st |}).

(** A call of promise [p]'s [resolve] or [reject]. *)
Definition settle (p : nat) (s : Settlement) (st : Conn) : Conn :=
  {| process := process st; messageId := messageId st;
     pendingRequests := pendingRequests st; buffer := buffer st;
     written := written st; timers := timers st; promises := promises st;
     settled := settled st ++ [(p, s)]; log := log st |}.

Definition logger (e : LogEntry) (st : Conn) : Conn :=
  set_log (log st ++ [e]) st.

Definition TIMEOUT_MS : Z := 30000.

Section Connection.
Variable B : Builtins.
Variable config : StdioMCPConfig.

(** [connect()]; [spawned] is what [spawn(command, args, ...)] gave. *)
Definition connect (spawned : result ChildProcess) (st : Conn)
  : result unit * Conn :=
  let st := logger (LInfo (lit "Connecting to stdio MCP server: " ++ name config)) st in
  match spawned with
  | Throw e => (Throw e, st)
  | Ok p =>
      let st := set_process (Some p) st in
      if negb (stdout p) || negb (stdin p) then
        (Throw {| message := lit "Failed to spawn MCP server process: " ++ name config |}, st)
      else
        let st := set_buffer [] st in     (* let buffer = '' *)
        (Ok tt, logger (LInfo (lit "Connected to stdio MCP server: " ++ name config)) st)
  end.

(** [nextMessageId()]: [++this.messageId] *)
Definition nextMessageId (st : Conn) : Z * Conn :=
  (messageId st + 1, set_messageId (messageId st + 1) st)%Z.

Inductive Sent :=
| Threw (e : Error)
| Awaiting (p : nat).

Definition not_connected : Error :=
  {| message := lit "MCP server " ++ name config ++ lit " not connected" |}.

(** [sendRequest(request)] up to the creation of its promise. *)
Definition sendRequest (request : Request) (st : Conn) : Sent * Conn :=
  match process st with
  | None => (Threw not_connected, st)
  | Some proc =>
      if negb (stdin proc) then (Threw not_connected, st)
      else
        let (p, st) := new_promise st in
        let st := set_pendingRequests
                    (map_set Z.eqb (rq_id request) p (pendingRequests st)) st in
        let st := write request st in
        let st := set_timers
                    (timers st ++ [{| t_id := rq_id request; t_promise := p;
                                      t_method := rq_method request;
                                      t_delay := TIMEOUT_MS |}]) st in
        (Awaiting p, st)
  end.

(** The callback given to [setTimeout]. *)
Definition timeout_callback (t : Timer) (st : Conn) : Conn :=
  if map_has Z.eqb (t_id t) (pendingRequests st) then
    let st := set_pendingRequests
                (map_delete Z.eqb (t_id t) (pendingRequests st)) st in
    settle (t_promise t)
           (Rejected {| message := lit "MCP request timeout: " ++ t_method t |}) st
  else st.

(** The timer armed for promise [p] fires (each timer fires once). *)
Definition on_timer (p : nat) (st : Conn) : Conn :=
  match find (fun t => Nat.eqb (t_promise t) p) (timers st) with
  | None => st
  | Some t =>
      timeout_callback t
        (set_timers (filter (fun t => negb (Nat.eqb (t_promise t) p)) (timers st)) st)
  end.

(** [Map.has(x)] / [Map.get(x)] on a map with number keys. *)
Definition pending_get (id : value) (st : Conn) : option nat :=
  match id with
  | Some (JNum n) => map_get Z.eqb n (pendingRequests st)
  | _ => None
  end.

Definition pending_delete (id : value) (st : Conn) : Conn :=
  match id with
  | Some (JNum n) =>
      set_pendingRequests (map_delete Z.eqb n (pendingRequests st)) st
  | _ => st
  end.

(** The text [new Error(v)] gives its message: the string itself, or
    what [ToString] returns; [ToString] can throw. *)
Definition error_text (v : value) : result jsstring :=
  match v with
  | Some (JStr s) => Ok s
  | Some j => ToString B j
  | None => Ok (lit "undefined")
  end.

(** [new Error(m || 'MCP request failed')] *)
Definition new_Error (m : value) : result Error :=
  if truthy m then
    match error_text m with
    | Ok text => Ok {| message := text |}
    | Throw e => Throw e
    end
  else Ok {| message := lit "MCP request failed" |}.

(** What [handleResponse] does with the promise of a matching entry
    of an object [message]:
    [reject(new Error(message.error.message || 'MCP request failed'))]
    when [message.error] is truthy, [resolve(message.result)]
    otherwise.  [Throw] is [new Error] throwing, before [reject] is
    called. *)
Definition response_outcome (fields : list (jsstring * Json))
  : result Settlement :=
  let err := lookup_field (lit "error") fields in
  if truthy err then
    let m := match err with
             | Some (JObj fs) => lookup_field (lit "message") fs
             | _ => None
             end in
    match new_Error m with
    | Ok e => Ok (Rejected e)
    | Throw e => Throw e
    end
  else Ok (Resolved (lookup_field (lit "result") fields)).

(** [v.k], throwing on [null] and [undefined]. *)
Definition read (v : value) (k : jsstring) : result value :=
  match get_prop v k with
  | Some x => Ok x
  | None => Throw (TypeError_read B v k)
  end.

(** [handleResponse(message)]: whether it returned or threw, and the
    connection afterwards.  The entry is deleted before [new Error]
    is evaluated, so when that throws the entry is gone and its
    promise has not been completed. *)
Definition handleResponse (message : Json) (st : Conn) : result unit * Conn :=
  match read (Some message) (lit "id") with
  | Throw e => (Throw e, st)
  | Ok id =>
      match pending_get id st with
      | None => (Ok tt, st)
      | Some p =>
          let st := pending_delete id st in
          match read (Some message) (lit "error") with
          | Throw e => (Throw e, st)
          | Ok err =>
              if truthy err then
                match read err (lit "message") with
                | Throw e => (Throw e, st)
                | Ok m =>
                    match new_Error m with
                    | Throw e => (Throw e, st)
                    | Ok e => (Ok tt, settle p (Rejected e) st)
                    end
                end
              else
                match read (Some message) (lit "result") with
                | Throw e => (Throw e, st)
                | Ok r => (Ok tt, settle p (Resolved r) st)
                end
          end
      end
  end.

(** The body of the [for] loop of the stdout handler; the [catch]
    hands the error caught to the logger. *)
Definition process_line (st : Conn) (line : jsstring) : Conn :=
  if truthy_str (trim line) then
    match JSON_parse B line with
    | None =>
        logger (LError (lit "Failed to parse MCP response: " ++ line)
                       (Some (JSON_parse_error B line))) st
    | Some message =>
        let (r, st) := handleResponse message st in
        match r with
        | Ok _ => st
        | Throw e =>
            logger (LError (lit "Failed to parse MCP response: " ++ line)
                           (Some e)) st
        end
    end
  else st.

(** [buffer += data.toString(); lines = buffer.split('\n');
    buffer = lines.pop() || ''] *)
Definition frame (buf : jsstring) (data : Buffer) : list jsstring * jsstring :=
  let buf := buf ++ Buffer_toString data in
  let (lines, last) := array_pop (split_nl buf) in
  (lines, or_empty last).

(** The stdout ['data'] handler. *)
Definition on_data (data : Buffer) (st : Conn) : Conn :=
  let (lines, buf) := frame (buffer st) data in
  fold_left process_line lines (set_buffer buf st).

Definition on_stderr (data : Buffer) (st : Conn) : Conn :=
  logger (LError (lit "MCP server " ++ name config ++ lit " stderr: "
                    ++ Buffer_toString data) None) st.

Definition on_error (e : Error) (st : Conn) : Conn :=
  logger (LError (lit "MCP server " ++ name config ++ lit " process error") (Some e)) st.

(** The ['exit'] handler; [code] is [null] when a signal ended the
    process. *)
Definition on_exit (code : option N) (st : Conn) : Conn :=
  let shown := match code with
               | Some n => decimal n
               | None => lit "null"
               end in
  let st := logger (LInfo (lit "MCP server " ++ name config
                             ++ lit " exited with code " ++ shown)) st in
  set_process None st.

(** [listTools()] up to its [await]. *)
Definition listTools (st : Conn) : Sent * Conn :=
  let (id, st) := nextMessageId st in
  sendRequest {| rq_id := id; rq_method := lit "tools/list";
                 rq_params := JObj [] |} st.

(** [listTools()] after the promise was completed:
    [return response.tools || []]. *)
Definition listTools_resume (s : Settlement) : result Json :=
  match s with
  | Rejected e => Throw e
  | Resolved response =>
      match get_prop response (lit "tools") with
      | None => Throw {| message := lit "Cannot read properties of undefined" |}
      | Some tools => if truthy tools then
                        match tools with Some t => Ok t | None => Ok (JArr []) end
                      else Ok (JArr [])
      end
  end.

(** [callToolImpl(toolName, args)] up to its [await]. *)
Definition callToolImpl (toolName : jsstring) (args : Json) (st : Conn)
  : Sent * Conn :=
  let (id, st) := nextMessageId st in
  sendRequest {| rq_id := id; rq_method := lit "tools/call";
                 rq_params := JObj [(lit "name", JStr toolName);
                                    (lit "arguments", args)] |} st.

Definition callToolImpl_resume (s : Settlement) : result ToolResult :=
  match s with
  | Rejected e => Throw e
  | Resolved response =>
      match get_prop response (lit "content") with
      | None => Throw {| message := lit "Cannot read properties of undefined" |}
      | Some c =>
          Ok {| status := success;
                content := option_map (JSON_stringify B) c;
                metadata := Some (name config) |}
      end
  end.

(** [BaseMCPConnection.callTool] on this connection: either it has
    returned, or it is suspended on a promise. *)
Inductive Call :=
| Returned (r : ToolResult)
| Suspended (p : nat).

Definition callTool (toolName : jsstring) (args : Json) (st : Conn)
  : Call * Conn :=
  let st := logger (LToolCall toolName args) st in
  let (sent, st) := callToolImpl toolName args st in
  match sent with
  | Threw e =>
      let r := callTool_result (Throw e) in
      (Returned r, logger (LToolResult toolName r) st)
  | Awaiting p => (Suspended p, st)
  end.

Definition callTool_resume (toolName : jsstring) (s : Settlement) (st : Conn)
  : ToolResult * Conn :=
  let r := callTool_result (callToolImpl_resume s) in
  (r, logger (LToolResult toolName r) st).

(** [close()] *)
Definition close (st : Conn) : Conn :=
  match process st with
  | Some _ =>
      logger (LInfo (lit "Closed stdio MCP connection: " ++ name config))
             (set_process None st)
  | None => st
  end.

(** [isConnected()] *)
Definition isConnected (st : Conn) : bool :=
  match process st with
  | Some p => negb (killed p)
  | None => false
  end.

(** What can happen to a connection after [connect()]: calls of its
    methods by the client, and the callbacks [connect()] installed. *)
Inductive Event :=
| EListTools
| ECallTool (toolName : jsstring) (args : Json)
| EData (data : Buffer)
| EStderr (data : Buffer)
| EError (e : Error)
| ETimer (p : nat)
| EExit (code : option N)
| EClose.

Definition step (st : Conn) (ev : Event) : Conn :=
  match ev with
  | EListTools => snd (listTools st)
  | ECallTool toolName args => snd (callTool toolName args st)
  | EData data => on_data data st
  | EStderr data => on_stderr data st
  | EError e => on_error e st
  | ETimer p => on_timer p st
  | EExit code => on_exit code st
  | EClose => close st
  end.

Definition run (evs : list Event) (st : Conn) : Conn :=
  fold_left step evs st.

(** The lines the stdout handler takes out of a sequence of chunks,
    and the fragment it retains, starting with [buf] retained. *)
Definition framed (chunks : list Buffer) (buf : jsstring)
  : list jsstring * jsstring :=
  fold_left (fun acc data =>
               let (lines, buf') := frame (snd acc) data in
               (fst acc ++ lines, buf'))
            chunks ([], buf).

(** A state with its log forgotten. *)
Definition erase_log (st : Conn) : Conn := set_log [] st.

(** A connection's life: [connect()], then events. *)
Definition session (spawned : result ChildProcess) (evs : list Event) : Conn :=
  run evs (snd (connect spawned fresh)).

End Connection.

End Stdio.

(* ===================================================================== *)
(** * [HttpMCPConnection]                                                 *)
(* ===================================================================== *)

Module Http.
Import JS Base.

Record HttpMCPConfig := {
  name : jsstring;
  url : jsstring;
  headers : option (list (jsstring * jsstring))
}.

(** One call of [fetch]. *)
Record FetchCall := {
  f_url : jsstring;
  f_method : jsstring;
  f_headers : list (jsstring * jsstring);
  f_body : Json                      (* before [JSON.stringify] *)
}.

(** What the awaited [fetch] gave: [ok], [status], and what
    [await response.text()] and [await response.json()] give. *)
Record Response := {
  ok : bool;
  status : N;
  text : result jsstring;
  json : result Json
}.

(** The connection object has no fields besides its configuration; the
    state records its calls of [fetch] and its log entries. *)
Record Conn := {
  fetched : list FetchCall;
  log : list LogEntry
}.

Definition fresh : Conn := {| fetched := []; log := [] |}.

Definition logger (e : LogEntry) (st : Conn) : Conn :=
  {| fetched := fetched st; log := log st ++ [e] |}.

Definition fetch (c : FetchCall) (st : Conn) : Conn :=
  {| fetched := fetched st ++ [c]; log := log st |}.

Section Connection.
Variable config : HttpMCPConfig.

(** [{ 'Content-Type': 'application/json', ...this.config.headers }] *)
Definition merged_headers : list (jsstring * jsstring) :=
  fold_left (fun m kv => map_set str_eqb (fst kv) (snd kv) m)
            (match headers config with Some h => h | None => [] end)
            [(lit "Content-Type", lit "application/json")].

(** [httpRequest(method, path, body)]; [answer] is what the awaited
    [fetch] gave.  Everything thrown inside the [try] is an [Error], so
    the [catch] rethrows it unchanged. *)
Definition httpRequest (method path : jsstring) (body : Json)
           (answer : result Response) (st : Conn) : result Json * Conn :=
  let st := fetch {| f_url := url config ++ path; f_method := method;
                     f_headers := merged_headers; f_body := body |} st in
  match answer with
  | Throw e => (Throw e, st)
  | Ok response =>
      if negb (ok response) then
        match text response with
        | Throw e => (Throw e, st)
        | Ok errorText =>
            (Throw {| message := lit "HTTP " ++ decimal (status response)
                                   ++ lit ": " ++ errorText |}, st)
        end
      else (json response, st)
  end.

(** [listTools()]: [return response.tools || []] *)
Definition listTools (answer : result Response) (st : Conn)
  : result Json * Conn :=
  let (r, st) := httpRequest (lit "POST") (lit "/tools/list") (JObj []) answer st in
  match r with
  | Throw e => (Throw e, st)
  | Ok response =>
      match get_prop (Some response) (lit "tools") with
      | None => (Throw {| message := lit "Cannot read properties of null" |}, st)
      | Some tools =>
          if truthy tools then
            (match tools with Some t => Ok t | None => Ok (JArr []) end, st)
          else (Ok (JArr []), st)
      end
  end.

(** [connect()] *)
Definition connect (answer : result Response) (st : Conn)
  : result unit * Conn :=
  let st := logger (LInfo (lit "Connecting to HTTP MCP server: " ++ name config
                             ++ lit " at " ++ url config)) st in
  let (r, st) := listTools answer st in
  match r with
  | Ok _ =>
      (Ok tt, logger (LInfo (lit "Connected to HTTP MCP server: " ++ name config)) st)
  | Throw e =>
      (Throw {| message := lit "Failed to connect to HTTP MCP server "
                             ++ name config ++ lit ": " ++ message e |}, st)
  end.

(** [callToolImpl(toolName, args)] *)
Definition callToolImpl (B : Builtins) (toolName : jsstring) (args : Json)
           (answer : result Response) (st : Conn) : result ToolResult * Conn :=
  let (r, st) := httpRequest (lit "POST") (lit "/tools/call")
                   (JObj [(lit "name", JStr toolName); (lit "arguments", args)])
                   answer st in
  match r with
  | Throw e => (Throw e, st)
  | Ok response =>
      match get_prop (Some response) (lit "content") with
      | None => (Throw {| message := lit "Cannot read properties of null" |}, st)
      | Some c =>
          (Ok {| Base.status := success;
                 content := option_map (JSON_stringify B) c;
                 metadata := Some (name config) |}, st)
      end
  end.

(** [BaseMCPConnection.callTool] on this connection. *)
Definition callTool (B : Builtins) (toolName : jsstring) (args : Json)
           (answer : result Response) (st : Conn) : ToolResult * Conn :=
  let st := logger (LToolCall toolName args) st in
  let (impl, st) := callToolImpl B toolName args answer st in
  let r := callTool_result impl in
  (r, logger (LToolResult toolName r) st).

Definition close (st : Conn) : Conn :=
  logger (LInfo (lit "Closed HTTP MCP connection: " ++ name config)) st.

(** [isConnected()]: "For HTTP, always return true (stateless)" *)
Definition isConnected (st : Conn) : bool := true.

End Connection.

End Http.

(* ===================================================================== *)
(** * [EnhancedMCPClient]                                                 *)
(* ===================================================================== *)

Module Client.
Import JS Base.

Record MCPServerConfig := {
  name : jsstring;
  transport : jsstring;
  command : option jsstring;
  args : option (list jsstring);
  url : option jsstring;
  headers : option (list (jsstring * jsstring))
}.

Inductive Transport := stdio | http.

(** A connection object held by the client: a [StdioMCPConnection] or
    an [HttpMCPConnection] built from a configuration. *)
Record Connection := {
  kind : Transport;
  config : MCPServerConfig
}.

(** An element of what [listTools()] returns. *)
Record ToolDescriptor := {
  d_name : jsstring;
  d_description : option jsstring;
  d_inputSchema : Json
}.

(** [MCPToolWrapper] *)
Record Tool := {
  serverName : jsstring;
  toolName : jsstring;
  w_name : jsstring;
  w_description : jsstring;
  w_parameters : Json
}.

(** The client's awaited calls on its connections, with what they
    settled to.  [ICallTool] is the connection's [callToolImpl]. *)
Inductive Interaction :=
| IConnect (c : Connection) (r : result unit)
| IListTools (c : Connection) (r : result (list ToolDescriptor))
| ICallTool (c : Connection) (tool : jsstring) (args : Json) (r : result ToolResult)
| IClose (c : Connection).

(** The world outside the client: what each awaited call settles to,
    which may depend on everything that happened before. *)
Record Env := {
  connect_outcome : list Interaction -> Connection -> result unit;
  listTools_outcome :
    list Interaction -> Connection -> result (list ToolDescriptor);
  callToolImpl_outcome :
    list Interaction -> Connection -> jsstring -> Json -> result ToolResult
}.

Record State := {
  stdioServers : list (jsstring * Connection);
  httpServers : list (jsstring * Connection);
  discoveredTools : list Tool;
  log : list LogEntry;
  trace : list Interaction
}.

Definition fresh : State :=
  {| stdioServers := []; httpServers := []; discoveredTools := [];
     log := []; trace := [] |}.

Definition set_stdioServers (m : list (jsstring * Connection)) (st : State) : State :=
  {| stdioServers := m; httpServers := httpServers st;
     discoveredTools := discoveredTools st; log := log st; trace := trace st |}.

Definition set_httpServers (m : list (jsstring * Connection)) (st : State) : State :=
  {| stdioServers := stdioServers st; httpServers := m;
     discoveredTools := discoveredTools st; log := log st; trace := trace st |}.

Definition set_discoveredTools (ts : list Tool) (st : State) : State :=
  {| stdioServers := stdioServers st; httpServers := httpServers st;
     discoveredTools := ts; log := log st; trace := trace st |}.

Definition logger (e : LogEntry) (st : State) : State :=
  {| stdioServers := stdioServers st; httpServers := httpServers st;
     discoveredTools := discoveredTools st; log := log st ++ [e];
     trace := trace st |}.

Definition record (i : Interaction) (st : State) : State :=
  {| stdioServers := stdioServers st; httpServers := httpServers st;
     discoveredTools := discoveredTools st; log := log st;
     trace := trace st ++ [i] |}.

Section Client.
Variable E : Env.

(** [await connection.connect()] *)
Definition await_connect (c : Connection) (st : State) : result unit * State :=
  let r := connect_outcome E (trace st) c in
  (r, record (IConnect c r) st).

(** [await connection.listTools()] *)
Definition await_listTools (c : Connection) (st : State)
  : result (list ToolDescriptor) * State :=
  let r := listTools_outcome E (trace st) c in
  (r, record (IListTools c r) st).

(** [await connection.callTool(toolName, args)]:
    [BaseMCPConnection.callTool] around the connection's
    [callToolImpl]. *)
Definition await_callTool (c : Connection) (tool : jsstring) (args : Json)
           (st : State) : ToolResult * State :=
  let st := logger (LToolCall tool args) st in
  let impl := callToolImpl_outcome E (trace st) c tool args in
  let st := record (ICallTool c tool args impl) st in
  let r := callTool_result impl in
  (r, logger (LToolResult tool r) st).

(** [!config.command]: [undefined] or the empty string. *)
Definition falsy_str (o : option jsstring) : bool :=
  match o with
  | Some s => negb (truthy_str s)
  | None => true
  end.

(** [!config.args]: an array is always truthy. *)
Definition falsy_arr {A} (o : option (list A)) : bool :=
  match o with
  | Some _ => false
  | None => true
  end.

Definition initializeStdioServer (cfg : MCPServerConfig) (st : State)
  : result unit * State :=
  if falsy_str (command cfg) || falsy_arr (args cfg) then
    (Throw {| message := lit "Stdio server " ++ name cfg
                           ++ lit " missing command or args" |}, st)
  else
    let connection := {| kind := stdio; config := cfg |} in
    let (r, st) := await_connect connection st in
    match r with
    | Throw e => (Throw e, st)
    | Ok _ =>
        let st := set_stdioServers
                    (map_set str_eqb (name cfg) connection (stdioServers st)) st in
        (Ok tt, logger (LInfo (lit "Initialized stdio MCP server: " ++ name cfg)) st)
    end.

Definition initializeHttpServer (cfg : MCPServerConfig) (st : State)
  : result unit * State :=
  if falsy_str (url cfg) then
    (Throw {| message := lit "HTTP server " ++ name cfg ++ lit " missing url" |}, st)
  else
    let connection := {| kind := http; config := cfg |} in
    let (r, st) := await_connect connection st in
    match r with
    | Throw e => (Throw e, st)
    | Ok _ =>
        let st := set_httpServers
                    (map_set str_eqb (name cfg) connection (httpServers st)) st in
        (Ok tt, logger (LInfo (lit "Initialized HTTP MCP server: " ++ name cfg)) st)
    end.

(** The body of the [for] loop of [initialize]: the [try]/[catch]
    around one server. *)
Definition initialize_one (st : State) (cfg : MCPServerConfig) : State :=
  let (r, st) :=
    if str_eqb (transport cfg) (lit "stdio") then initializeStdioServer cfg st
    else if str_eqb (transport cfg) (lit "http") then initializeHttpServer cfg st
    else (Ok tt, logger (LError (lit "Unknown transport type: " ++ transport cfg) None) st)
  in
  match r with
  | Ok _ => st
  | Throw e =>
      logger (LError (lit "Failed to initialize MCP server " ++ name cfg) (Some e)) st
  end.

(** [new MCPToolWrapper(serverName, tool.name, this,
      `mcp_${serverName}_${tool.name}`,
      tool.description || `Tool ${tool.name} from ${serverName}`,
      tool.inputSchema)] *)
Definition wrap (server : jsstring) (tool : ToolDescriptor) : Tool :=
  {| serverName := server;
     toolName := d_name tool;
     w_name := lit "mcp_" ++ server ++ lit "_" ++ d_name tool;
     w_description :=
       (if falsy_str (d_description tool)
        then lit "Tool " ++ d_name tool ++ lit " from " ++ server
        else or_empty (d_description tool));
     w_parameters := d_inputSchema tool |}.

(** The body of the [for] loop of [discoverToolsFromConnections]. *)
Definition discover_one (serverType : jsstring) (st : State)
           (entry : jsstring * Connection) : State :=
  let (server, connection) := entry in
  let (r, st) := await_listTools connection st in
  match r with
  | Ok tools =>
      let st := logger (LInfo (lit "Discovered " ++ decimal (N.of_nat (List.length tools))
                                 ++ lit " tools from " ++ serverType
                                 ++ lit " server " ++ server)) st in
      set_discoveredTools (discoveredTools st ++ map (wrap server) tools) st
  | Throw e =>
      logger (LError (lit "Failed to list tools from " ++ serverType
                        ++ lit " server " ++ server) (Some e)) st
  end.

Definition discoverToolsFromConnections
           (connections : list (jsstring * Connection)) (serverType : jsstring)
           (st : State) : State :=
  fold_left (discover_one serverType) connections st.

Definition discoverTools (st : State) : list Tool * State :=
  let st := set_discoveredTools [] st in
  let st := discoverToolsFromConnections (stdioServers st) (lit "stdio") st in
  let st := discoverToolsFromConnections (httpServers st) (lit "HTTP") st in
  (discoveredTools st, st).

Definition initialize (configs : list MCPServerConfig) (st : State)
  : result unit * State :=
  let st := logger (LInfo (lit "Initializing EnhancedMCPClient with "
                             ++ decimal (N.of_nat (List.length configs))
                             ++ lit " servers")) st in
  let st := fold_left initialize_one configs st in
  let (_, st) := discoverTools st in
  (Ok tt,
   logger (LInfo (lit "Initialized "
                    ++ decimal (N.of_nat (List.length (discoveredTools st)))
                    ++ lit " tools from MCP servers")) st).

Definition getTools (st : State) : list Tool := discoveredTools st.

Definition callTool (server tool : jsstring) (args : Json) (st : State)
  : result ToolResult * State :=
  match map_get str_eqb server (stdioServers st) with
  | Some connection =>
      let (r, st) := await_callTool connection tool args st in (Ok r, st)
  | None =>
      match map_get str_eqb server (httpServers st) with
      | Some connection =>
          let (r, st) := await_callTool connection tool args st in (Ok r, st)
      | None =>
          (Throw {| message := lit "MCP server '" ++ server ++ lit "' not found" |}, st)
      end
  end.

Definition shutdown (st : State) : State :=
  let st := logger (LInfo (lit "Shutting down EnhancedMCPClient")) st in
  let st := fold_left (fun st e => record (IClose (snd e)) st) (stdioServers st) st in
  let st := fold_left (fun st e => record (IClose (snd e)) st) (httpServers st) st in
  let st := set_discoveredTools [] (set_httpServers [] (set_stdioServers [] st)) in
  logger (LInfo (lit "EnhancedMCPClient shutdown complete")) st.

End Client.

(** ** Vocabulary for the statements about [initialize] *)

(** The connection object [initialize] builds for a configuration:
    none when the transport is unknown or a required field is missing. *)
Definition connection_for (cfg : MCPServerConfig) : option Connection :=
  if str_eqb (transport cfg) (lit "stdio") then
    if falsy_str (command cfg) || falsy_arr (args cfg) then None
    else Some {| kind := stdio; config := cfg |}
  else if str_eqb (transport cfg) (lit "http") then
    if falsy_str (url cfg) then None
    else Some {| kind := http; config := cfg |}
  else None.

Definition connections_for (configs : list MCPServerConfig) : list Connection :=
  flat_map (fun cfg => match connection_for cfg with
                       | Some c => [c]
                       | None => []
                       end) configs.

(** The connection an interaction is a [connect()] of, or a
    [listTools()] of. *)
Definition connect_of (i : Interaction) : option Connection :=
  match i with
  | IConnect c _ => Some c
  | _ => None
  end.

Definition listTools_of (i : Interaction) : option Connection :=
  match i with
  | IListTools c _ => Some c
  | _ => None
  end.

(** The two registries after a [connect()] that settled as [i] says. *)
Definition registered
           (maps : list (jsstring * Connection) * list (jsstring * Connection))
           (i : Interaction)
  : list (jsstring * Connection) * list (jsstring * Connection) :=
  match i with
  | IConnect c (Ok _) =>
      match kind c with
      | stdio => (map_set str_eqb (name (config c)) c (fst maps), snd maps)
      | http => (fst maps, map_set str_eqb (name (config c)) c (snd maps))
      end
  | _ => maps
  end.

(** The public name of a wrapped tool as the code builds it. *)
Definition mcp_named (t : Tool) : Prop :=
  w_name t = lit "mcp_" ++ serverName t ++ lit "_" ++ toolName t.

(** The log says that [cfg] was skipped. *)
Definition skip_logged (cfg : MCPServerConfig) (st : State) : Prop :=
  In (LError (lit "Unknown transport type: " ++ transport cfg) None) (log st)
  \/ exists e,
      In (LError (lit "Failed to initialize MCP server " ++ name cfg) (Some e))
         (log st).

(** A state with its log forgotten. *)
Definition erase_log (st : State) : State :=
  {| stdioServers := stdioServers st; httpServers := httpServers st;
     discoveredTools := discoveredTools st; log := []; trace := trace st |}.

End Client.

(* ===================================================================== *)
(** * Invariants of the subprocess connection                             *)
(* ===================================================================== *)

Import JS Base.
Unset Implicit Arguments.

Module StdioInv.
Import Stdio.

(** Request ids written so far: increasing, positive, at most the
    counter. *)
Definition ids_inv (st : Conn) : Prop :=
  StronglySorted Z.lt (map rq_id (written st)) /\
  Forall (fun r => (0 < rq_id r <= messageId st)%Z) (written st).

(** The Pending Request Table, the armed timers and the completed
    promises fit together. *)
Record pending_inv (st : Conn) : Prop := {
  pi_keys : NoDup (map fst (pendingRequests st));
  pi_vals : NoDup (map snd (pendingRequests st));
  pi_timers : NoDup (map t_promise (timers st));
  pi_settled : NoDup (map fst (settled st));
  pi_pending : forall i p, In (i, p) (pendingRequests st) ->
      ~ In p (map fst (settled st)) /\
      exists t, In t (timers st) /\ t_promise t = p /\ t_id t = i;
  pi_timer : forall t, In t (timers st) ->
      t_promise t < promises st /\ t_delay t = TIMEOUT_MS /\
      (t_id t <= messageId st)%Z /\
      forall p, In (t_id t, p) (pendingRequests st) -> p = t_promise t;
  pi_bound : forall p, In p (map fst (settled st)) -> p < promises st
}.

(** The [p]-th promise belongs to the [p]-th request written, and a
    pending entry is filed under that request's id. *)
Definition written_inv (st : Conn) : Prop :=
  List.length (written st) = promises st /\
  forall i p, In (i, p) (pendingRequests st) ->
    exists r, nth_error (written st) p = Some r /\ rq_id r = i.

End StdioInv.


(* ===================================================================== *)
(** * More vocabulary for the subprocess connection                       *)
(* ===================================================================== *)

Module StdioMore.
Import Stdio.

(** From [st] to [st'] the promises [more] were completed, in this
    order; each of them had an entry in the table, for each of them at
    least one entry left the table, and no entry was added. *)
Definition completes (st st' : Conn) (more : list (nat * Settlement)) : Prop :=
  settled st' = settled st ++ more /\
  List.length (pendingRequests st') + List.length more <=
    List.length (pendingRequests st) /\
  incl (pendingRequests st') (pendingRequests st) /\
  incl (map fst more) (map snd (pendingRequests st)).

(** [lines.join('\n') + '\n'], for the lines taken out of the buffer. *)
Definition terminated (lines : list jsstring) : jsstring :=
  flat_map (fun line => line ++ [NL]) lines.

(** The calls of [listTools] and [callTool] among the events of a
    session. *)
Definition is_call (ev : Event) : bool :=
  match ev with
  | EListTools | ECallTool _ _ => true
  | _ => false
  end.

Definition calls (evs : list Event) : nat :=
  List.length (filter is_call evs).

End StdioMore.

(* ===================================================================== *)
(** * [MCPToolWrapper]                                                    *)
(* ===================================================================== *)

Module Wrapper.
Import JS Base Client.

Section Wrapper.
Variable E : Env.

(** [BaseTool.validateArgs] is inherited from a class outside this
  development: what it does with a tool and its arguments — return
  or throw — is a parameter. *)
Variable validateArgs : Tool -> Json -> result unit.

(** [execute(args, context)] *)
Definition execute (t : Tool) (args : Json) (st : State)
: result ToolResult * State :=
match validateArgs t args with
| Throw e => (Throw e, st)
| Ok _ => callTool E (serverName t) (toolName t) args st
end.

End Wrapper.

(** The tools a [listTools()] that settled as [i] adds to the
    discovered set, for the connection registered as [fst entry]. *)
Definition listed_tools (entry : jsstring * Connection) (i : Interaction)
  : list Tool :=
  match i with
  | IListTools _ (Ok ds) => map (wrap (fst entry)) ds
  | _ => []
  end.

(** The connection an interaction is a [close()] of. *)
Definition close_of (i : Interaction) : option Connection :=
  match i with
  | IClose c => Some c
  | _ => None
  end.

(** A registry of transport [k]: one entry per name, each filed under
    the name of its configuration. *)
Definition registry_ok (k : Transport) (m : list (jsstring * Connection)) : Prop :=
  NoDup (map fst m) /\
  forall key c, In (key, c) m -> kind c = k /\ name (config c) = key.

(** [UNDERSCORE] does not occur in [s]. *)
Definition UNDERSCORE : N := 95.

Definition no_underscore (s : jsstring) : Prop := ~ In UNDERSCORE s.

End Wrapper.

(* ===================================================================== *)
(** * [ModelBehaviorError]                                                *)
(* ===================================================================== *)

Module Errors.
Import JS.

(** [BaseError] sets [name] to the name of the constructor; the stack
    trace is not modelled. *)
Record ModelBehaviorError := {
  name : jsstring;
  message : jsstring;
  response : jsstring
}.

Definition new_ModelBehaviorError (response message : jsstring)
  : ModelBehaviorError :=
  {| name := lit "ModelBehaviorError"; message := message;
     response := response |}.

(** [getTruncatedResponse()]; [length] and [substring] count UTF-16
    code units. *)
Definition getTruncatedResponse (e : ModelBehaviorError) : jsstring :=
  if Nat.leb (List.length (response e)) 200 then response e
  else firstn 200 (response e) ++ lit "...".

End Errors.

(* ===================================================================== *)
(** * Response formatting, [FetchHandler] and [SearchHandler]             *)
(* ===================================================================== *)

Module Handlers.
Import JS.

Record ContentItem := {
  type : jsstring;
  text : jsstring
}.

Record Response := {
  content : list ContentItem
}.

Section Formatter.
Variable B : Builtins.

Definition createTextResponse (text : jsstring) : Response :=
{| content := [{| type := lit "text"; text := text |}] |}.

Definition createJsonResponse (data : Json) : Response :=
createTextResponse (JSON_stringify B data).

Definition createErrorResponse (errorMessage : jsstring) : Response :=
createJsonResponse (JObj [(lit "error", JStr errorMessage)]).

End Formatter.

(** [SearchResult] and [CachedDocument], with the fields the handlers
    give them. *)
Record SearchResult := {
  r_id : jsstring;
  r_title : jsstring;
  r_url : jsstring
}.

Record Metadata := {
  m_query : jsstring;
  m_timestamp : jsstring;
  m_model : jsstring
}.

Record CachedDocument := {
  d_id : jsstring;
  d_title : jsstring;
  d_text : jsstring;
  d_url : jsstring;
  d_metadata : Metadata
}.

(** The object literals handed to [JSON.stringify]. *)
Definition result_json (r : SearchResult) : Json :=
  JObj [(lit "id", JStr (r_id r)); (lit "title", JStr (r_title r));
        (lit "url", JStr (r_url r))].

Definition metadata_json (m : Metadata) : Json :=
  JObj [(lit "query", JStr (m_query m)); (lit "timestamp", JStr (m_timestamp m));
        (lit "model", JStr (m_model m))].

Definition fetchResult_json (d : CachedDocument) : Json :=
  JObj [(lit "id", JStr (d_id d)); (lit "title", JStr (d_title d));
        (lit "text", JStr (d_text d)); (lit "url", JStr (d_url d));
        (lit "metadata", metadata_json (d_metadata d))].

(** The [searchCache] shared by the two handlers. *)
Definition Cache := list (jsstring * CachedDocument).

Module Fetch.
Section Fetch.
Variable B : Builtins.

(** [FetchHandler.handle(input)]; nothing inside its [try] throws, a
  cached document being an object and so truthy. *)
Definition handle (id : jsstring) (searchCache : Cache) : Response :=
match map_get str_eqb id searchCache with
| None =>
    createErrorResponse B
      (lit "Document with id '" ++ id
         ++ lit "' not found. Please perform a search first.")
| Some cachedDoc => createJsonResponse B (fetchResult_json cachedDoc)
end.

End Fetch.
End Fetch.

Module Search.

Definition HYPHEN : N := 45.

(** [query.replace(/\s+/g, '-')]: every maximal run of white space
    becomes one hyphen; [in_run] says that the previous code unit was
    white space. *)
Fixpoint replace_runs (in_run : bool) (s : jsstring) : jsstring :=
  match s with
  | [] => []
  | c :: s' =>
      if is_ws c then
        if in_run then replace_runs true s' else HYPHEN :: replace_runs true s'
      else c :: replace_runs false s'
  end.

Definition replace_whitespace (s : jsstring) : jsstring := replace_runs false s.

Section Search.
Variable B : Builtins.

(** The world of the handler: what [Date.now()] returns at its first,
  second, ... call, what [new Date().toISOString()] returns for the
  first, second, ... cached document, what the awaited
  [geminiAI.query(prompt)] settles to, and the configured model. *)
Variable Date_now : nat -> N.
Variable toISOString : nat -> jsstring.
Variable query : jsstring -> result jsstring.
Variable model : jsstring.

(** The [for] loop of [parseSearchResults] from index [i] on, over the
  lines left; [calls] counts the calls of [Date.now()] so far. *)
Fixpoint results_from (lines : list jsstring) (i calls : nat) (q : jsstring)
: list SearchResult :=
match lines with
| [] => []
| line :: rest =>
    if Nat.ltb 10 (List.length line) then
      {| r_id := lit "doc-" ++ decimal (Date_now calls) ++ lit "-"
                   ++ decimal (N.of_nat i);
         r_title := trim (firstn 100 line);
         r_url := lit "https://gemini-search/" ++ replace_whitespace q
                    ++ lit "/" ++ decimal (N.of_nat i) |}
      :: results_from rest (S i) (S calls) q
    else results_from rest (S i) calls q
end.

Definition parseSearchResults (responseText q : jsstring) : list SearchResult :=
let lines := filter (fun line => truthy_str (trim line)) (split_nl responseText) in
(* i < Math.min(3, lines.length) *)
let results := results_from (firstn 3 lines) 0 0 q in
match results with
| [] =>
    [{| r_id := lit "doc-" ++ decimal (Date_now 0) ++ lit "-0";
        r_title := q;
        r_url := lit "https://gemini-search/" ++ replace_whitespace q |}]
| _ => results
end.

Definition searchPrompt (q : jsstring) : jsstring :=
lit "Search and provide information about: " ++ q ++ lit ". " ++ [NL]
++ lit "Return your response as a structured list of relevant topics or documents with brief descriptions.".

(** The callback of [results.forEach]. *)
Definition cache_result (q responseText : jsstring) (acc : nat * Cache)
         (result : SearchResult) : nat * Cache :=
let (index, searchCache) := acc in
let cachedDoc :=
  {| d_id := r_id result; d_title := r_title result; d_text := responseText;
     d_url := r_url result;
     d_metadata := {| m_query := q; m_timestamp := toISOString index;
                      m_model := model |} |} in
(S index, map_set str_eqb (r_id result) cachedDoc searchCache).

(** [SearchHandler.handle(input)]: the response and the cache
  afterwards.  What [geminiAI.query] throws is an [Error], whose
  message [getErrorMessage] returns. *)
Definition handle (q : jsstring) (searchCache : Cache) : Response * Cache :=
match query (searchPrompt q) with
| Ok responseText =>
    let results := parseSearchResults responseText q in
    let searchCache :=
      snd (fold_left (cache_result q responseText) results (0, searchCache)) in
    (createJsonResponse B
       (JObj [(lit "results", JArr (map result_json results))]),
     searchCache)
| Throw thrown =>
    (createJsonResponse B
       (JObj [(lit "results", JArr []);
              (lit "error",
               JStr (lit "Error searching with Gemini: " ++ JS.message thrown))]),
     searchCache)
end.

End Search.
End Search.

End Handlers.
(* ===================================================================== *)
(** * Concrete connections, replies and servers used in the examples      *)
(* ===================================================================== *)

Module Examples.
Import Stdio.

(** The double quote, which a string literal cannot hold. *)
Definition quote : string := String (ascii_of_nat 34) EmptyString.

Definition ascii_bytes (s : string) : Buffer := list_byte_of_string s.

Definition files_config : StdioMCPConfig :=
  {| name := lit "files"; command := lit "npx"; args := [lit "server-filesystem"] |}.

Definition child : ChildProcess :=
  {| stdin := true; stdout := true; killed := false |}.

(** The reply [{"id":1,"result":{"content":"hi"}}]. *)
Definition reply_text : string :=
  ("{" ++ quote ++ "id" ++ quote ++ ":1," ++ quote ++ "result" ++ quote ++ ":{"
       ++ quote ++ "content" ++ quote ++ ":" ++ quote ++ "hi" ++ quote ++ "}}")%string.

Definition reply_value : Json :=
  JObj [(lit "id", JNum 1);
        (lit "result", JObj [(lit "content", JStr (lit "hi"))])].

(** The reply [{"id":1,"error":{"message":{"toString":1}}}]: an error
    whose message is an object with a field named [toString]. *)
Definition stuck_reply_text : string :=
  ("{" ++ quote ++ "id" ++ quote ++ ":1," ++ quote ++ "error" ++ quote ++ ":{"
       ++ quote ++ "message" ++ quote ++ ":{" ++ quote ++ "toString" ++ quote
       ++ ":1}}}")%string.

Definition stuck_message : Json := JObj [(lit "toString", JNum 1)].

Definition stuck_reply_fields : list (jsstring * Json) :=
  [(lit "id", JNum 1); (lit "error", JObj [(lit "message", stuck_message)])].

(** [String(v)] for a value [JSON.parse] returned.  An object converts
    to [[object Object]], unless it has a field named [toString]: that
    field is no function, [valueOf] returns the object itself, and the
    conversion throws a TypeError.  An array is its elements converted
    and joined with commas, [null] counting as empty. *)
Definition show_number (n : Z) : jsstring :=
  if Z.ltb n 0 then lit "-" ++ decimal (Z.to_N (- n)) else decimal (Z.to_N n).

Definition not_primitive : Error :=
  {| message := lit "Cannot convert object to primitive value" |}.

Fixpoint to_string (j : Json) : result jsstring :=
  match j with
  | JNull => Ok (lit "null")
  | JBool true => Ok (lit "true")
  | JBool false => Ok (lit "false")
  | JNum n => Ok (show_number n)
  | JStr s => Ok s
  | JObj fs =>
      match lookup_field (lit "toString") fs with
      | Some _ => Throw not_primitive
      | None => Ok (lit "[object Object]")
      end
  | JArr items =>
      (fix join (first : bool) (l : list Json) : result jsstring :=
         match l with
         | [] => Ok []
         | x :: rest =>
             match (match x with JNull => Ok [] | _ => to_string x end) with
             | Throw e => Throw e
             | Ok s =>
                 match join false rest with
                 | Throw e => Throw e
                 | Ok r => Ok ((if first then [] else lit ",") ++ s ++ r)
                 end
             end
         end) true items
  end.

Definition syntax_error : Error := {| message := lit "Unexpected token" |}.

(** A [JSON.parse] that knows the two replies above and rejects every
    other text, a [JSON.stringify] that prints nothing, and the errors
    of the platform. *)
Definition table_builtins : Builtins :=
  {| JSON_parse := fun line =>
       if str_eqb line (lit reply_text) then Some reply_value
       else if str_eqb line (lit stuck_reply_text)
            then Some (JObj stuck_reply_fields)
            else None;
     JSON_parse_error := fun _ => syntax_error;
     JSON_stringify := fun _ => [];
     ToString := to_string;
     TypeError_read := fun _ k =>
       {| message := lit "Cannot read properties (reading '" ++ k ++ lit "')" |} |}.

(** The reply [{"id":1,"result":{"content":"é"}}] followed by a newline,
    as the bytes the child writes: [é] is the two bytes C3 A9.  The
    operating system delivers them in one read, or in two reads with
    the cut between C3 and A9. *)
Definition accent_head : Buffer :=
  ascii_bytes ("{" ++ quote ++ "id" ++ quote ++ ":1," ++ quote ++ "result" ++ quote
                   ++ ":{" ++ quote ++ "content" ++ quote ++ ":" ++ quote)%string
  ++ [xc3].

Definition accent_tail : Buffer :=
  [xa9] ++ ascii_bytes (quote ++ "}}")%string ++ [x0a].

(** The line a subprocess that prints the reply whole is read as, and
    the line read when the two chunks arrive separately. *)
Definition accent_line (inside : list N) : jsstring :=
  lit ("{" ++ quote ++ "id" ++ quote ++ ":1," ++ quote ++ "result" ++ quote
           ++ ":{" ++ quote ++ "content" ++ quote ++ ":" ++ quote)%string
  ++ inside ++ lit (quote ++ "}}")%string.

(** One [callTool] awaiting its reply, and the same after its timer
    has fired. *)
Definition waiting : Conn :=
  session table_builtins files_config (Ok child)
          [ECallTool (lit "read_file") (JObj [])].

Definition timed_out : Conn :=
  session table_builtins files_config (Ok child)
          [ECallTool (lit "read_file") (JObj []); ETimer 0].

Definition first_timer : Timer :=
  {| t_id := 1; t_promise := 0; t_method := lit "tools/call";
     t_delay := 30000 |}.

Definition tools_call_request : Request :=
  {| rq_id := 1; rq_method := lit "tools/call";
     rq_params := JObj [(lit "name", JStr (lit "read_file"));
                        (lit "arguments", JObj [])] |}.

(** An HTTP server and an answer of [fetch]: a refused connection. *)
Definition web_config : Http.HttpMCPConfig :=
  {| Http.name := lit "web"; Http.url := lit "http://localhost:3000/mcp";
     Http.headers := None |}.

Definition refused : Error := {| message := lit "fetch failed" |}.

Definition tools_reply : Http.Response :=
  {| Http.ok := true; Http.status := 200; Http.text := Ok [];
     Http.json := Ok (JObj [(lit "tools", JArr [])]) |}.

(** Scenario B: a subprocess server [alpha] and an HTTP server [beta],
    each exposing one tool named [search]. *)
Definition search_tool : Client.ToolDescriptor :=
  {| Client.d_name := lit "search"; Client.d_description := None;
     Client.d_inputSchema := JObj [] |}.

Definition alpha_config : Client.MCPServerConfig :=
  {| Client.name := lit "alpha"; Client.transport := lit "stdio";
     Client.command := Some (lit "npx"); Client.args := Some [lit "alpha-server"];
     Client.url := None; Client.headers := None |}.

Definition beta_config : Client.MCPServerConfig :=
  {| Client.name := lit "beta"; Client.transport := lit "http";
     Client.command := None; Client.args := None;
     Client.url := Some (lit "http://localhost:3000/mcp"); Client.headers := None |}.

(** A configuration whose transport is neither of the two. *)
Definition gamma_config : Client.MCPServerConfig :=
  {| Client.name := lit "gamma"; Client.transport := lit "websocket";
     Client.command := None; Client.args := None;
     Client.url := Some (lit "ws://localhost:4000"); Client.headers := None |}.

(** A world in which every connect succeeds, every server lists the
    tool [search], and every tool call fails inside the connection. *)
Definition search_world : Client.Env :=
  {| Client.connect_outcome := fun _ _ => Ok tt;
     Client.listTools_outcome := fun _ _ => Ok [search_tool];
     Client.callToolImpl_outcome := fun _ _ _ _ =>
       Throw {| message := lit "MCP request timeout: tools/call" |} |}.

Definition two_servers : Client.State :=
  snd (Client.initialize search_world [alpha_config; beta_config] Client.fresh).

End Examples.


(* ===================================================================== *)
(** * Further concrete inputs                                             *)
(* ===================================================================== *)

Module MoreExamples.
Import Stdio Examples.

(** A connection right after [connect()]. *)
Definition connected : Conn :=
  session table_builtins files_config (Ok child) [].

(** The replies [{"id":1,"error":{"message":"no such file"}}] and
    [{"id":1}], and the reply to [tools/list]
    [{"id":1,"result":{"tools":[]}}]. *)
Definition error_reply_text : string :=
  ("{" ++ quote ++ "id" ++ quote ++ ":1," ++ quote ++ "error" ++ quote ++ ":{"
       ++ quote ++ "message" ++ quote ++ ":" ++ quote ++ "no such file" ++ quote
       ++ "}}")%string.

Definition error_reply_fields : list (jsstring * Json) :=
  [(lit "id", JNum 1);
   (lit "error", JObj [(lit "message", JStr (lit "no such file"))])].

Definition bare_reply_text : string :=
  ("{" ++ quote ++ "id" ++ quote ++ ":1}")%string.

Definition bare_reply_fields : list (jsstring * Json) := [(lit "id", JNum 1)].

Definition tools_reply_text : string :=
  ("{" ++ quote ++ "id" ++ quote ++ ":1," ++ quote ++ "result" ++ quote ++ ":{"
       ++ quote ++ "tools" ++ quote ++ ":[]}}")%string.

Definition tools_reply_fields : list (jsstring * Json) :=
  [(lit "id", JNum 1); (lit "result", JObj [(lit "tools", JArr [])])].

Definition reply_fields : list (jsstring * Json) :=
  [(lit "id", JNum 1);
   (lit "result", JObj [(lit "content", JStr (lit "hi"))])].

(** A [JSON.parse] that knows these replies. *)
Definition replies_builtins : Builtins :=
  {| JSON_parse := fun line =>
       if str_eqb line (lit reply_text) then Some (JObj reply_fields)
       else if str_eqb line (lit error_reply_text) then Some (JObj error_reply_fields)
       else if str_eqb line (lit bare_reply_text) then Some (JObj bare_reply_fields)
       else if str_eqb line (lit tools_reply_text) then Some (JObj tools_reply_fields)
       else None;
     JSON_parse_error := JSON_parse_error table_builtins;
     JSON_stringify := fun _ => lit "stringified";
     ToString := ToString table_builtins;
     TypeError_read := TypeError_read table_builtins |}.

(** A line of text as the chunk of bytes that carries it. *)
Definition line_chunk (s : string) : Buffer := ascii_bytes s ++ [x0a].

End MoreExamples.
(* ===================================================================== *)
(** * Facts about [Map]                                                   *)
(* ===================================================================== *)

Section MapFacts.
Context {K V : Type} (eqb : K -> K -> bool).
Hypothesis eqb_eq : forall x y, eqb x y = true <-> x = y.

Lemma eqb_refl' x : eqb x x = true.
Proof. apply eqb_eq. reflexivity. Qed.

Lemma eqb_neq x y : x <> y -> eqb x y = false.
Proof.
  intros H. destruct (eqb x y) eqn:E; [|reflexivity].
  apply eqb_eq in E. contradiction.
Qed.

Lemma map_get_In k v (m : list (K * V)) :
  map_get eqb k m = Some v -> In (k, v) m.
Proof.
  induction m as [|[k' v'] m IH]; simpl; [discriminate|].
  destruct (eqb k k') eqn:E.
  - intros H. inversion H; subst. apply eqb_eq in E. subst. now left.
  - intros H. right. auto.
Qed.

Lemma In_map_get k v (m : list (K * V)) :
  NoDup (map fst m) -> In (k, v) m -> map_get eqb k m = Some v.
Proof.
  induction m as [|[k' v'] m IH]; simpl; [tauto|].
  intros ND [H|H].
  - inversion H; subst. now rewrite eqb_refl'.
  - inversion ND as [|? ? Hn ND']; subst.
    destruct (eqb k k') eqn:E.
    + apply eqb_eq in E. subst. exfalso. apply Hn.
      change k' with (fst (k', v)). now apply in_map.
    + auto.
Qed.

Lemma map_get_None k (m : list (K * V)) :
  map_get eqb k m = None <-> ~ In k (map fst m).
Proof.
  induction m as [|[k' v'] m IH]; simpl; [tauto|].
  destruct (eqb k k') eqn:E.
  - apply eqb_eq in E. subst. split; [discriminate|]. intros H. exfalso. auto.
  - rewrite IH. split.
    + intros H [H1|H1]; [|auto]. subst. rewrite eqb_refl' in E. discriminate.
    + intros H H1. auto.
Qed.

Lemma map_set_fresh k v (m : list (K * V)) :
  ~ In k (map fst m) -> map_set eqb k v m = m ++ [(k, v)].
Proof.
  induction m as [|[k' v'] m IH]; simpl; [reflexivity|].
  intros H. destruct (eqb k k') eqn:E.
  - apply eqb_eq in E. subst. exfalso. auto.
  - f_equal. apply IH. auto.
Qed.

Lemma In_map_delete k j v (m : list (K * V)) :
  NoDup (map fst m) ->
  (In (j, v) (map_delete eqb k m) <-> In (j, v) m /\ j <> k).
Proof.
  induction m as [|[k' v'] m IH]; simpl; [tauto|].
  intros ND. inversion ND as [|? ? Hn ND']; subst.
  destruct (eqb k k') eqn:E.
  - apply eqb_eq in E. subst. split.
    + intros H. split; [now right|]. intros ->. apply Hn.
      change k' with (fst (k', v)). now apply in_map.
    + intros [[H|H] Hne]; [inversion H; congruence|assumption].
  - simpl. rewrite (IH ND'). split.
    + intros [H|[H Hne]]; [|tauto]. inversion H; subst. split; [now left|].
      intros ->. rewrite eqb_refl' in E. discriminate.
    + tauto.
Qed.

Lemma map_delete_incl k (m : list (K * V)) :
  incl (map_delete eqb k m) m.
Proof.
  induction m as [|[k' v'] m IH]; simpl; [apply incl_refl|].
  destruct (eqb k k').
  - apply incl_tl, incl_refl.
  - intros x [H|H]; [now left|right; auto].
Qed.

Lemma NoDup_map_delete {A} (f : K * V -> A) k (m : list (K * V)) :
  NoDup (map f m) -> NoDup (map f (map_delete eqb k m)).
Proof.
  induction m as [|[k' v'] m IH]; simpl; [auto|].
  intros ND. inversion ND as [|? ? Hn ND']; subst.
  destruct (eqb k k'); [assumption|].
  simpl. constructor; [|auto].
  intros H. apply Hn. apply in_map_iff in H. destruct H as [x [Hx Hin]].
  apply in_map_iff. exists x. split; [assumption|].
  now apply (map_delete_incl k m).
Qed.

End MapFacts.

Ltac break_inner :=
  match goal with
  | |- context [match ?x with _ => _ end] =>
      lazymatch x with
      | context [match _ with _ => _ end] => fail
      | _ => destruct x eqn:?
      end
  end.

Ltac break_match :=
  match goal with
  | |- context [match ?x with _ => _ end] => destruct x eqn:?
  | |- context [if ?x then _ else _] => destruct x eqn:?
  end.

(* ===================================================================== *)
(** * Facts about lists                                                   *)
(* ===================================================================== *)

Lemma NoDup_snoc {A} (l : list A) (x : A) :
  NoDup l -> ~ In x l -> NoDup (l ++ [x]).
Proof.
  induction l as [|a l IH]; simpl; intros ND Hn.
  - constructor; [tauto|constructor].
  - inversion ND; subst. constructor.
    + rewrite in_app_iff. simpl. intuition.
    + apply IH; tauto.
Qed.

Lemma NoDup_map_inj {A C} (f : A -> C) (l : list A) a b :
  NoDup (map f l) -> In a l -> In b l -> f a = f b -> a = b.
Proof.
  induction l as [|x l IH]; simpl; [tauto|].
  intros ND Ha Hb E. inversion ND as [|? ? Hn ND']; subst.
  destruct Ha as [->|Ha], Hb as [->|Hb]; auto.
  - exfalso. apply Hn. rewrite E. now apply in_map.
  - exfalso. apply Hn. rewrite <- E. now apply in_map.
Qed.

Lemma NoDup_map_filter {A C} (f : A -> C) (g : A -> bool) (l : list A) :
  NoDup (map f l) -> NoDup (map f (filter g l)).
Proof.
  induction l as [|x l IH]; simpl; [auto|].
  intros ND. inversion ND as [|? ? Hn ND']; subst.
  destruct (g x); [|auto]. simpl. constructor; [|auto].
  intros H. apply Hn. apply in_map_iff in H. destruct H as [y [Hy Hin]].
  apply in_map_iff. exists y. split; [assumption|].
  apply filter_In in Hin. tauto.
Qed.

Lemma StronglySorted_snoc (l : list Z) (x : Z) :
  StronglySorted Z.lt l -> Forall (fun y => (y < x)%Z) l ->
  StronglySorted Z.lt (l ++ [x]).
Proof.
  induction 1 as [|a l H IH Hall]; simpl; intros Hx.
  - constructor; constructor.
  - inversion Hx; subst. constructor; [auto|].
    apply Forall_app. split; [assumption|]. constructor; [assumption|constructor].
Qed.

Lemma sorted_nth_inj {A} (f : A -> Z) (l : list A) a b x y :
  StronglySorted Z.lt (map f l) ->
  nth_error l a = Some x -> nth_error l b = Some y -> f x = f y -> a = b.
Proof.
  revert a b. induction l as [|h l IH]; intros a b HS Ha Hb E.
  - destruct a; discriminate.
  - simpl in HS. apply StronglySorted_inv in HS. destruct HS as [HS Hall].
    rewrite Forall_forall in Hall.
    destruct a as [|a], b as [|b]; simpl in Ha, Hb.
    + reflexivity.
    + inversion Ha; subst. apply nth_error_In in Hb.
      pose proof (Hall (f y) (in_map f _ _ Hb)). lia.
    + inversion Hb; subst. apply nth_error_In in Ha.
      pose proof (Hall (f x) (in_map f _ _ Ha)). lia.
    + f_equal. eapply IH; eauto.
Qed.

(* ===================================================================== *)
(** * The subprocess connection: invariants hold along every session      *)
(* ===================================================================== *)

Section StdioFacts.
Import Stdio StdioInv.
Variable B : Builtins.
Variable config : StdioMCPConfig.

Lemma Zeqb_eq : forall x y : Z, Z.eqb x y = true <-> x = y.
Proof. exact Z.eqb_eq. Qed.

(** What [handleResponse] and the stdout handler leave alone. *)
Lemma handleResponse_fields message st :
  let st' := snd (handleResponse B message st) in
  process st' = process st /\ messageId st' = messageId st /\
  buffer st' = buffer st /\ written st' = written st /\
  timers st' = timers st /\ promises st' = promises st.
Proof.
  unfold handleResponse, read, new_Error, pending_delete, pending_get.
  repeat break_match; simpl; auto 10.
Qed.

Lemma process_line_fields st line :
  let st' := process_line B st line in
  process st' = process st /\ messageId st' = messageId st /\
  buffer st' = buffer st /\ written st' = written st /\
  timers st' = timers st /\ promises st' = promises st.
Proof.
  unfold process_line.
  destruct (truthy_str (trim line)); [|auto 10].
  destruct (JSON_parse B line) as [m|]; [|simpl; auto 10].
  pose proof (handleResponse_fields m st) as H.
  destruct (handleResponse B m st) as [[u|e] st1]; simpl in H |- *;
    intuition.
Qed.

Lemma fold_process_line_fields lines : forall st,
  let st' := fold_left (process_line B) lines st in
  process st' = process st /\ messageId st' = messageId st /\
  buffer st' = buffer st /\ written st' = written st /\
  timers st' = timers st /\ promises st' = promises st.
Proof.
  induction lines as [|l ls IH]; intros st; simpl; [auto 10|].
  specialize (IH (process_line B st l)). simpl in IH.
  pose proof (process_line_fields st l) as H. simpl in H.
  intuition congruence.
Qed.

Lemma on_data_fields data st :
  let st' := on_data B data st in
  process st' = process st /\ messageId st' = messageId st /\
  written st' = written st /\
  timers st' = timers st /\ promises st' = promises st.
Proof.
  unfold on_data. destruct (frame (buffer st) data) as [lines buf].
  pose proof (fold_process_line_fields lines (set_buffer buf st)) as H.
  simpl in H. simpl. intuition.
Qed.

Lemma on_timer_fields p st :
  messageId (on_timer p st) = messageId st /\
  written (on_timer p st) = written st /\
  process (on_timer p st) = process st.
Proof.
  unfold on_timer, timeout_callback.
  repeat break_match; simpl; auto.
Qed.

(** ** Request ids *)

Lemma ids_inv_same st st' :
  messageId st' = messageId st -> written st' = written st ->
  ids_inv st -> ids_inv st'.
Proof. unfold ids_inv. intros -> ->. auto. Qed.

Lemma sendRequest_ids method params st :
  ids_inv st -> (0 <= messageId st)%Z ->
  ids_inv (snd (sendRequest config
                  {| rq_id := messageId st + 1; rq_method := method;
                     rq_params := params |}
                  (set_messageId (messageId st + 1) st))).
Proof.
  intros [Hs Hb] H0.
  assert (Hb' : Forall (fun r => (0 < rq_id r <= messageId st + 1)%Z) (written st)).
  { eapply Forall_impl; [|exact Hb]. simpl. intros; lia. }
  unfold ids_inv, sendRequest. simpl.
  destruct (process st) as [proc|]; [destruct (stdin proc)|]; simpl;
    try (split; assumption).
  split.
  - rewrite map_app. simpl. apply StronglySorted_snoc; [assumption|].
    apply Forall_map. eapply Forall_impl; [|exact Hb]. simpl. intros; lia.
  - apply Forall_app. split; [assumption|].
    constructor; [simpl; lia|constructor].
Qed.

Lemma step_ids st ev :
  ids_inv st /\ (0 <= messageId st)%Z ->
  ids_inv (step B config st ev) /\ (0 <= messageId (step B config st ev))%Z.
Proof.
  intros [Hi H0].
  destruct ev as [|toolName targs|data|data|e|p|code|]; simpl.
  - unfold listTools, nextMessageId. split.
    + now apply sendRequest_ids.
    + unfold sendRequest. simpl.
      destruct (process st) as [proc|]; [destruct (stdin proc)|]; simpl; lia.
  - unfold callTool, callToolImpl, nextMessageId.
    pose proof (sendRequest_ids (lit "tools/call")
                  (JObj [(lit "name", JStr toolName); (lit "arguments", targs)])
                  (logger (LToolCall toolName targs) st)) as Hs.
    simpl in Hs. specialize (Hs Hi H0).
    revert Hs. unfold sendRequest. simpl.
    destruct (process st) as [proc|]; [destruct (stdin proc)|]; simpl;
      intros Hs; (split; [exact Hs|lia]).
  - destruct (on_data_fields data st) as (_ & Hm & Hw & _).
    rewrite Hm. split; [|assumption]. eapply ids_inv_same; eauto.
  - split; assumption.
  - split; assumption.
  - destruct (on_timer_fields p st) as (Hm & Hw & _).
    rewrite Hm. split; [|assumption]. eapply ids_inv_same; eauto.
  - split; assumption.
  - unfold close. destruct (process st); split; assumption.
Qed.

Lemma run_ids evs : forall st,
  ids_inv st /\ (0 <= messageId st)%Z ->
  ids_inv (run B config evs st) /\ (0 <= messageId (run B config evs st))%Z.
Proof.
  induction evs as [|ev evs IH]; intros st H; simpl; [assumption|].
  apply IH. now apply step_ids.
Qed.

Lemma connect_ids spawned :
  let st := snd (connect config spawned fresh) in
  ids_inv st /\ (0 <= messageId st)%Z.
Proof.
  unfold connect, ids_inv. simpl.
  destruct spawned as [p|e]; simpl;
    [destruct (negb (stdout p) || negb (stdin p)); simpl|];
    repeat split; try constructor; lia.
Qed.

(** ** The Pending Request Table *)

Lemma pending_inv_same st st' :
  messageId st' = messageId st ->
  pendingRequests st' = pendingRequests st ->
  timers st' = timers st -> promises st' = promises st ->
  settled st' = settled st ->
  pending_inv st -> pending_inv st'.
Proof.
  intros E1 E2 E3 E4 E5 [].
  constructor; rewrite ?E1, ?E2, ?E3, ?E4, ?E5; assumption.
Qed.

Lemma pending_promise_bound st i p :
  pending_inv st -> In (i, p) (pendingRequests st) ->
  p < promises st /\ (i <= messageId st)%Z.
Proof.
  intros I H. destruct (pi_pending _ I i p H) as [_ [t [Ht [<- <-]]]].
  destruct (pi_timer _ I t Ht) as (H1 & _ & H2 & _). auto.
Qed.

(** Submitting a request under the next id. *)
Lemma sendRequest_pending method params st :
  pending_inv st ->
  pending_inv (snd (sendRequest config
                      {| rq_id := messageId st + 1; rq_method := method;
                         rq_params := params |}
                      (set_messageId (messageId st + 1) st))).
Proof.
  intros I.
  assert (Hup : pending_inv (set_messageId (messageId st + 1) st)).
  { destruct I. constructor; simpl; try assumption.
    intros t Ht. destruct (pi_timer0 t Ht) as (H1 & H2 & H3 & H4).
    repeat split; auto. lia. }
  unfold sendRequest. simpl.
  destruct (process st) as [proc|]; [destruct (stdin proc)|]; simpl;
    try exact Hup.
  assert (Hfresh : ~ In (messageId st + 1)%Z (map fst (pendingRequests st))).
  { intros H. apply in_map_iff in H. destruct H as [[i p] [Hi Hin]].
    simpl in Hi. subst i.
    destruct (pending_promise_bound _ _ _ I Hin). lia. }
  rewrite (map_set_fresh Z.eqb Zeqb_eq _ _ _ Hfresh).
  assert (Hval : ~ In (promises st) (map snd (pendingRequests st))).
  { intros H. apply in_map_iff in H. destruct H as [[i p] [Hi Hin]].
    simpl in Hi. subst p.
    destruct (pending_promise_bound _ _ _ I Hin). lia. }
  assert (Htim : ~ In (promises st) (map t_promise (timers st))).
  { intros H. apply in_map_iff in H. destruct H as [t [Hi Hin]].
    destruct (pi_timer _ I t Hin) as (H1 & _). lia. }
  destruct I. constructor; simpl.
  - rewrite map_app. simpl. now apply NoDup_snoc.
  - rewrite map_app. simpl. now apply NoDup_snoc.
  - rewrite map_app. simpl. now apply NoDup_snoc.
  - assumption.
  - intros i p Hin. apply in_app_iff in Hin. destruct Hin as [Hin|[Hin|[]]].
    + destruct (pi_pending0 i p Hin) as [Hs [t [Ht Hp]]].
      split; [assumption|]. exists t. split; [|assumption].
      apply in_app_iff. now left.
    + inversion Hin; subst. split.
      * intros H. apply pi_bound0 in H. lia.
      * eexists. split; [apply in_app_iff; right; left; reflexivity|].
        simpl. auto.
  - intros t Ht. apply in_app_iff in Ht. destruct Ht as [Ht|[Ht|[]]].
    + destruct (pi_timer0 t Ht) as (H1 & H2 & H3 & H4).
      repeat split; auto; try lia.
      intros p Hin. apply in_app_iff in Hin. destruct Hin as [Hin|[Hin|[]]].
      * auto.
      * inversion Hin. lia.
    + subst t. simpl. repeat split; auto; try lia.
      intros p Hin. apply in_app_iff in Hin. destruct Hin as [Hin|[Hin|[]]].
      * exfalso. apply Hfresh. apply in_map_iff. exists (messageId st + 1, p)%Z.
        auto.
      * now inversion Hin.
  - intros p Hp. apply pi_bound0 in Hp. lia.
Qed.

(** Completing the promise of a pending entry, with the timers left
    as they are or with that promise's timer gone. *)
Lemma complete_pending st n p s ts :
  pending_inv st ->
  In (n, p) (pendingRequests st) ->
  NoDup (map t_promise ts) ->
  incl ts (timers st) ->
  (forall t, In t (timers st) -> t_promise t <> p -> In t ts) ->
  pending_inv
    (settle p s
       (set_pendingRequests (map_delete Z.eqb n (pendingRequests st))
          (set_timers ts st))).
Proof.
  intros I Hin Hnd Hincl Hkeep.
  destruct (pi_pending _ I n p Hin) as [Hns [tp [Htp [Hp1 Hp2]]]].
  pose proof (pending_promise_bound _ _ _ I Hin) as [Hlt _].
  pose proof (pi_keys _ I) as Hk.
  constructor; simpl.
  - now apply NoDup_map_delete.
  - apply NoDup_map_delete. exact (pi_vals _ I).
  - assumption.
  - rewrite map_app. simpl. apply NoDup_snoc; [exact (pi_settled _ I)|assumption].
  - intros i q Hq. apply (In_map_delete Z.eqb Zeqb_eq) in Hq; [|assumption].
    destruct Hq as [Hq Hne].
    assert (q <> p).
    { intros ->. apply Hne.
      pose proof (NoDup_map_inj snd _ (i, p) (n, p) (pi_vals _ I) Hq Hin eq_refl) as E.
      now inversion E. }
    destruct (pi_pending _ I i q Hq) as [Hs [t [Ht [Ht1 Ht2]]]].
    split.
    + rewrite map_app, in_app_iff. simpl. intuition.
    + exists t. split; [|auto]. apply Hkeep; [assumption|congruence].
  - intros t Ht. apply Hincl in Ht.
    destruct (pi_timer _ I t Ht) as (H1 & H2 & H3 & H4).
    repeat split; auto.
    intros q Hq. apply H4. now apply (map_delete_incl Z.eqb n) in Hq.
  - intros q Hq. rewrite map_app, in_app_iff in Hq. simpl in Hq.
    destruct Hq as [Hq|[<-|[]]]; [exact (pi_bound _ I q Hq)|assumption].
Qed.

(** Removing an entry and leaving its promise as it is: what is left
    of [handleResponse] when [new Error] throws. *)
Lemma drop_pending st n :
  pending_inv st ->
  pending_inv
    (set_pendingRequests (map_delete Z.eqb n (pendingRequests st)) st).
Proof.
  intros I. pose proof (pi_keys _ I) as Hk.
  constructor; cbn [pendingRequests set_pendingRequests timers settled
                    promises messageId].
  - now apply NoDup_map_delete.
  - apply NoDup_map_delete. exact (pi_vals _ I).
  - exact (pi_timers _ I).
  - exact (pi_settled _ I).
  - intros i q Hq. apply (map_delete_incl Z.eqb n) in Hq.
    exact (pi_pending _ I i q Hq).
  - intros t Ht. destruct (pi_timer _ I t Ht) as (H1 & H2 & H3 & H4).
    repeat split; auto.
    intros q Hq. apply H4. now apply (map_delete_incl Z.eqb n) in Hq.
  - exact (pi_bound _ I).
Qed.

Lemma handleResponse_pending message st :
  pending_inv st -> pending_inv (snd (handleResponse B message st)).
Proof.
  intros I. unfold handleResponse.
  destruct (read B (Some message) (lit "id")) as [id|e]; [|exact I].
  destruct (pending_get id st) as [p|] eqn:Hp; [|exact I].
  unfold pending_get in Hp.
  destruct id as [[| | n | | |]|]; try discriminate.
  apply (map_get_In Z.eqb Zeqb_eq) in Hp.
  assert (Hc : forall s, pending_inv
             (settle p s (pending_delete (Some (JNum n)) st))).
  { intros s. unfold pending_delete.
    pose proof (complete_pending st n p s (timers st) I Hp (pi_timers _ I)
                  (incl_refl _) (fun t H _ => H)) as H.
    eapply pending_inv_same; [| | | | |exact H]; reflexivity. }
  assert (Hd : pending_inv (pending_delete (Some (JNum n)) st))
    by (apply drop_pending; exact I).
  repeat break_match; cbn [snd]; first [apply Hc|exact Hd].
Qed.

Lemma fold_process_line_pending lines : forall st,
  pending_inv st -> pending_inv (fold_left (process_line B) lines st).
Proof.
  induction lines as [|l ls IH]; intros st I; simpl; [assumption|].
  apply IH. unfold process_line.
  destruct (truthy_str (trim l)); [|assumption].
  destruct (JSON_parse B l) as [m|];
    [|eapply pending_inv_same; [| | | | |exact I]; reflexivity].
  pose proof (handleResponse_pending m st I) as H.
  destruct (handleResponse B m st) as [[u|e] st1]; cbn [snd] in H;
    [exact H|].
  eapply pending_inv_same; [| | | | |exact H]; reflexivity.
Qed.

Lemma on_timer_pending p st :
  pending_inv st -> pending_inv (on_timer p st).
Proof.
  intros I. unfold on_timer.
  destruct (find (fun t => Nat.eqb (t_promise t) p) (timers st)) as [t|] eqn:F;
    [|assumption].
  apply find_some in F. destruct F as [Ht Hp]. apply Nat.eqb_eq in Hp.
  set (ts := filter (fun t0 => negb (Nat.eqb (t_promise t0) p)) (timers st)).
  assert (Hnd : NoDup (map t_promise ts))
    by (apply NoDup_map_filter; exact (pi_timers _ I)).
  assert (Hincl : incl ts (timers st))
    by (intros x Hx; apply filter_In in Hx; tauto).
  assert (Hkeep : forall t0, In t0 (timers st) -> t_promise t0 <> p -> In t0 ts).
  { intros t0 H0 Hne. apply filter_In. split; [assumption|].
    apply negb_true_iff. now apply Nat.eqb_neq. }
  unfold timeout_callback, map_has. cbn [pendingRequests set_timers].
  destruct (map_get Z.eqb (t_id t) (pendingRequests st)) as [q|] eqn:G.
  - apply (map_get_In Z.eqb Zeqb_eq) in G.
    destruct (pi_timer _ I t Ht) as (_ & _ & _ & H4).
    pose proof (H4 q G) as Eq. subst q. subst p.
    apply complete_pending; auto.
  - apply (map_get_None Z.eqb Zeqb_eq) in G.
    destruct I. constructor; cbn [pendingRequests set_timers timers settled
                                  promises messageId]; try assumption.
    + intros i q Hq. destruct (pi_pending0 i q Hq) as [Hs [t0 [Ht0 [E1 E2]]]].
      split; [assumption|]. exists t0. split; [|auto].
      apply Hkeep; [assumption|]. intros E. apply G.
      assert (t0 = t)
        by (apply (NoDup_map_inj t_promise (timers st)); auto; congruence).
      subst t0. apply in_map_iff. exists (i, q). simpl. auto.
    + intros t0 Ht0. apply pi_timer0. now apply Hincl.
Qed.

Lemma step_pending st ev :
  pending_inv st -> pending_inv (step B config st ev).
Proof.
  intros I.
  destruct ev as [|toolName targs|data|data|e|p|code|]; simpl.
  - unfold listTools, nextMessageId. now apply sendRequest_pending.
  - unfold callTool, callToolImpl, nextMessageId.
    assert (I' : pending_inv (logger (LToolCall toolName targs) st))
      by (eapply pending_inv_same; [| | | | |exact I]; reflexivity).
    pose proof (sendRequest_pending (lit "tools/call")
                  (JObj [(lit "name", JStr toolName); (lit "arguments", targs)])
                  _ I') as Hs.
    simpl in Hs. revert Hs. unfold sendRequest. simpl.
    destruct (process st) as [proc|]; [destruct (stdin proc)|]; simpl;
      intros Hs; try exact Hs;
      (eapply pending_inv_same; [| | | | |exact Hs]; reflexivity).
  - unfold on_data. destruct (frame (buffer st) data) as [lines buf].
    apply fold_process_line_pending.
    eapply pending_inv_same; [| | | | |exact I]; reflexivity.
  - eapply pending_inv_same; [| | | | |exact I]; reflexivity.
  - eapply pending_inv_same; [| | | | |exact I]; reflexivity.
  - now apply on_timer_pending.
  - eapply pending_inv_same; [| | | | |exact I]; reflexivity.
  - unfold close. destruct (process st); [|assumption].
    eapply pending_inv_same; [| | | | |exact I]; reflexivity.
Qed.

Lemma run_pending evs : forall st,
  pending_inv st -> pending_inv (run B config evs st).
Proof.
  induction evs as [|ev evs IH]; intros st I; simpl; [assumption|].
  apply IH. now apply step_pending.
Qed.

Lemma connect_pending spawned :
  pending_inv (snd (connect config spawned fresh)).
Proof.
  assert (I : pending_inv fresh).
  { constructor; simpl; try constructor; try tauto; intros; lia. }
  unfold connect.
  destruct spawned as [p|e]; simpl;
    [destruct (negb (stdout p) || negb (stdin p)); simpl|];
    (eapply pending_inv_same; [| | | | |exact I]; reflexivity).
Qed.

Lemma session_pending spawned evs :
  pending_inv (session B config spawned evs).
Proof. apply run_pending, connect_pending. Qed.

(** ** Requests and their promises *)

Lemma written_inv_same st st' :
  written st' = written st -> promises st' = promises st ->
  incl (pendingRequests st') (pendingRequests st) ->
  written_inv st -> written_inv st'.
Proof.
  intros E1 E2 Hi [Hl Hp]. split; rewrite ?E1, ?E2; [assumption|].
  intros i p H. apply Hp. now apply Hi.
Qed.

Lemma sendRequest_written method params st :
  pending_inv st -> written_inv st ->
  written_inv (snd (sendRequest config
                      {| rq_id := messageId st + 1; rq_method := method;
                         rq_params := params |}
                      (set_messageId (messageId st + 1) st))).
Proof.
  intros I [Hl Hp].
  unfold sendRequest. cbn [process set_messageId].
  destruct (process st) as [proc|]; [destruct (stdin proc)|];
    cbn [negb snd]; try (split; assumption).
  assert (Hfresh : ~ In (messageId st + 1)%Z (map fst (pendingRequests st))).
  { intros H. apply in_map_iff in H. destruct H as [[i p] [Hi Hin]].
    simpl in Hi. subst i.
    destruct (pending_promise_bound _ _ _ I Hin). lia. }
  unfold new_promise, written_inv.
  cbn [snd fst written promises pendingRequests set_timers write
       set_pendingRequests set_messageId].
  rewrite (map_set_fresh Z.eqb Zeqb_eq _ _ _ Hfresh).
  split.
  - rewrite length_app. simpl. lia.
  - intros i p Hin. apply in_app_iff in Hin. destruct Hin as [Hin|[Hin|[]]].
    + destruct (Hp i p Hin) as [r [Hr Hi]]. exists r. split; [|assumption].
      rewrite nth_error_app1; [assumption|].
      apply nth_error_Some. congruence.
    + injection Hin as <- <-.
      exists {| rq_id := messageId st + 1; rq_method := method;
                rq_params := params |}.
      split; [|reflexivity].
      rewrite nth_error_app2 by lia. rewrite Hl, Nat.sub_diag. reflexivity.
Qed.

Lemma handleResponse_incl message st :
  incl (pendingRequests (snd (handleResponse B message st)))
       (pendingRequests st).
Proof.
  unfold handleResponse, pending_delete.
  repeat break_match;
    cbn [snd pendingRequests settle set_pendingRequests];
    try apply incl_refl; apply map_delete_incl.
Qed.

Lemma fold_process_line_written lines : forall st,
  written_inv st -> written_inv (fold_left (process_line B) lines st).
Proof.
  induction lines as [|l ls IH]; intros st I; simpl; [assumption|].
  apply IH. unfold process_line.
  destruct (truthy_str (trim l)); [|assumption].
  destruct (JSON_parse B l) as [m|];
    [|eapply written_inv_same; [| | |exact I]; try reflexivity; apply incl_refl].
  destruct (handleResponse_fields m st) as (_ & _ & _ & Hw & _ & Hn).
  pose proof (handleResponse_incl m st) as Hi.
  destruct (handleResponse B m st) as [[u|e] st1]; cbn [snd] in Hw, Hn, Hi;
    (eapply written_inv_same; [exact Hw|exact Hn|exact Hi|exact I]).
Qed.

Lemma step_written st ev :
  pending_inv st -> written_inv st -> written_inv (step B config st ev).
Proof.
  intros I W.
  destruct ev as [|toolName targs|data|data|e|p|code|]; simpl.
  - unfold listTools, nextMessageId. now apply sendRequest_written.
  - unfold callTool, callToolImpl, nextMessageId.
    assert (I' : pending_inv (logger (LToolCall toolName targs) st))
      by (eapply pending_inv_same; [| | | | |exact I]; reflexivity).
    assert (W' : written_inv (logger (LToolCall toolName targs) st))
      by (eapply written_inv_same; [| | |exact W]; try reflexivity;
          apply incl_refl).
    pose proof (sendRequest_written (lit "tools/call")
                  (JObj [(lit "name", JStr toolName); (lit "arguments", targs)])
                  _ I' W') as Hs.
    cbn [messageId logger set_log] in Hs. revert Hs.
    unfold sendRequest. cbn [process set_messageId logger set_log].
    destruct (process st) as [proc|]; [destruct (stdin proc)|]; cbn [negb];
      intros Hs; try exact Hs;
      (eapply written_inv_same; [| | |exact Hs]; try reflexivity;
       apply incl_refl).
  - unfold on_data. destruct (frame (buffer st) data) as [lines buf].
    apply fold_process_line_written.
    eapply written_inv_same; [| | |exact W]; try reflexivity; apply incl_refl.
  - eapply written_inv_same; [| | |exact W]; try reflexivity; apply incl_refl.
  - eapply written_inv_same; [| | |exact W]; try reflexivity; apply incl_refl.
  - unfold on_timer, timeout_callback.
    repeat break_match;
      (eapply written_inv_same; [| | |exact W]; try reflexivity;
       cbn [pendingRequests settle set_pendingRequests set_timers];
       try apply incl_refl; apply map_delete_incl).
  - eapply written_inv_same; [| | |exact W]; try reflexivity; apply incl_refl.
  - unfold close. destruct (process st); [|assumption].
    eapply written_inv_same; [| | |exact W]; try reflexivity; apply incl_refl.
Qed.

Lemma run_written evs : forall st,
  pending_inv st -> written_inv st -> written_inv (run B config evs st).
Proof.
  induction evs as [|ev evs IH]; intros st I W; simpl; [assumption|].
  apply IH; [now apply step_pending|now apply step_written].
Qed.

Lemma session_written spawned evs :
  written_inv (session B config spawned evs).
Proof.
  apply run_written; [apply connect_pending|].
  unfold connect.
  destruct spawned as [p|e]; simpl;
    [destruct (negb (stdout p) || negb (stdin p)); simpl|];
    (split; [reflexivity|intros i q []]).
Qed.

(** ** What a matching response, a deadline and a stray response do *)

Lemma find_by_promise (ts : list Timer) t :
  NoDup (map t_promise ts) -> In t ts ->
  find (fun t' => Nat.eqb (t_promise t') (t_promise t)) ts = Some t.
Proof.
  induction ts as [|x ts IH]; simpl; [tauto|].
  intros ND Hin. inversion ND as [|? ? Hn ND']; subst.
  destruct Hin as [->|Hin]; [now rewrite Nat.eqb_refl|].
  destruct (Nat.eqb (t_promise x) (t_promise t)) eqn:E; [|auto].
  apply Nat.eqb_eq in E. exfalso. apply Hn. rewrite E. now apply in_map.
Qed.

Lemma handleResponse_matching st fields n p :
  lookup_field (lit "id") fields = Some (JNum n) ->
  map_get Z.eqb n (pendingRequests st) = Some p ->
  handleResponse B (JObj fields) st =
  let st' :=
    set_pendingRequests (map_delete Z.eqb n (pendingRequests st)) st in
  match response_outcome B fields with
  | Ok s => (Ok tt, settle p s st')
  | Throw e => (Throw e, st')
  end.
Proof.
  intros Hid Hp. unfold handleResponse, response_outcome, read.
  cbn [get_prop]. rewrite Hid. cbn [pending_get pending_delete]. rewrite Hp.
  cbv zeta.
  destruct (truthy (lookup_field (lit "error") fields)) eqn:T; [|reflexivity].
  destruct (lookup_field (lit "error") fields) as [[| | | | |]|];
    cbn [get_prop truthy] in T |- *; try discriminate;
    match goal with
    | |- context [new_Error B ?m] => destruct (new_Error B m); reflexivity
    end.
Qed.

Lemma handleResponse_unmatched st message id :
  get_prop (Some message) (lit "id") = Some id ->
  pending_get id st = None ->
  handleResponse B message st = (Ok tt, st).
Proof.
  intros H1 H2. unfold handleResponse, read. now rewrite H1, H2.
Qed.

Lemma on_timer_pending_entry st t p :
  pending_inv st -> In t (timers st) ->
  map_get Z.eqb (t_id t) (pendingRequests st) = Some p ->
  on_timer (t_promise t) st =
  settle (t_promise t)
    (Rejected {| message := lit "MCP request timeout: " ++ t_method t |})
    (set_pendingRequests (map_delete Z.eqb (t_id t) (pendingRequests st))
       (set_timers
          (filter (fun t' => negb (Nat.eqb (t_promise t') (t_promise t)))
                  (timers st)) st)).
Proof.
  intros I Ht Hp. unfold on_timer.
  rewrite (find_by_promise _ _ (pi_timers _ I) Ht).
  unfold timeout_callback, map_has. cbn [pendingRequests set_timers].
  now rewrite Hp.
Qed.

Lemma on_timer_no_entry st t :
  pending_inv st -> In t (timers st) ->
  map_get Z.eqb (t_id t) (pendingRequests st) = None ->
  on_timer (t_promise t) st =
  set_timers
    (filter (fun t' => negb (Nat.eqb (t_promise t') (t_promise t)))
            (timers st)) st.
Proof.
  intros I Ht Hp. unfold on_timer.
  rewrite (find_by_promise _ _ (pi_timers _ I) Ht).
  unfold timeout_callback, map_has. cbn [pendingRequests set_timers].
  now rewrite Hp.
Qed.

(** A written request is completed, or pending, or neither: its
    entry is gone and its promise was never completed. *)
Lemma request_status st p r :
  ids_inv st -> pending_inv st -> written_inv st ->
  nth_error (written st) p = Some r ->
  (In p (map fst (settled st)) /\
   map_get Z.eqb (rq_id r) (pendingRequests st) = None)
  \/
  (~ In p (map fst (settled st)) /\
   map_get Z.eqb (rq_id r) (pendingRequests st) = Some p /\
   exists t, In t (timers st) /\ t_promise t = p /\ t_id t = rq_id r /\
             t_delay t = TIMEOUT_MS)
  \/
  (~ In p (map fst (settled st)) /\
   map_get Z.eqb (rq_id r) (pendingRequests st) = None).
Proof.
  intros [Hs _] I [Hl Hw] Hr.
  destruct (map_get Z.eqb (rq_id r) (pendingRequests st)) as [q|] eqn:G.
  - right. left. apply (map_get_In Z.eqb Zeqb_eq) in G.
    destruct (Hw _ _ G) as [r' [Hr' E]].
    assert (q = p) by (eapply (sorted_nth_inj rq_id); eauto).
    subst q. destruct (pi_pending _ I _ _ G) as [Hn [t [Ht [E1 E2]]]].
    split; [assumption|]. split; [reflexivity|].
    exists t. destruct (pi_timer _ I t Ht) as (_ & Hd & _). auto.
  - destruct (in_dec Nat.eq_dec p (map fst (settled st))) as [Hin|Hn].
    + left. split; [assumption|reflexivity].
    + right. right. split; [assumption|reflexivity].
Qed.

End StdioFacts.

(** C7. On each subprocess connection the ids of the requests written to
    the child — by [listTools] and by [callTool] alike — are strictly
    increasing in the order of submission, and all of them, hence the
    first, are greater than zero. *)
Theorem C7_request_ids_strictly_increasing :
  forall (B : Builtins) (config : Stdio.StdioMCPConfig)
         (spawned : result Stdio.ChildProcess) (evs : list Stdio.Event),
    let st := Stdio.session B config spawned evs in
    StronglySorted Z.lt (map Stdio.rq_id (Stdio.written st)) /\
    Forall (fun r => (0 < Stdio.rq_id r)%Z) (Stdio.written st).
Proof.
  intros B config spawned evs st.
  destruct (run_ids B config evs _ (connect_ids config spawned)) as [[Hs Hb] _].
  split; [exact Hs|].
  eapply Forall_impl; [|exact Hb]. simpl. intros; lia.
Qed.

(* ===================================================================== *)
(** * Line framing                                                        *)
(* ===================================================================== *)

Section Framing.
Import Stdio.

(** The complete lines of a string and its unterminated rest. *)
Lemma split_nl_nonempty s : split_nl s <> [].
Proof.
  destruct s as [|c s]; simpl; [discriminate|].
  destruct (N.eqb c NL); [discriminate|].
  destruct (split_nl s); discriminate.
Qed.

Lemma array_pop_cons {A} (x : A) l :
  l <> [] ->
  array_pop (x :: l) = (x :: fst (array_pop l), snd (array_pop l)).
Proof.
  destruct l as [|y l]; [congruence|]. intros _.
  change (array_pop (x :: y :: l))
    with (let (r, o) := array_pop (y :: l) in (x :: r, o)).
  now destruct (array_pop (y :: l)).
Qed.

Lemma frame_text buf data :
  frame buf data =
  (fst (array_pop (split_nl (buf ++ Buffer_toString data))),
   or_empty (snd (array_pop (split_nl (buf ++ Buffer_toString data))))).
Proof.
  unfold frame. now destruct (array_pop (split_nl (buf ++ Buffer_toString data))).
Qed.

(** [lines_of s] are the lines the handler takes out of the text [s],
    [rest_of s] is what it keeps. *)
Lemma pop_split_nil :
  array_pop (split_nl []) = ([], Some []).
Proof. reflexivity. Qed.

Lemma pop_split_newline s :
  array_pop (split_nl (NL :: s)) =
  ([] :: fst (array_pop (split_nl s)), snd (array_pop (split_nl s))).
Proof.
  simpl split_nl. apply array_pop_cons. apply split_nl_nonempty.
Qed.

Lemma pop_split_char c s :
  N.eqb c NL = false ->
  array_pop (split_nl (c :: s)) =
  match fst (array_pop (split_nl s)) with
  | [] => ([], option_map (cons c) (snd (array_pop (split_nl s))))
  | l :: r => ((c :: l) :: r, snd (array_pop (split_nl s)))
  end.
Proof.
  intros E. simpl split_nl. rewrite E.
  destruct (split_nl s) as [|l ls] eqn:S; [now apply split_nl_nonempty in S|].
  destruct ls as [|l' ls]; [reflexivity|].
  rewrite (array_pop_cons (c :: l)) by discriminate.
  rewrite (array_pop_cons l) by discriminate. reflexivity.
Qed.

Lemma pop_split_some s : exists t, snd (array_pop (split_nl s)) = Some t.
Proof.
  induction s as [|c s [t IH]].
  - now exists [].
  - destruct (N.eqb c NL) eqn:E.
    + apply N.eqb_eq in E. subst c. rewrite pop_split_newline. now exists t.
    + rewrite (pop_split_char _ _ E).
      destruct (fst (array_pop (split_nl s))); simpl; rewrite IH; simpl; eauto.
Qed.

(** Feeding [a ++ b] at once, or [a] and then [b] behind what was
    retained of [a], takes out the same lines and retains the same
    fragment. *)
Lemma pop_split_app a : forall b,
  let la := array_pop (split_nl a) in
  let lb := array_pop (split_nl (or_empty (snd la) ++ b)) in
  array_pop (split_nl (a ++ b)) = (fst la ++ fst lb, snd lb).
Proof.
  induction a as [|c a IH]; intros b; cbn zeta.
  - rewrite pop_split_nil. simpl. now destruct (array_pop (split_nl b)).
  - specialize (IH b). cbn zeta in IH.
    destruct (pop_split_some a) as [t Ht]. rewrite Ht in IH. simpl in IH.
    rewrite <- app_comm_cons.
    destruct (N.eqb c NL) eqn:E.
    + apply N.eqb_eq in E. subst c. rewrite !pop_split_newline.
      rewrite IH, Ht. reflexivity.
    + rewrite !(pop_split_char _ _ E). rewrite IH, Ht.
      destruct (fst (array_pop (split_nl a))) as [|l r];
        cbn [fst snd or_empty option_map app].
      * rewrite (pop_split_char _ _ E). now destruct (fst (array_pop _)).
      * reflexivity.
Qed.

Lemma frame_app buf d1 text :
  let f1 := array_pop (split_nl (buf ++ d1)) in
  let f2 := array_pop (split_nl (or_empty (snd f1) ++ text)) in
  array_pop (split_nl (buf ++ d1 ++ text)) = (fst f1 ++ fst f2, snd f2).
Proof. cbn zeta. rewrite app_assoc. apply pop_split_app. Qed.

(** ** Decoding chunk by chunk *)

Lemma utf8_lead_state b :
  snd (utf8_lead b) = utf8_init \/ u_needed (snd (utf8_lead b)) <> 0%N.
Proof.
  unfold utf8_lead. repeat break_match; simpl; auto; right; discriminate.
Qed.

Lemma utf8_step_state st b :
  snd (utf8_step st b) = utf8_init \/ u_needed (snd (utf8_step st b)) <> 0%N.
Proof.
  unfold utf8_step.
  destruct (N.eqb (u_needed st) 0) eqn:E; [apply utf8_lead_state|].
  destruct (N.ltb b (u_lower st) || N.ltb (u_upper st) b).
  - pose proof (utf8_lead_state b). destruct (utf8_lead b). assumption.
  - destruct (N.eqb (u_seen st + 1) (u_needed st)); simpl; [now left|].
    right. now apply N.eqb_neq.
Qed.

Lemma utf8_end_state bs : forall st,
  st = utf8_init \/ u_needed st <> 0%N ->
  utf8_end st bs = utf8_init \/ u_needed (utf8_end st bs) <> 0%N.
Proof.
  induction bs as [|b bs IH]; intros st H; simpl; [assumption|].
  apply IH, utf8_step_state.
Qed.

Lemma utf8_decode_app a : forall st b,
  u_needed (utf8_end st a) = 0%N ->
  utf8_decode st (a ++ b) = utf8_decode st a ++ utf8_decode (utf8_end st a) b.
Proof.
  induction a as [|x a IH]; intros st b H; simpl in *.
  - unfold utf8_flush. now rewrite H.
  - destruct (utf8_step st x) as [out st'] eqn:S. simpl in H.
    rewrite (IH st' b H). now rewrite app_assoc.
Qed.

Lemma on_boundary_end a :
  on_boundary a = true -> utf8_end utf8_init (map Byte.to_N a) = utf8_init.
Proof.
  unfold on_boundary. intros H. apply N.eqb_eq in H.
  destruct (utf8_end_state (map Byte.to_N a) utf8_init (or_introl eq_refl));
    [assumption|contradiction].
Qed.

Lemma Buffer_toString_app a b :
  on_boundary a = true ->
  Buffer_toString (a ++ b) = Buffer_toString a ++ Buffer_toString b.
Proof.
  intros H. unfold Buffer_toString. rewrite map_app.
  pose proof (on_boundary_end a H) as E.
  rewrite utf8_decode_app by (now rewrite E).
  rewrite E. apply flat_map_app.
Qed.

Lemma utf8_end_app a : forall st b,
  utf8_end st (a ++ b) = utf8_end (utf8_end st a) b.
Proof. induction a as [|x a IH]; intros st b; simpl; auto. Qed.

Lemma on_boundary_app a b :
  on_boundary a = true -> on_boundary b = true -> on_boundary (a ++ b) = true.
Proof.
  intros Ha Hb. unfold on_boundary. rewrite map_app, utf8_end_app.
  rewrite (on_boundary_end a Ha). exact Hb.
Qed.

Lemma on_boundary_concat chunks :
  Forall (fun c => on_boundary c = true) chunks ->
  on_boundary (List.concat chunks) = true.
Proof.
  induction 1; simpl; [reflexivity|]. now apply on_boundary_app.
Qed.

(** Output that is pure ASCII ends on a character boundary wherever
    it is cut. *)
Lemma ascii_on_boundary (data : Buffer) :
  Forall (fun b => (Byte.to_N b <= 127)%N) data -> on_boundary data = true.
Proof.
  unfold on_boundary. induction 1 as [|b data Hb _ IH]; [reflexivity|].
  simpl. unfold utf8_step, utf8_lead. simpl.
  apply N.leb_le in Hb. rewrite Hb. exact IH.
Qed.

(** ** The handler over several chunks *)

Lemma framed_cons d ds : forall acc buf,
  fold_left (fun acc data =>
               let (lines, buf') := frame (snd acc) data in
               (fst acc ++ lines, buf'))
            (d :: ds) (acc, buf) =
  (let r := framed (d :: ds) buf in (acc ++ fst r, snd r)).
Proof.
  unfold framed. generalize (d :: ds) as l. clear d ds.
  induction l as [|d ds IH]; intros acc buf; simpl.
  - now rewrite app_nil_r.
  - destruct (frame buf d) as [l1 b1]. simpl.
    rewrite (IH (acc ++ l1) b1), (IH l1 b1). simpl. now rewrite app_assoc.
Qed.

Lemma framed_step d ds buf :
  framed (d :: ds) buf =
  (fst (frame buf d) ++ fst (framed ds (snd (frame buf d))),
   snd (framed ds (snd (frame buf d)))).
Proof.
  unfold framed at 1. simpl. destruct (frame buf d) as [l1 b1]. simpl.
  destruct ds as [|d' ds].
  - simpl. now rewrite app_nil_r.
  - now rewrite framed_cons.
Qed.

(** When no chunk ends inside a character, the handler takes the same
    lines out of the chunks as out of their concatenation, and retains
    the same fragment. *)
Lemma framed_concat ds : forall d buf,
  Forall (fun c => on_boundary c = true) (d :: ds) ->
  framed (d :: ds) buf = frame buf (d ++ List.concat ds).
Proof.
  induction ds as [|d' ds IH]; intros d buf H.
  - simpl. rewrite app_nil_r. unfold framed. simpl.
    now destruct (frame buf d).
  - inversion H as [|? ? Hd H']; subst.
    rewrite framed_step. rewrite (IH d' _ H').
    rewrite !frame_text. cbn [fst snd].
    simpl List.concat. rewrite (Buffer_toString_app d _ Hd).
    rewrite (frame_app buf (Buffer_toString d)). reflexivity.
Qed.

End Framing.

(* ===================================================================== *)
(** * The read loop                                                       *)
(* ===================================================================== *)

Section ReadLoop.
Import Stdio.
Variable B : Builtins.
Variable config : StdioMCPConfig.

Lemma handleResponse_set_buffer b m st :
  handleResponse B m (set_buffer b st) =
  (fst (handleResponse B m st), set_buffer b (snd (handleResponse B m st))).
Proof.
  unfold handleResponse, pending_get, pending_delete.
  cbn [set_buffer pendingRequests].
  repeat break_match; try discriminate; try reflexivity.
Qed.

Lemma process_line_set_buffer b st line :
  process_line B (set_buffer b st) line = set_buffer b (process_line B st line).
Proof.
  unfold process_line.
  destruct (truthy_str (trim line)); [|reflexivity].
  destruct (JSON_parse B line) as [m|]; [|reflexivity].
  rewrite handleResponse_set_buffer.
  now destruct (handleResponse B m st) as [[u|e] st1].
Qed.

Lemma fold_process_line_set_buffer b lines : forall st,
  fold_left (process_line B) lines (set_buffer b st) =
  set_buffer b (fold_left (process_line B) lines st).
Proof.
  induction lines as [|l ls IH]; intros st; simpl; [reflexivity|].
  now rewrite process_line_set_buffer, IH.
Qed.

Lemma fold_process_line_buffer lines : forall st,
  buffer (fold_left (process_line B) lines st) = buffer st.
Proof.
  intros st. now destruct (fold_process_line_fields B lines st) as (_ & _ & H & _).
Qed.

(** A run of stdout chunks is the processing, in order, of the lines
    framed out of them; what is retained is the framed rest. *)
Lemma run_data chunks : forall st,
  run B config (map EData chunks) st =
  fold_left (process_line B) (fst (framed chunks (buffer st)))
            (set_buffer (snd (framed chunks (buffer st))) st).
Proof.
  induction chunks as [|d ds IH]; intros st.
  - simpl. now destruct st.
  - simpl map. simpl run. fold (run B config (map EData ds) (on_data B d st)).
    rewrite IH. rewrite framed_step. cbn [fst snd].
    unfold on_data. destruct (frame (buffer st) d) as [l1 b1]. cbn [fst snd].
    rewrite fold_process_line_buffer. cbn [buffer set_buffer].
    rewrite fold_left_app. f_equal.
    rewrite !fold_process_line_set_buffer. reflexivity.
Qed.

(** Chunk boundaries that fall between characters do not matter: the
    connection ends in the same state whether the chunks arrive one by
    one or as one. *)
Lemma chunking_irrelevant_between_characters d ds st :
  Forall (fun c => on_boundary c = true) (d :: ds) ->
  run B config (map EData (d :: ds)) st =
  run B config [EData (d ++ List.concat ds)] st.
Proof.
  intros H. rewrite (run_data (d :: ds)), (run_data [d ++ List.concat ds]).
  rewrite (framed_concat ds d _ H).
  unfold framed. simpl.
  now destruct (frame (buffer st) (d ++ List.concat ds)).
Qed.

End ReadLoop.

(** C5, at an input where the code departs from the specification.  The child
    writes the line [{"id":1,"result":{"content":"é"}}]; when the bytes
    arrive in one chunk the handler processes that line, but when the
    chunk boundary falls between the two bytes of [é] each chunk is
    decoded on its own and the line processed holds two U+FFFD in its
    place: the line handled depends on the chunk boundary. *)
Theorem C5_line_cut_inside_a_character :
  Stdio.framed [Examples.accent_head ++ Examples.accent_tail] [] =
    ([Examples.accent_line [0xE9%N]], []) /\
  Stdio.framed [Examples.accent_head; Examples.accent_tail] [] =
    ([Examples.accent_line [0xFFFD%N; 0xFFFD%N]], []) /\
  forall (B : Builtins) (config : Stdio.StdioMCPConfig) (st : Stdio.Conn),
    Stdio.run B config
      [Stdio.EData (Examples.accent_head ++ Examples.accent_tail)]
      (Stdio.set_buffer [] st) =
    Stdio.process_line B (Stdio.set_buffer [] st) (Examples.accent_line [0xE9%N])
    /\
    Stdio.run B config
      [Stdio.EData Examples.accent_head; Stdio.EData Examples.accent_tail]
      (Stdio.set_buffer [] st) =
    Stdio.process_line B (Stdio.set_buffer [] st)
      (Examples.accent_line [0xFFFD%N; 0xFFFD%N]).
Proof.
  assert (E1 : Stdio.framed [Examples.accent_head ++ Examples.accent_tail] [] =
               ([Examples.accent_line [0xE9%N]], [])) by (vm_compute; reflexivity).
  assert (E2 : Stdio.framed [Examples.accent_head; Examples.accent_tail] [] =
               ([Examples.accent_line [0xFFFD%N; 0xFFFD%N]], []))
    by (vm_compute; reflexivity).
  split; [exact E1|]. split; [exact E2|].
  intros B config st. split.
  - change [Stdio.EData (Examples.accent_head ++ Examples.accent_tail)]
      with (map Stdio.EData [Examples.accent_head ++ Examples.accent_tail]).
    rewrite run_data. cbn [Stdio.buffer Stdio.set_buffer]. rewrite E1. reflexivity.
  - change [Stdio.EData Examples.accent_head; Stdio.EData Examples.accent_tail]
      with (map Stdio.EData [Examples.accent_head; Examples.accent_tail]).
    rewrite run_data. cbn [Stdio.buffer Stdio.set_buffer]. rewrite E2. reflexivity.
Qed.

Section Unparseable.
Import Stdio.
Variable B : Builtins.

Lemma handleResponse_erase m st st' :
  erase_log st = erase_log st' ->
  fst (handleResponse B m st) = fst (handleResponse B m st') /\
  erase_log (snd (handleResponse B m st)) =
  erase_log (snd (handleResponse B m st')).
Proof.
  destruct st, st'. unfold erase_log, set_log. simpl.
  intros H. injection H as -> -> -> -> -> -> -> ->.
  unfold handleResponse, pending_get, pending_delete, settle,
    set_pendingRequests.
  cbn [pendingRequests process messageId buffer written timers promises
       settled log].
  repeat break_inner; split; reflexivity.
Qed.

Lemma erase_logger e st : erase_log (logger e st) = erase_log st.
Proof. reflexivity. Qed.

Lemma process_line_erase st st' line :
  erase_log st = erase_log st' ->
  erase_log (process_line B st line) = erase_log (process_line B st' line).
Proof.
  intros H. unfold process_line.
  destruct (truthy_str (trim line)); [|assumption].
  destruct (JSON_parse B line) as [m|]; [|now rewrite !erase_logger].
  destruct (handleResponse_erase m st st' H) as [E1 E2].
  destruct (handleResponse B m st) as [r1 s1],
           (handleResponse B m st') as [r2 s2].
  cbn [fst snd] in E1, E2. subst r2.
  destruct r1 as [u|e]; [exact E2|now rewrite !erase_logger].
Qed.

Lemma fold_process_line_erase lines : forall st st',
  erase_log st = erase_log st' ->
  erase_log (fold_left (process_line B) lines st) =
  erase_log (fold_left (process_line B) lines st').
Proof.
  induction lines as [|l ls IH]; intros st st' H; simpl; [assumption|].
  apply IH. now apply process_line_erase.
Qed.

Lemma process_line_unparseable st line :
  JSON_parse B line = None ->
  process_line B st line =
  if truthy_str (trim line)
  then logger (LError (lit "Failed to parse MCP response: " ++ line)
                      (Some (JSON_parse_error B line))) st
  else st.
Proof. intros H. unfold process_line. now rewrite H. Qed.

Lemma on_data_buffer data st :
  buffer (on_data B data st) = snd (frame (buffer st) data).
Proof.
  unfold on_data. destruct (frame (buffer st) data) as [lines buf].
  now rewrite fold_process_line_buffer.
Qed.

End Unparseable.

(** C6, as stated, fails on an empty line: the stream ["\n"] holds one
    complete line, the empty one, which is not JSON, and the handler
    drops it without a log entry. *)
Lemma C6_counterexample_blank_line_not_logged :
  ~ (forall (B : Builtins) (st : Stdio.Conn) (data : Buffer) (line : jsstring),
        In line (fst (Stdio.frame (Stdio.buffer st) data)) ->
        JSON_parse B line = None ->
        exists cause,
          In (LError (lit "Failed to parse MCP response: " ++ line) cause)
             (Stdio.log (Stdio.on_data B data st))).
Proof.
  intros H.
  specialize (H Examples.table_builtins Stdio.fresh [x0a] []).
  vm_compute in H. destruct (H (or_introl eq_refl) eq_refl) as [cause []].
Qed.

(** C6, amended.  A line that fails to parse as JSON is discarded
    without leaving the loop: when it holds more than white space the
    only effect is one error entry in the log, with the error that
    [JSON.parse] threw as its cause, and when it is blank there is no
    effect at all.  The fragment retained after a chunk is the one the
    framing gives, whatever the lines were, and apart from the log the
    state reached is the one reached without that line. *)
Theorem C6_unparseable_line_is_discarded :
  forall (B : Builtins) (st : Stdio.Conn) (line : jsstring),
    JSON_parse B line = None ->
    Stdio.process_line B st line =
      (if truthy_str (trim line)
       then Stdio.logger
              (LError (lit "Failed to parse MCP response: " ++ line)
                      (Some (JSON_parse_error B line))) st
       else st) /\
    (forall data,
       Stdio.buffer (Stdio.on_data B data st) =
       snd (Stdio.frame (Stdio.buffer st) data)) /\
    (forall before after,
       Stdio.erase_log
         (fold_left (Stdio.process_line B) (before ++ line :: after) st) =
       Stdio.erase_log
         (fold_left (Stdio.process_line B) (before ++ after) st)).
Proof.
  intros B st line Hp. split; [now apply process_line_unparseable|].
  split; [intros data; apply on_data_buffer|].
  intros before after. rewrite !fold_left_app. simpl.
  apply fold_process_line_erase.
  rewrite (process_line_unparseable B _ line Hp).
  now destruct (truthy_str (trim line)).
Qed.

Lemma C6_witness :
  Stdio.process_line Examples.table_builtins Examples.waiting (lit "oops") =
  Stdio.logger
    (LError (lit "Failed to parse MCP response: " ++ lit "oops")
            (Some Examples.syntax_error))
    Examples.waiting.
Proof.
  exact (proj1 (C6_unparseable_line_is_discarded
                  Examples.table_builtins Examples.waiting (lit "oops") eq_refl)).
Defined.

(* ===================================================================== *)
(** * Connection life cycle                                               *)
(* ===================================================================== *)

Section Lifecycle.
Import Stdio.
Variable B : Builtins.
Variable config : StdioMCPConfig.

Lemma sendRequest_no_process r st :
  process st = None -> sendRequest config r st = (Threw (not_connected config), st).
Proof. intros H. unfold sendRequest. now rewrite H. Qed.

Lemma step_no_process st ev :
  process st = None -> process (step B config st ev) = None.
Proof.
  intros H.
  destruct ev as [|toolName targs|data|data|e|p|code|]; simpl.
  - unfold listTools, nextMessageId. now rewrite sendRequest_no_process.
  - unfold callTool, callToolImpl, nextMessageId.
    now rewrite sendRequest_no_process.
  - destruct (on_data_fields B data st) as (Hp & _). now rewrite Hp.
  - assumption.
  - assumption.
  - destruct (on_timer_fields p st) as (_ & _ & Hp). now rewrite Hp.
  - reflexivity.
  - unfold close. now rewrite H.
Qed.

Lemma run_no_process evs : forall st,
  process st = None -> process (run B config evs st) = None.
Proof.
  induction evs as [|ev evs IH]; intros st H; simpl; [assumption|].
  apply IH. now apply step_no_process.
Qed.

Lemma callTool_no_process toolName targs st :
  process st = None ->
  callTool config toolName targs st =
  (Returned (errorResult (not_connected config)),
   logger (LToolResult toolName (errorResult (not_connected config)))
          (set_messageId (messageId st + 1)
             (logger (LToolCall toolName targs) st))).
Proof.
  intros H. unfold callTool, callToolImpl, nextMessageId.
  now rewrite sendRequest_no_process.
Qed.

End Lifecycle.

(** C9. Once the ['exit'] handler of a subprocess connection has run,
    whatever the exit code and whatever the connection's methods and
    callbacks do afterwards (the client calls [connect()] once, before),
    [isConnected()] is false, and [callTool] returns at once — no
    request is written, no pending entry or timer is created, nothing
    is awaited — an error-status result whose content is the "not
    connected" error. *)
Theorem C9_after_exit_not_connected :
  forall (B : Builtins) (config : Stdio.StdioMCPConfig) (st0 : Stdio.Conn)
         (code : option N) (evs : list Stdio.Event)
         (toolName : jsstring) (args : Json),
    let st := Stdio.run B config evs (Stdio.on_exit config code st0) in
    let called := Stdio.callTool config toolName args st in
    Stdio.isConnected st = false /\
    fst called =
      Stdio.Returned
        {| status := error;
           content := Some (lit "Tool execution failed: "
                              ++ lit "MCP server " ++ Stdio.name config
                              ++ lit " not connected");
           metadata := None |} /\
    Stdio.written (snd called) = Stdio.written st /\
    Stdio.pendingRequests (snd called) = Stdio.pendingRequests st /\
    Stdio.timers (snd called) = Stdio.timers st.
Proof.
  intros B config st0 code evs toolName args st called.
  assert (H : Stdio.process st = None)
    by (apply run_no_process; reflexivity).
  split; [unfold Stdio.isConnected; now rewrite H|].
  unfold called. rewrite (callTool_no_process config toolName args st H).
  repeat split.
Qed.

(** C3, as stated, fails in both halves: [connect()] of the subprocess
    connection reports success although nothing at all was written to
    the child, and [connect()] of the HTTP connection does issue a
    request and fails when that request fails. *)
Lemma C3_counterexample_connect_round_trips :
  ~ (forall (config : Stdio.StdioMCPConfig)
            (spawned : result Stdio.ChildProcess) (st : Stdio.Conn),
        Stdio.connect config spawned Stdio.fresh = (Ok tt, st) ->
        exists r, In r (Stdio.written st) /\
                  Stdio.rq_method r = lit "tools/list")
  /\
  ~ (forall (config : Http.HttpMCPConfig) (answer : result Http.Response),
        fst (Http.connect config answer Http.fresh) = Ok tt /\
        Http.fetched (snd (Http.connect config answer Http.fresh)) = []).
Proof.
  split.
  - intros H.
    destruct (H Examples.files_config (Ok Examples.child) _ eq_refl)
      as [r [[] _]].
  - intros H.
    destruct (H Examples.web_config (Throw Examples.refused)) as [H1 _].
    vm_compute in H1. discriminate.
Qed.

(** C3, amended.  [connect()] of a subprocess connection succeeds
    exactly when [spawn] returned a process that has its stdout and
    stdin streams; it writes no request and arms no timer, and the
    connection then counts as connected.  [isConnected()] of an HTTP
    connection is true from construction on, but its [connect()] posts
    one [tools/list] request and succeeds exactly when that request
    does; a failure is rethrown as a connect error. *)
Theorem C3_connect_without_and_with_round_trip :
  forall (sconfig : Stdio.StdioMCPConfig) (spawned : result Stdio.ChildProcess)
         (hconfig : Http.HttpMCPConfig) (answer : result Http.Response)
         (hst : Http.Conn),
    let sc := Stdio.connect sconfig spawned Stdio.fresh in
    let hc := Http.connect hconfig answer hst in
    (fst sc = Ok tt <->
     exists p, spawned = Ok p /\ Stdio.stdout p = true /\ Stdio.stdin p = true) /\
    Stdio.written (snd sc) = [] /\
    Stdio.timers (snd sc) = [] /\
    Stdio.pendingRequests (snd sc) = [] /\
    (forall p, spawned = Ok p -> Stdio.killed p = false -> fst sc = Ok tt ->
               Stdio.isConnected (snd sc) = true) /\
    Http.isConnected hst = true /\
    Http.fetched (snd hc) =
      Http.fetched hst ++
      [{| Http.f_url := Http.url hconfig ++ lit "/tools/list";
          Http.f_method := lit "POST";
          Http.f_headers := Http.merged_headers hconfig;
          Http.f_body := JObj [] |}] /\
    (fst hc = Ok tt <->
     exists tools, fst (Http.listTools hconfig answer hst) = Ok tools) /\
    (forall e, fst (Http.listTools hconfig answer hst) = Throw e ->
       fst hc = Throw {| message := lit "Failed to connect to HTTP MCP server "
                                      ++ Http.name hconfig ++ lit ": "
                                      ++ message e |}).
Proof.
  intros sconfig spawned hconfig answer hst sc hc.
  split; [|split; [|split; [|split; [|split]]]].
  - unfold sc, Stdio.connect. destruct spawned as [p|e]; simpl.
    + destruct (Stdio.stdout p) eqn:E1, (Stdio.stdin p) eqn:E2; simpl; split;
        intros H; try discriminate;
        try (destruct H as (q & Hq & H1 & H2); inversion Hq; subst; congruence).
      exists p. auto.
    + split; [discriminate|]. intros [q [Hq _]]. discriminate.
  - unfold sc, Stdio.connect. destruct spawned as [p|e]; simpl; [|reflexivity].
    destruct (negb (Stdio.stdout p) || negb (Stdio.stdin p)); reflexivity.
  - unfold sc, Stdio.connect. destruct spawned as [p|e]; simpl; [|reflexivity].
    destruct (negb (Stdio.stdout p) || negb (Stdio.stdin p)); reflexivity.
  - unfold sc, Stdio.connect. destruct spawned as [p|e]; simpl; [|reflexivity].
    destruct (negb (Stdio.stdout p) || negb (Stdio.stdin p)); reflexivity.
  - intros p -> Hk. unfold sc, Stdio.connect, Stdio.isConnected. simpl.
    destruct (negb (Stdio.stdout p) || negb (Stdio.stdin p)); simpl;
      [discriminate|]. intros _. now rewrite Hk.
  - split; [reflexivity|].
    unfold hc, Http.connect, Http.listTools, Http.httpRequest.
    cbn [Http.fetched Http.fetch Http.logger].
    split; [|split].
    + repeat break_inner; reflexivity.
    + repeat break_inner; simpl; split; try discriminate; eauto;
        intros [tools Ht]; discriminate.
    + intros e. repeat break_inner; simpl; intros H; try discriminate;
        now inversion H.
Qed.

Lemma C3_witness :
  Stdio.isConnected
    (snd (Stdio.connect Examples.files_config (Ok Examples.child) Stdio.fresh))
  = true.
Proof.
  exact (proj1 (proj2 (proj2 (proj2 (proj2
           (C3_connect_without_and_with_round_trip
              Examples.files_config (Ok Examples.child)
              Examples.web_config (Ok Examples.tools_reply) Http.fresh)))))
           Examples.child eq_refl eq_refl eq_refl).
Defined.


(* ===================================================================== *)
(** * The multi-transport tool client                                     *)
(* ===================================================================== *)

(** C1, as stated, fails when no connection is registered under the
    name: [callTool] then throws instead of returning a result. *)
Lemma C1_counterexample_not_found_is_thrown :
  ~ (forall (E : Client.Env) (st : Client.State) (server tool : jsstring)
            (args : Json),
        exists r, fst (Client.callTool E server tool args st) = Ok r).
Proof.
  intros H.
  destruct (H Examples.search_world Client.fresh (lit "alpha") (lit "search")
              (JObj [])) as [r Hr].
  vm_compute in Hr. discriminate.
Qed.

(** C1, amended.  When a connection is registered under [server] — the
    subprocess registry is consulted first, then the HTTP one —
    [callTool] returns a result and never throws: what the connection's
    tool call returned, or, when that call threw, a result with status
    [error] whose content is "Tool execution failed: " followed by the
    error text.  When no connection is registered under [server],
    [callTool] throws the not-found error and does nothing else. *)
Theorem C1_callTool_result_or_not_found :
  forall (E : Client.Env) (st : Client.State) (server tool : jsstring)
         (args : Json),
    let res := Client.callTool E server tool args st in
    match map_get str_eqb server (Client.stdioServers st),
          map_get str_eqb server (Client.httpServers st) with
    | Some c, _ | None, Some c =>
        let impl := Client.callToolImpl_outcome E (Client.trace st) c tool args in
        Client.trace (snd res) =
          Client.trace st ++ [Client.ICallTool c tool args impl] /\
        fst res =
          Ok match impl with
             | Ok r => r
             | Throw e =>
                 {| status := error;
                    content := Some (lit "Tool execution failed: " ++ message e);
                    metadata := None |}
             end
    | None, None =>
        fst res = Throw {| message := lit "MCP server '" ++ server
                                        ++ lit "' not found" |} /\
        snd res = st
    end.
Proof.
  intros E st server tool args res. unfold res, Client.callTool.
  destruct (map_get str_eqb server (Client.stdioServers st)) as [c|].
  - simpl. split; [reflexivity|].
    now destruct (Client.callToolImpl_outcome E (Client.trace st) c tool args).
  - destruct (map_get str_eqb server (Client.httpServers st)) as [c|].
    + simpl. split; [reflexivity|].
      now destruct (Client.callToolImpl_outcome E (Client.trace st) c tool args).
    + split; reflexivity.
Qed.

Section Discovery.
Import Client.
Variable E : Env.

Lemma wrap_named server d : mcp_named (wrap server d).
Proof. reflexivity. Qed.

Lemma discover_one_named serverType st entry :
  Forall mcp_named (discoveredTools st) ->
  Forall mcp_named (discoveredTools (discover_one E serverType st entry)).
Proof.
  intros H. destruct entry as [server c]. unfold discover_one. simpl.
  destruct (listTools_outcome E (trace st) c) as [tools|e]; simpl; [|assumption].
  apply Forall_app. split; [assumption|].
  apply Forall_map. apply Forall_forall. intros d _. apply wrap_named.
Qed.

Lemma discover_from_named serverType conns : forall st,
  Forall mcp_named (discoveredTools st) ->
  Forall mcp_named
    (discoveredTools (discoverToolsFromConnections E conns serverType st)).
Proof.
  unfold discoverToolsFromConnections.
  induction conns as [|entry conns IH]; intros st H; simpl; [assumption|].
  apply IH. now apply discover_one_named.
Qed.

Lemma discover_one_servers serverType st entry :
  stdioServers (discover_one E serverType st entry) = stdioServers st /\
  httpServers (discover_one E serverType st entry) = httpServers st.
Proof.
  destruct entry as [server c]. unfold discover_one. simpl.
  destruct (listTools_outcome E (trace st) c); auto.
Qed.

Lemma discover_from_servers serverType conns : forall st,
  stdioServers (discoverToolsFromConnections E conns serverType st) = stdioServers st /\
  httpServers (discoverToolsFromConnections E conns serverType st) = httpServers st.
Proof.
  unfold discoverToolsFromConnections.
  induction conns as [|entry conns IH]; intros st; [auto|].
  cbn [fold_left].
  destruct (IH (discover_one E serverType st entry)) as [H1 H2].
  destruct (discover_one_servers serverType st entry) as [H3 H4].
  split; congruence.
Qed.

Lemma discoverTools_named st :
  Forall mcp_named (fst (discoverTools E st)).
Proof.
  unfold discoverTools. simpl.
  apply discover_from_named, discover_from_named. constructor.
Qed.

End Discovery.

(** C2, as stated, fails: the public name carries the prefix [mcp_], so
    in scenario B the tool set is not [alpha_search], [beta_search]. *)
Lemma C2_counterexample_names_carry_a_prefix :
  ~ (forall (E : Client.Env) (st : Client.State) (t : Client.Tool),
        In t (fst (Client.discoverTools E st)) ->
        Client.w_name t = Client.serverName t ++ lit "_" ++ Client.toolName t)
  /\
  map Client.w_name
      (fst (Client.discoverTools Examples.search_world Examples.two_servers))
  <> [lit "alpha_search"; lit "beta_search"].
Proof.
  split.
  - intros H.
    specialize (H Examples.search_world Examples.two_servers
                  (Client.wrap (lit "alpha") Examples.search_tool)
                  (or_introl eq_refl)).
    vm_compute in H. discriminate.
  - vm_compute. discriminate.
Qed.

(** C2, amended.  Wrapping the descriptor of a tool named T listed by
    the server registered as S gives a tool whose public name is exactly
    [mcp_S_T], and discovery appends these wrappers, so every tool of
    the discovered set is named that way.  In scenario B, a subprocess
    server A and an HTTP server B each listing one tool [search], the
    set has exactly the two entries [mcp_A_search] and
    [mcp_B_search]. *)
Theorem C2_discovered_names_are_namespaced :
  forall (E : Client.Env) (st : Client.State),
    (forall server d,
       Client.w_name (Client.wrap server d) =
       lit "mcp_" ++ server ++ lit "_" ++ Client.d_name d) /\
    (forall serverType server c ds,
       Client.listTools_outcome E (Client.trace st) c = Ok ds ->
       Client.discoveredTools (Client.discover_one E serverType st (server, c)) =
       Client.discoveredTools st ++ map (Client.wrap server) ds) /\
    Forall Client.mcp_named (fst (Client.discoverTools E st)) /\
    (forall A cA B cB,
       Client.stdioServers st = [(A, cA)] ->
       Client.httpServers st = [(B, cB)] ->
       (forall h c, exists d,
           Client.listTools_outcome E h c = Ok [d] /\
           Client.d_name d = lit "search") ->
       map Client.w_name (fst (Client.discoverTools E st)) =
       [lit "mcp_" ++ A ++ lit "_" ++ lit "search";
        lit "mcp_" ++ B ++ lit "_" ++ lit "search"]).
Proof.
  intros E st. split; [reflexivity|]. split; [|split].
  - intros serverType server c ds H. unfold Client.discover_one. simpl.
    now rewrite H.
  - apply discoverTools_named.
  - intros A cA B cB HA HB Hall.
    destruct st as [ss hs dt lg tr]. simpl in HA, HB. subst ss hs.
    destruct (Hall tr cA) as [dA [EA NA]].
    destruct (Hall (tr ++ [Client.IListTools cA (Ok [dA])]) cB) as [dB [EB NB]].
    unfold Client.discoverTools, Client.discoverToolsFromConnections,
      Client.discover_one, Client.await_listTools.
    simpl. rewrite EA. simpl. rewrite EB. simpl. now rewrite NA, NB.
Qed.

Lemma C2_witness :
  map Client.w_name
      (fst (Client.discoverTools Examples.search_world Examples.two_servers)) =
  [lit "mcp_" ++ lit "alpha" ++ lit "_" ++ lit "search";
   lit "mcp_" ++ lit "beta" ++ lit "_" ++ lit "search"].
Proof.
  refine (proj2 (proj2 (proj2
            (C2_discovered_names_are_namespaced
               Examples.search_world Examples.two_servers)))
            (lit "alpha") _ (lit "beta") _ eq_refl eq_refl _).
  intros h c. exists Examples.search_tool. split; reflexivity.
Defined.

Section Initialize.
Import Client.
Variable E : Env.

Lemma connection_for_config cfg c :
  connection_for cfg = Some c -> config c = cfg.
Proof.
  unfold connection_for. repeat break_inner; intros H; inversion H; reflexivity.
Qed.

Lemma initialize_one_connect st cfg c :
  connection_for cfg = Some c ->
  let r := connect_outcome E (trace st) c in
  let st' := initialize_one E st cfg in
  trace st' = trace st ++ [IConnect c r] /\
  (stdioServers st', httpServers st') =
    registered (stdioServers st, httpServers st) (IConnect c r) /\
  discoveredTools st' = discoveredTools st /\
  incl (log st) (log st') /\
  (forall e, r = Throw e ->
     In (LError (lit "Failed to initialize MCP server " ++ name cfg) (Some e))
        (log st')).
Proof.
  unfold connection_for, initialize_one, initializeStdioServer,
    initializeHttpServer, await_connect.
  destruct (str_eqb (transport cfg) (lit "stdio")).
  - destruct (falsy_str (command cfg) || falsy_arr (args cfg)); [discriminate|].
    intros H. injection H as <-. cbn zeta. cbn [kind config].
    destruct (connect_outcome E (trace st) {| kind := stdio; config := cfg |})
      as [[]|e]; cbn.
    + repeat split; try reflexivity.
      * intros x Hx. apply in_app_iff. now left.
      * discriminate.
    + repeat split; try reflexivity.
      * intros x Hx. apply in_app_iff. now left.
      * intros e' He. injection He as <-. apply in_app_iff. right. now left.
  - destruct (str_eqb (transport cfg) (lit "http")); [|discriminate].
    destruct (falsy_str (url cfg)); [discriminate|].
    intros H. injection H as <-. cbn zeta. cbn [kind config].
    destruct (connect_outcome E (trace st) {| kind := http; config := cfg |})
      as [[]|e]; cbn.
    + repeat split; try reflexivity.
      * intros x Hx. apply in_app_iff. now left.
      * discriminate.
    + repeat split; try reflexivity.
      * intros x Hx. apply in_app_iff. now left.
      * intros e' He. injection He as <-. apply in_app_iff. right. now left.
Qed.

Lemma initialize_one_skip st cfg :
  connection_for cfg = None ->
  let st' := initialize_one E st cfg in
  trace st' = trace st /\
  stdioServers st' = stdioServers st /\
  httpServers st' = httpServers st /\
  discoveredTools st' = discoveredTools st /\
  incl (log st) (log st') /\
  (In (LError (lit "Unknown transport type: " ++ transport cfg) None) (log st')
   \/ exists e,
       In (LError (lit "Failed to initialize MCP server " ++ name cfg) (Some e))
          (log st')).
Proof.
  unfold connection_for, initialize_one, initializeStdioServer,
    initializeHttpServer.
  destruct (str_eqb (transport cfg) (lit "stdio")).
  - destruct (falsy_str (command cfg) || falsy_arr (args cfg)); [|discriminate].
    intros _. cbn. repeat split; try reflexivity.
    + intros x Hx. apply in_app_iff. now left.
    + right. eexists. apply in_app_iff. right. now left.
  - destruct (str_eqb (transport cfg) (lit "http")).
    + destruct (falsy_str (url cfg)); [|discriminate].
      intros _. cbn. repeat split; try reflexivity.
      * intros x Hx. apply in_app_iff. now left.
      * right. eexists. apply in_app_iff. right. now left.
    + intros _. cbn. repeat split; try reflexivity.
      * intros x Hx. apply in_app_iff. now left.
      * left. apply in_app_iff. right. now left.
Qed.

Lemma skip_logged_incl cfg st st' :
  incl (log st) (log st') -> skip_logged cfg st -> skip_logged cfg st'.
Proof.
  intros Hi [H|[e H]]; [left|right; exists e]; now apply Hi.
Qed.

Lemma initialize_loop configs : forall st,
  let st' := fold_left (initialize_one E) configs st in
  exists connects,
    trace st' = trace st ++ connects /\
    map connect_of connects = map Some (connections_for configs) /\
    (stdioServers st', httpServers st') =
      fold_left registered connects (stdioServers st, httpServers st) /\
    discoveredTools st' = discoveredTools st /\
    incl (log st) (log st') /\
    (forall c e, In (IConnect c (Throw e)) connects ->
       In (LError (lit "Failed to initialize MCP server " ++ name (config c))
                  (Some e)) (log st')) /\
    (forall cfg, In cfg configs -> connection_for cfg = None ->
       skip_logged cfg st').
Proof.
  induction configs as [|cfg configs IH]; intros st; cbn [fold_left].
  - exists []. rewrite app_nil_r. repeat split; try reflexivity.
    + apply incl_refl.
    + intros c e [].
    + intros cfg [].
  - destruct (IH (initialize_one E st cfg))
      as (cs & Ht & Hc & Hr & Hd & Hl & Hf & Hs).
    unfold connections_for. cbn [flat_map].
    fold (connections_for configs).
    destruct (connection_for cfg) as [c|] eqn:C.
    + destruct (initialize_one_connect st cfg c C)
        as (Ht1 & Hr1 & Hd1 & Hl1 & Hf1).
      exists (IConnect c (connect_outcome E (trace st) c) :: cs).
      split; [rewrite Ht, Ht1, <- app_assoc; reflexivity|].
      split; [cbn [map app connect_of]; now rewrite Hc|].
      split; [cbn [fold_left]; now rewrite Hr, Hr1|].
      split; [congruence|].
      split; [eapply incl_tran; eauto|].
      split.
      * intros c' e [H|H]; [|now apply Hf].
        injection H as <- He. apply Hl.
        rewrite (connection_for_config cfg c C). now apply Hf1.
      * intros cfg' [<-|H] Hn; [congruence|now apply Hs].
    + destruct (initialize_one_skip st cfg C)
        as (Ht1 & Hr1 & Hr2 & Hd1 & Hl1 & Hk).
      exists cs.
      split; [now rewrite Ht, Ht1|].
      split; [assumption|].
      split; [now rewrite Hr, Hr1, Hr2|].
      split; [congruence|].
      split; [eapply incl_tran; eauto|].
      split; [assumption|].
      intros cfg' [<-|H] Hn; [|now apply Hs].
      eapply skip_logged_incl; [exact Hl|exact Hk].
Qed.

Lemma discover_one_trace serverType st entry :
  let st' := discover_one E serverType st entry in
  trace st' =
    trace st ++ [IListTools (snd entry) (listTools_outcome E (trace st) (snd entry))] /\
  incl (log st) (log st').
Proof.
  destruct entry as [server c]. unfold discover_one. cbn.
  destruct (listTools_outcome E (trace st) c); cbn; split; try reflexivity;
    intros x Hx; apply in_app_iff; now left.
Qed.

Lemma discover_loop serverType conns : forall st,
  let st' := discoverToolsFromConnections E conns serverType st in
  exists lists,
    trace st' = trace st ++ lists /\
    map listTools_of lists = map Some (map snd conns) /\
    incl (log st) (log st').
Proof.
  unfold discoverToolsFromConnections.
  induction conns as [|entry conns IH]; intros st; cbn [fold_left].
  - exists []. rewrite app_nil_r. repeat split. apply incl_refl.
  - destruct (IH (discover_one E serverType st entry)) as (ls & Ht & Hm & Hl).
    destruct (discover_one_trace serverType st entry) as [Ht1 Hl1].
    eexists (_ :: ls).
    split; [rewrite Ht, Ht1, <- app_assoc; reflexivity|].
    split; [cbn [map listTools_of]; now rewrite Hm|].
    eapply incl_tran; eauto.
Qed.

(** C8. Whatever the list of server configurations and whatever each
    connect does, [initialize] returns normally.  Its awaited calls are,
    in this order: one [connect()] for every configuration with a known
    transport and its required fields, in the order of the list and
    whatever happened to the servers before it; then one [listTools()]
    for every connection registered at that point, subprocess servers
    first — discovery runs once, after all connect attempts.  The
    registries hold exactly the connections whose [connect()] succeeded.
    Every failure is in the log: a failed [connect()] and a missing
    field as "Failed to initialize MCP server", an unknown transport as
    "Unknown transport type". *)
Theorem C8_initialize_skips_failed_servers configs st0 :
  let res := initialize E configs st0 in
  let st := snd res in
  fst res = Ok tt /\
  exists connects lists,
    trace st = trace st0 ++ connects ++ lists /\
    map connect_of connects = map Some (connections_for configs) /\
    (stdioServers st, httpServers st) =
      fold_left registered connects (stdioServers st0, httpServers st0) /\
    map listTools_of lists =
      map Some (map snd (stdioServers st ++ httpServers st)) /\
    (forall c e, In (IConnect c (Throw e)) connects ->
       In (LError (lit "Failed to initialize MCP server " ++ name (config c))
                  (Some e)) (log st)) /\
    (forall cfg, In cfg configs -> connection_for cfg = None ->
       skip_logged cfg st).
Proof.
  cbn zeta. unfold initialize, discoverTools.
  set (st1 := logger _ st0).
  destruct (initialize_loop configs st1)
    as (cs & Ht & Hc & Hr & Hd & Hl & Hf & Hs).
  set (st2 := fold_left (initialize_one E) configs st1) in *.
  set (st3 := set_discoveredTools [] st2).
  destruct (discover_loop (lit "stdio") (stdioServers st3) st3)
    as (l1 & Ht1 & Hm1 & Hl1).
  set (st4 := discoverToolsFromConnections E (stdioServers st3) (lit "stdio") st3)
    in *.
  destruct (discover_loop (lit "HTTP") (httpServers st4) st4)
    as (l2 & Ht2 & Hm2 & Hl2).
  set (st5 := discoverToolsFromConnections E (httpServers st4) (lit "HTTP") st4)
    in *.
  destruct (discover_from_servers E (lit "stdio") (stdioServers st3) st3)
    as [S4 H4].
  fold st4 in S4, H4.
  destruct (discover_from_servers E (lit "HTTP") (httpServers st4) st4)
    as [S5 H5].
  fold st5 in S5, H5.
  assert (S3 : stdioServers st3 = stdioServers st2) by reflexivity.
  assert (H3 : httpServers st3 = httpServers st2) by reflexivity.
  assert (L3 : log st3 = log st2) by reflexivity.
  assert (Hlog : incl (log st2) (log st5)).
  { rewrite <- L3. eapply incl_tran; eauto. }
  cbn [fst snd]. split; [reflexivity|].
  exists cs, (l1 ++ l2).
  cbn [trace stdioServers httpServers logger log].
  split.
  { rewrite Ht2, Ht1. change (trace st3) with (trace st2). rewrite Ht.
    change (trace st1) with (trace st0). now rewrite <- !app_assoc. }
  split; [assumption|].
  split; [rewrite S5, H5, S4, H4, S3, H3; exact Hr|].
  split.
  { rewrite map_app, Hm1, Hm2. rewrite S5, H5, S4, H4.
    now rewrite !map_app. }
  split.
  - intros c e H. apply in_app_iff. left. apply Hlog. now apply Hf.
  - intros cfg Hin Hn.
    assert (K : skip_logged cfg st5)
      by (eapply skip_logged_incl; [exact Hlog|now apply Hs]).
    destruct K as [K|[e K]]; [left|right; exists e];
      cbn [log]; apply in_app_iff; now left.
Qed.

(** ** The log does not steer the client *)

Lemma erase_log_logger e st : erase_log (logger e st) = erase_log st.
Proof. reflexivity. Qed.

Lemma initialize_one_erase st st' cfg :
  erase_log st = erase_log st' ->
  erase_log (initialize_one E st cfg) = erase_log (initialize_one E st' cfg).
Proof.
  destruct st, st'. unfold erase_log. simpl.
  intros H. injection H as -> -> -> ->.
  unfold initialize_one, initializeStdioServer, initializeHttpServer,
    await_connect.
  cbn [trace record].
  repeat break_inner; reflexivity.
Qed.

Lemma initialize_fold_erase configs : forall st st',
  erase_log st = erase_log st' ->
  erase_log (fold_left (initialize_one E) configs st) =
  erase_log (fold_left (initialize_one E) configs st').
Proof.
  induction configs as [|cfg configs IH]; intros st st' H; cbn [fold_left];
    [assumption|].
  apply IH. now apply initialize_one_erase.
Qed.

Lemma discover_one_erase serverType st st' entry :
  erase_log st = erase_log st' ->
  erase_log (discover_one E serverType st entry) =
  erase_log (discover_one E serverType st' entry).
Proof.
  destruct st, st', entry as [server c]. unfold erase_log. simpl.
  intros H. injection H as -> -> -> ->.
  unfold discover_one, await_listTools. cbn [trace record].
  repeat break_inner; reflexivity.
Qed.

Lemma discover_fold_erase serverType conns : forall st st',
  erase_log st = erase_log st' ->
  erase_log (discoverToolsFromConnections E conns serverType st) =
  erase_log (discoverToolsFromConnections E conns serverType st').
Proof.
  unfold discoverToolsFromConnections.
  induction conns as [|entry conns IH]; intros st st' H; cbn [fold_left];
    [assumption|].
  apply IH. now apply discover_one_erase.
Qed.

Lemma erase_log_fields st st' :
  erase_log st = erase_log st' ->
  stdioServers st = stdioServers st' /\ httpServers st = httpServers st' /\
  discoveredTools st = discoveredTools st' /\ trace st = trace st'.
Proof.
  destruct st, st'. unfold erase_log. simpl. intros H.
  injection H as -> -> -> ->. auto.
Qed.

Lemma initialize_erase configs configs' st st' :
  erase_log (fold_left (initialize_one E) configs st) =
  erase_log (fold_left (initialize_one E) configs' st') ->
  erase_log (snd (initialize E configs st)) =
  erase_log (snd (initialize E configs' st')).
Proof.
  intros H. unfold initialize, discoverTools. cbn [snd].
  set (a := fold_left (initialize_one E) configs (logger _ st)).
  set (b := fold_left (initialize_one E) configs' (logger _ st')).
  assert (Hab : erase_log a = erase_log b).
  { unfold a, b.
    rewrite (initialize_fold_erase configs (logger _ st) st eq_refl).
    rewrite (initialize_fold_erase configs' (logger _ st') st' eq_refl).
    exact H. }
  assert (H0 : erase_log (set_discoveredTools [] a) =
               erase_log (set_discoveredTools [] b)).
  { destruct (erase_log_fields _ _ Hab) as (E1 & E2 & E3 & E4).
    unfold erase_log. cbn. congruence. }
  assert (Hs : stdioServers (set_discoveredTools [] a) =
               stdioServers (set_discoveredTools [] b))
    by (destruct (erase_log_fields _ _ H0); assumption).
  rewrite Hs.
  pose proof (discover_fold_erase (lit "stdio")
                (stdioServers (set_discoveredTools [] b)) _ _ H0) as H1.
  set (a1 := discoverToolsFromConnections E _ (lit "stdio")
               (set_discoveredTools [] a)) in *.
  set (b1 := discoverToolsFromConnections E _ (lit "stdio")
               (set_discoveredTools [] b)) in *.
  assert (Hh : httpServers a1 = httpServers b1)
    by (destruct (erase_log_fields _ _ H1) as (_ & ? & _); assumption).
  rewrite Hh.
  pose proof (discover_fold_erase (lit "HTTP") (httpServers b1) _ _ H1) as H2.
  rewrite !erase_log_logger. exact H2.
Qed.

Lemma discoverTools_log st : incl (log st) (log (snd (discoverTools E st))).
Proof.
  unfold discoverTools. cbn [snd].
  set (st1 := set_discoveredTools [] st).
  destruct (discover_loop (lit "stdio") (stdioServers st1) st1)
    as (l1 & _ & _ & Hl1).
  set (st2 := discoverToolsFromConnections E (stdioServers st1) (lit "stdio") st1)
    in *.
  destruct (discover_loop (lit "HTTP") (httpServers st2) st2)
    as (l2 & _ & _ & Hl2).
  eapply incl_tran; [|exact Hl2]. exact Hl1.
Qed.

Lemma initialize_log configs st0 :
  incl (log (fold_left (initialize_one E) configs
               (logger (LInfo (lit "Initializing EnhancedMCPClient with "
                                 ++ decimal (N.of_nat (List.length configs))
                                 ++ lit " servers")) st0)))
       (log (snd (initialize E configs st0))).
Proof.
  unfold initialize.
  set (st2 := fold_left (initialize_one E) configs _).
  pose proof (discoverTools_log st2) as H.
  destruct (discoverTools E st2) as [tools st3]. cbn [snd] in *.
  intros x Hx. cbn [log logger]. apply in_app_iff. left. now apply H.
Qed.

End Initialize.

Lemma C8_witness :
  Client.skip_logged Examples.gamma_config
    (snd (Client.initialize Examples.search_world
            [Examples.alpha_config; Examples.gamma_config; Examples.beta_config]
            Client.fresh)).
Proof.
  destruct (C8_initialize_skips_failed_servers Examples.search_world
              [Examples.alpha_config; Examples.gamma_config; Examples.beta_config]
              Client.fresh)
    as (_ & connects & lists & _ & _ & _ & _ & _ & H).
  apply H; [right; left; reflexivity|reflexivity].
Defined.

(** C10. A configuration whose transport is neither [stdio] nor [http]
    makes [initialize] log "Unknown transport type" and nothing else:
    [initialize] returns normally, and the registries, the discovered
    tools and the calls made on the connections are those of the same
    list without that configuration. *)
Theorem C10_unknown_transport_is_skipped :
  forall (E : Client.Env) (before after : list Client.MCPServerConfig)
         (cfg : Client.MCPServerConfig) (st0 : Client.State),
    str_eqb (Client.transport cfg) (lit "stdio") = false ->
    str_eqb (Client.transport cfg) (lit "http") = false ->
    let with_it := Client.initialize E (before ++ cfg :: after) st0 in
    let without := Client.initialize E (before ++ after) st0 in
    fst with_it = Ok tt /\
    In (LError (lit "Unknown transport type: " ++ Client.transport cfg) None)
       (Client.log (snd with_it)) /\
    Client.stdioServers (snd with_it) = Client.stdioServers (snd without) /\
    Client.httpServers (snd with_it) = Client.httpServers (snd without) /\
    Client.discoveredTools (snd with_it) = Client.discoveredTools (snd without) /\
    Client.trace (snd with_it) = Client.trace (snd without).
Proof.
  intros E before after cfg st0 H1 H2 with_it without.
  assert (Hone : forall st, Client.initialize_one E st cfg =
                            Client.logger
                              (LError (lit "Unknown transport type: "
                                         ++ Client.transport cfg) None) st).
  { intros st. unfold Client.initialize_one. now rewrite H1, H2. }
  split; [reflexivity|]. split.
  - apply initialize_log. rewrite fold_left_app. cbn [fold_left].
    rewrite Hone.
    destruct (initialize_loop E after
                (Client.logger
                   (LError (lit "Unknown transport type: "
                              ++ Client.transport cfg) None)
                   (fold_left (Client.initialize_one E) before
                      (Client.logger
                         (LInfo (lit "Initializing EnhancedMCPClient with "
                                   ++ decimal (N.of_nat
                                        (List.length (before ++ cfg :: after)))
                                   ++ lit " servers")) st0))))
      as (cs & _ & _ & _ & _ & Hl & _).
    apply Hl. cbn [Client.log Client.logger]. apply in_app_iff. right. now left.
  - apply erase_log_fields.
    apply initialize_erase. rewrite !fold_left_app. cbn [fold_left].
    apply initialize_fold_erase. now rewrite Hone.
Qed.

Lemma C10_witness :
  In (LError (lit "Unknown transport type: " ++ lit "websocket") None)
     (Client.log
        (snd (Client.initialize Examples.search_world
                ([Examples.alpha_config] ++ Examples.gamma_config
                                         :: [Examples.beta_config])
                Client.fresh)))
  /\
  Client.discoveredTools
    (snd (Client.initialize Examples.search_world
            ([Examples.alpha_config] ++ Examples.gamma_config
                                     :: [Examples.beta_config])
            Client.fresh)) =
  Client.discoveredTools
    (snd (Client.initialize Examples.search_world
            ([Examples.alpha_config] ++ [Examples.beta_config])
            Client.fresh)).
Proof.
  destruct (C10_unknown_transport_is_skipped Examples.search_world
              [Examples.alpha_config] [Examples.beta_config]
              Examples.gamma_config Client.fresh eq_refl eq_refl)
    as (_ & H1 & _ & _ & H2 & _).
  split; [exact H1|exact H2].
Defined.


(* ===================================================================== *)
(** * Further properties of the subprocess connection                     *)
(* ===================================================================== *)

Lemma str_eqb_eq : forall a b : jsstring, str_eqb a b = true <-> a = b.
Proof.
  induction a as [|x a IH]; destruct b as [|y b]; simpl;
    try (split; [discriminate|discriminate]); try tauto.
  rewrite andb_true_iff, N.eqb_eq, IH. split.
  - intros [-> ->]. reflexivity.
  - intros H. inversion H. auto.
Qed.

Section MoreMapFacts.
Context {K V : Type} (eqb : K -> K -> bool).
Hypothesis eqb_eq : forall x y, eqb x y = true <-> x = y.

Lemma map_get_set k k' (v : V) (m : list (K * V)) :
map_get eqb k (map_set eqb k' v m) =
if eqb k k' then Some v else map_get eqb k m.
Proof.
induction m as [|[k0 v0] m IH]; simpl.
- reflexivity.
- destruct (eqb k' k0) eqn:E0; simpl.
  + apply eqb_eq in E0. subst k0. now destruct (eqb k k').
  + rewrite IH. destruct (eqb k k') eqn:E1; [|reflexivity].
    apply eqb_eq in E1. subst k'. now rewrite E0.
Qed.

Lemma map_set_keys k (v : V) (m : list (K * V)) :
NoDup (map fst m) -> NoDup (map fst (map_set eqb k v m)).
Proof.
induction m as [|[k0 v0] m IH]; simpl; intros ND.
- constructor; [tauto|constructor].
- inversion ND as [|? ? Hn ND']; subst.
  destruct (eqb k k0) eqn:E0; simpl; [now constructor|].
  constructor; [|auto].
  intros H. apply in_map_iff in H. destruct H as [[k1 v1] [Hk Hin]].
  simpl in Hk. subst k1.
  assert (Hg : map_get eqb k0 (map_set eqb k v m) = map_get eqb k0 m).
  { rewrite map_get_set. destruct (eqb k0 k) eqn:E1; [|reflexivity].
    apply eqb_eq in E1. subst k0. rewrite (eqb_refl' eqb eqb_eq) in E0.
    discriminate. }
  assert (Hs : map_get eqb k0 (map_set eqb k v m) <> None).
  { intros Hnone. apply (map_get_None eqb eqb_eq) in Hnone. apply Hnone.
    apply in_map_iff. exists (k0, v1). auto. }
  rewrite Hg in Hs. apply Hs. now apply (map_get_None eqb eqb_eq).
Qed.

Lemma In_map_set k (v : V) j w (m : list (K * V)) :
In (j, w) (map_set eqb k v m) -> (j = k /\ w = v) \/ In (j, w) m.
Proof.
induction m as [|[k0 v0] m IH]; simpl.
- intros [H|[]]. inversion H. auto.
- destruct (eqb k k0) eqn:E0; simpl.
  + apply eqb_eq in E0. subst k0. intros [H|H]; [inversion H; auto|auto].
  + intros [H|H]; [auto|]. destruct (IH H); auto.
Qed.

End MoreMapFacts.

Section MoreStdio.
Import Stdio StdioInv.
Variable B : Builtins.
Variable config : StdioMCPConfig.

Lemma run_app evs evs' st :
run B config (evs ++ evs') st = run B config evs' (run B config evs st).
Proof. unfold run. apply fold_left_app. Qed.

(** [callTool] on a connection whose process is alive. *)
Lemma callTool_connected toolName targs st proc :
process st = Some proc -> stdin proc = true ->
callTool config toolName targs st =
(Suspended (promises st),
 set_timers
   (timers st ++ [{| t_id := messageId st + 1; t_promise := promises st;
                     t_method := lit "tools/call"; t_delay := TIMEOUT_MS |}])
   (write {| rq_id := messageId st + 1; rq_method := lit "tools/call";
             rq_params := JObj [(lit "name", JStr toolName);
                                (lit "arguments", targs)] |}
      (set_pendingRequests
         (map_set Z.eqb (messageId st + 1)%Z (promises st) (pendingRequests st))
         (snd (new_promise
                 (set_messageId (messageId st + 1)
                    (logger (LToolCall toolName targs) st))))))).
Proof.
intros Hp Hs. unfold callTool, callToolImpl, nextMessageId, sendRequest.
cbn [process logger set_log set_messageId]. rewrite Hp, Hs. reflexivity.
Qed.

Lemma listTools_connected st proc :
process st = Some proc -> stdin proc = true ->
listTools config st =
(Awaiting (promises st),
 set_timers
   (timers st ++ [{| t_id := messageId st + 1; t_promise := promises st;
                     t_method := lit "tools/list"; t_delay := TIMEOUT_MS |}])
   (write {| rq_id := messageId st + 1; rq_method := lit "tools/list";
             rq_params := JObj [] |}
      (set_pendingRequests
         (map_set Z.eqb (messageId st + 1)%Z (promises st) (pendingRequests st))
         (snd (new_promise (set_messageId (messageId st + 1) st)))))).
Proof.
intros Hp Hs. unfold listTools, nextMessageId, sendRequest.
cbn [process set_messageId]. rewrite Hp, Hs. reflexivity.
Qed.

(** A reply line for the request just sent: its entry is removed, and
  its promise is completed unless [new Error] throws, which the loop
  logs. *)
Lemma reply_handled st st1 line fields p buf :
pendingRequests st1 =
  map_set Z.eqb (messageId st + 1)%Z p (pendingRequests st) ->
truthy_str (trim line) = true ->
JSON_parse B line = Some (JObj fields) ->
lookup_field (lit "id") fields = Some (JNum (messageId st + 1)) ->
process_line B (set_buffer buf st1) line =
let st' :=
  set_pendingRequests
    (map_delete Z.eqb (messageId st + 1)%Z (pendingRequests st1))
    (set_buffer buf st1) in
match response_outcome B fields with
| Ok s => settle p s st'
| Throw e =>
    logger (LError (lit "Failed to parse MCP response: " ++ line) (Some e)) st'
end.
Proof.
intros Hpend Ht Hparse Hid. unfold process_line. rewrite Ht, Hparse.
rewrite (handleResponse_matching B (set_buffer buf st1) fields
           (messageId st + 1)%Z p Hid).
- cbv zeta. cbn [pendingRequests set_buffer].
  now destruct (response_outcome B fields).
- cbn [pendingRequests set_buffer]. rewrite Hpend.
  rewrite (map_get_set Z.eqb Z.eqb_eq). now rewrite Z.eqb_refl.
Qed.

Lemma reply_completes st st1 line fields p buf s :
pendingRequests st1 =
  map_set Z.eqb (messageId st + 1)%Z p (pendingRequests st) ->
truthy_str (trim line) = true ->
JSON_parse B line = Some (JObj fields) ->
lookup_field (lit "id") fields = Some (JNum (messageId st + 1)) ->
response_outcome B fields = Ok s ->
settled (process_line B (set_buffer buf st1) line) =
settled st1 ++ [(p, s)].
Proof.
intros Hpend Ht Hparse Hid Hout.
rewrite (reply_handled st st1 line fields p buf Hpend Ht Hparse Hid).
cbv zeta. now rewrite Hout.
Qed.

End MoreStdio.

Section RoundTrips.
Import Stdio StdioInv.
Variable B : Builtins.
Variable config : StdioMCPConfig.

(** A tool call on a live connection followed by the chunk that carries
  its reply: the call is suspended on a new promise, its request is
  the next line written, and the reply completes that promise as
  [handleResponse] decides. *)
Lemma callTool_then_reply st proc toolName targs data line rest fields s :
process st = Some proc -> stdin proc = true ->
frame (buffer st) data = ([line], rest) ->
truthy_str (trim line) = true ->
JSON_parse B line = Some (JObj fields) ->
lookup_field (lit "id") fields = Some (JNum (messageId st + 1)) ->
response_outcome B fields = Ok s ->
let called := callTool config toolName targs st in
let st2 := on_data B data (snd called) in
fst called = Suspended (promises st) /\
written (snd called) =
  written st ++ [{| rq_id := messageId st + 1; rq_method := lit "tools/call";
                    rq_params := JObj [(lit "name", JStr toolName);
                                       (lit "arguments", targs)] |}] /\
settled st2 = settled st ++ [(promises st, s)] /\
buffer st2 = rest.
Proof.
intros Hp Hs Hf Ht Hparse Hid Hout called st2.
unfold st2, called. rewrite (callTool_connected config toolName targs st proc Hp Hs).
cbn [fst snd]. split; [reflexivity|]. split; [reflexivity|].
unfold on_data. cbn [buffer set_timers write set_pendingRequests new_promise
                      snd set_messageId logger set_log].
rewrite Hf. cbn [fold_left]. split.
- rewrite (reply_completes B st _ line fields (promises st) rest s);
    try assumption; reflexivity.
- destruct (process_line_fields B
              (set_buffer rest
                 (set_timers
                    (timers st ++ [{| t_id := messageId st + 1;
                                      t_promise := promises st;
                                      t_method := lit "tools/call";
                                      t_delay := TIMEOUT_MS |}])
                    (write {| rq_id := messageId st + 1;
                              rq_method := lit "tools/call";
                              rq_params := JObj [(lit "name", JStr toolName);
                                                 (lit "arguments", targs)] |}
                       (set_pendingRequests
                          (map_set Z.eqb (messageId st + 1)%Z (promises st)
                                   (pendingRequests st))
                          (snd (new_promise
                                  (set_messageId (messageId st + 1)
                                     (logger (LToolCall toolName targs) st))))))))
              line) as (_ & _ & Hb & _).
  exact Hb.
Qed.

End RoundTrips.

(** X1. A tool call on a live subprocess connection whose reply line
    carries the call's id, no error and a result object: the call is
    suspended on a new promise, the reply resolves that promise with the
    result, and the call then returns a success-status result whose
    content is [JSON.stringify] of the result's [content] field and
    whose metadata names the server. *)
Theorem X1_callTool_reply_gives_success :
  forall (B : Builtins) (config : Stdio.StdioMCPConfig) (st : Stdio.Conn)
         (proc : Stdio.ChildProcess) (toolName : jsstring) (args : Json)
         (data : Buffer) (line rest : jsstring)
         (fields rfields : list (jsstring * Json)),
    Stdio.process st = Some proc -> Stdio.stdin proc = true ->
    Stdio.frame (Stdio.buffer st) data = ([line], rest) ->
    truthy_str (trim line) = true ->
    JSON_parse B line = Some (JObj fields) ->
    lookup_field (lit "id") fields = Some (JNum (Stdio.messageId st + 1)) ->
    truthy (lookup_field (lit "error") fields) = false ->
    lookup_field (lit "result") fields = Some (JObj rfields) ->
    let called := Stdio.callTool config toolName args st in
    let st2 := Stdio.on_data B data (snd called) in
    fst called = Stdio.Suspended (Stdio.promises st) /\
    Stdio.settled st2 =
      Stdio.settled st
      ++ [(Stdio.promises st, Stdio.Resolved (Some (JObj rfields)))] /\
    fst (Stdio.callTool_resume B config toolName
           (Stdio.Resolved (Some (JObj rfields))) st2) =
      {| status := success;
         content := option_map (JSON_stringify B)
                               (lookup_field (lit "content") rfields);
         metadata := Some (Stdio.name config) |}.
Proof.
  intros B config st proc toolName args data line rest fields rfields
         Hp Hs Hf Ht Hparse Hid Herr Hres called st2.
  assert (Hout : Stdio.response_outcome B fields =
                 Ok (Stdio.Resolved (Some (JObj rfields))))
    by (unfold Stdio.response_outcome; now rewrite Herr, Hres).
  destruct (callTool_then_reply B config st proc toolName args data line rest
              fields _ Hp Hs Hf Ht Hparse Hid Hout) as (H1 & _ & H3 & _).
  split; [exact H1|]. split; [exact H3|reflexivity].
Qed.

Lemma X1_witness :
  Stdio.settled
    (Stdio.on_data MoreExamples.replies_builtins
       (MoreExamples.line_chunk Examples.reply_text)
       (snd (Stdio.callTool Examples.files_config (lit "read_file") (JObj [])
               MoreExamples.connected))) =
  [(0, Stdio.Resolved (Some (JObj [(lit "content", JStr (lit "hi"))])))].
Proof.
  exact (proj1 (proj2
    (X1_callTool_reply_gives_success MoreExamples.replies_builtins
       Examples.files_config MoreExamples.connected Examples.child
       (lit "read_file") (JObj [])
       (MoreExamples.line_chunk Examples.reply_text)
       (lit Examples.reply_text) [] MoreExamples.reply_fields
       [(lit "content", JStr (lit "hi"))]
       eq_refl eq_refl eq_refl eq_refl eq_refl eq_refl eq_refl eq_refl))).
Defined.

(** X2. A tool call on a live subprocess connection whose reply line
    carries the call's id and an [error] object.  When
    [new Error(message.error.message || 'MCP request failed')] can be
    built — a non-empty string as [message] gives that string, a missing
    or otherwise falsy [message] gives "MCP request failed" — the promise
    is rejected with it, and the call returns an error-status result,
    never a thrown error, whose content is "Tool execution failed: "
    followed by that text.  When the conversion of [message] to a string
    throws, nobody is rejected: the loop logs the error thrown and the
    call stays suspended. *)
Theorem X2_callTool_error_reply_gives_error_result :
  forall (B : Builtins) (config : Stdio.StdioMCPConfig) (st : Stdio.Conn)
         (proc : Stdio.ChildProcess) (toolName : jsstring) (args : Json)
         (data : Buffer) (line rest : jsstring)
         (fields efields : list (jsstring * Json)),
    Stdio.process st = Some proc -> Stdio.stdin proc = true ->
    Stdio.frame (Stdio.buffer st) data = ([line], rest) ->
    truthy_str (trim line) = true ->
    JSON_parse B line = Some (JObj fields) ->
    lookup_field (lit "id") fields = Some (JNum (Stdio.messageId st + 1)) ->
    lookup_field (lit "error") fields = Some (JObj efields) ->
    let called := Stdio.callTool config toolName args st in
    let st2 := Stdio.on_data B data (snd called) in
    let m := lookup_field (lit "message") efields in
    (forall e,
       Stdio.new_Error B m = Ok e ->
       Stdio.settled st2 =
         Stdio.settled st ++ [(Stdio.promises st, Stdio.Rejected e)] /\
       fst (Stdio.callTool_resume B config toolName (Stdio.Rejected e) st2) =
         {| status := error;
            content := Some (lit "Tool execution failed: " ++ message e);
            metadata := None |}) /\
    (forall c text,
       m = Some (JStr (c :: text)) ->
       Stdio.new_Error B m = Ok {| message := c :: text |}) /\
    (truthy m = false ->
     Stdio.new_Error B m = Ok {| message := lit "MCP request failed" |}) /\
    (forall e,
       Stdio.new_Error B m = Throw e ->
       Stdio.settled st2 = Stdio.settled st /\
       Stdio.log st2 =
         Stdio.log (snd called)
         ++ [LError (lit "Failed to parse MCP response: " ++ line) (Some e)]).
Proof.
  intros B config st proc toolName args data line rest fields efields
         Hp Hs Hf Ht Hparse Hid Herr called st2 m.
  assert (Hout : Stdio.response_outcome B fields =
                 match Stdio.new_Error B m with
                 | Ok e => Ok (Stdio.Rejected e)
                 | Throw e => Throw e
                 end)
    by (unfold Stdio.response_outcome; now rewrite Herr).
  split; [|split; [|split]].
  - intros e He. rewrite He in Hout.
    destruct (callTool_then_reply B config st proc toolName args data line rest
                fields _ Hp Hs Hf Ht Hparse Hid Hout) as (_ & _ & H3 & _).
    split; [exact H3|reflexivity].
  - intros c text Hm. unfold Stdio.new_Error. now rewrite Hm.
  - intros Hm. unfold Stdio.new_Error. now rewrite Hm.
  - intros e He. rewrite He in Hout.
    unfold st2, called.
    rewrite (callTool_connected config toolName args st proc Hp Hs).
    cbn [snd]. unfold Stdio.on_data.
    cbn [Stdio.buffer Stdio.set_timers Stdio.write Stdio.set_pendingRequests
         Stdio.new_promise snd Stdio.set_messageId Stdio.logger Stdio.set_log].
    rewrite Hf. cbn [fold_left].
    rewrite (reply_handled B st _ line fields (Stdio.promises st) rest);
      try assumption; try reflexivity.
    cbv zeta. rewrite Hout. split; reflexivity.
Qed.

Lemma X2_witness :
  Stdio.settled
    (Stdio.on_data MoreExamples.replies_builtins
       (MoreExamples.line_chunk MoreExamples.error_reply_text)
       (snd (Stdio.callTool Examples.files_config (lit "read_file") (JObj [])
               MoreExamples.connected))) =
  [(0, Stdio.Rejected {| message := lit "no such file" |})].
Proof.
  exact (proj1 (proj1
    (X2_callTool_error_reply_gives_error_result
       MoreExamples.replies_builtins
       Examples.files_config MoreExamples.connected Examples.child
       (lit "read_file") (JObj [])
       (MoreExamples.line_chunk MoreExamples.error_reply_text)
       (lit MoreExamples.error_reply_text) []
       MoreExamples.error_reply_fields
       [(lit "message", JStr (lit "no such file"))]
       eq_refl eq_refl eq_refl eq_refl eq_refl eq_refl eq_refl)
    {| message := lit "no such file" |} eq_refl)).
Defined.

(** X3. A reply line that carries the call's id but neither an error
    nor a result resolves the promise with [undefined]; reading
    [content] of it throws inside [callToolImpl], and [callTool] turns
    that into an error-status result as well. *)
Theorem X3_callTool_reply_without_result_gives_error_result :
  forall (B : Builtins) (config : Stdio.StdioMCPConfig) (st : Stdio.Conn)
         (proc : Stdio.ChildProcess) (toolName : jsstring) (args : Json)
         (data : Buffer) (line rest : jsstring)
         (fields : list (jsstring * Json)),
    Stdio.process st = Some proc -> Stdio.stdin proc = true ->
    Stdio.frame (Stdio.buffer st) data = ([line], rest) ->
    truthy_str (trim line) = true ->
    JSON_parse B line = Some (JObj fields) ->
    lookup_field (lit "id") fields = Some (JNum (Stdio.messageId st + 1)) ->
    lookup_field (lit "error") fields = None ->
    lookup_field (lit "result") fields = None ->
    let called := Stdio.callTool config toolName args st in
    let st2 := Stdio.on_data B data (snd called) in
    Stdio.settled st2 =
      Stdio.settled st ++ [(Stdio.promises st, Stdio.Resolved None)] /\
    exists text,
      fst (Stdio.callTool_resume B config toolName (Stdio.Resolved None) st2) =
        {| status := error;
           content := Some (lit "Tool execution failed: " ++ text);
           metadata := None |}.
Proof.
  intros B config st proc toolName args data line rest fields
         Hp Hs Hf Ht Hparse Hid Herr Hres called st2.
  assert (Hout : Stdio.response_outcome B fields = Ok (Stdio.Resolved None))
    by (unfold Stdio.response_outcome; now rewrite Herr, Hres).
  destruct (callTool_then_reply B config st proc toolName args data line rest
              fields _ Hp Hs Hf Ht Hparse Hid Hout) as (_ & _ & H3 & _).
  split; [exact H3|].
  eexists. reflexivity.
Qed.

Lemma X3_witness :
  Stdio.settled
    (Stdio.on_data MoreExamples.replies_builtins
       (MoreExamples.line_chunk MoreExamples.bare_reply_text)
       (snd (Stdio.callTool Examples.files_config (lit "read_file") (JObj [])
               MoreExamples.connected))) =
  [(0, Stdio.Resolved None)].
Proof.
  exact (proj1
    (X3_callTool_reply_without_result_gives_error_result
       MoreExamples.replies_builtins
       Examples.files_config MoreExamples.connected Examples.child
       (lit "read_file") (JObj [])
       (MoreExamples.line_chunk MoreExamples.bare_reply_text)
       (lit MoreExamples.bare_reply_text) [] MoreExamples.bare_reply_fields
       eq_refl eq_refl eq_refl eq_refl eq_refl eq_refl eq_refl eq_refl)).
Defined.

Section Timers.
Import Stdio StdioInv.
Variable B : Builtins.
Variable config : StdioMCPConfig.

Lemma find_new_timer (ts : list Timer) t :
(forall t', In t' ts -> t_promise t' <> t_promise t) ->
find (fun t' => Nat.eqb (t_promise t') (t_promise t)) (ts ++ [t]) = Some t.
Proof.
induction ts as [|x ts IH]; simpl; intros H.
- now rewrite Nat.eqb_refl.
- destruct (Nat.eqb (t_promise x) (t_promise t)) eqn:E.
  + apply Nat.eqb_eq in E. exfalso. apply (H x); auto.
  + apply IH. intros t' Ht'. apply H. now right.
Qed.

Lemma filter_other_promises (ts : list Timer) p :
(forall t', In t' ts -> t_promise t' <> p) ->
filter (fun t' => negb (Nat.eqb (t_promise t') p)) ts = ts.
Proof.
induction ts as [|x ts IH]; simpl; intros H; [reflexivity|].
destruct (Nat.eqb (t_promise x) p) eqn:E.
- apply Nat.eqb_eq in E. exfalso. apply (H x); auto.
- simpl. f_equal. apply IH. intros t' Ht'. apply H. now right.
Qed.

(** Firing, one after the other, the timers armed in [st] disarms all
  of them. *)
Lemma fire_all_timers ts : forall st,
NoDup (map t_promise ts) -> timers st = ts ->
timers (run B config (map ETimer (map t_promise ts)) st) = [].
Proof.
induction ts as [|t ts IH]; intros st ND Ht; simpl; [assumption|].
inversion ND as [|? ? Hn ND']; subst.
apply IH; [assumption|].
unfold on_timer. rewrite Ht. simpl. rewrite Nat.eqb_refl. simpl.
unfold timeout_callback.
assert (Hf : filter (fun t0 => negb (Nat.eqb (t_promise t0) (t_promise t))) ts = ts).
{ apply filter_other_promises. intros t' Ht' E. apply Hn. rewrite <- E.
  now apply in_map. }
destruct (map_has Z.eqb (t_id t) _); cbn [timers settle set_pendingRequests
                                          set_timers]; exact Hf.
Qed.

(** A timer that fires removes no entry without completing its promise,
  and completes no promise twice. *)
Lemma on_timer_conserves q st i p :
pending_inv st -> In (i, p) (pendingRequests st) ->
In (i, p) (pendingRequests (on_timer q st)) \/
In p (map fst (settled (on_timer q st))).
Proof.
intros I Hin. unfold on_timer.
destruct (find (fun t => Nat.eqb (t_promise t) q) (timers st)) as [t|] eqn:F;
  [|now left].
apply find_some in F. destruct F as [Ht _].
unfold timeout_callback, map_has. cbn [pendingRequests set_timers].
destruct (map_get Z.eqb (t_id t) (pendingRequests st)) as [p'|] eqn:G;
  [|now left].
cbn [pendingRequests settled settle set_pendingRequests].
destruct (Z.eq_dec i (t_id t)) as [->|Hne].
- right. destruct (pi_timer _ I t Ht) as (_ & _ & _ & H4).
  rewrite (H4 p Hin). rewrite map_app, in_app_iff. right. now left.
- left. apply (In_map_delete Z.eqb Z.eqb_eq); [exact (pi_keys _ I)|auto].
Qed.

Lemma on_timer_settled q st :
incl (settled st) (settled (on_timer q st)).
Proof.
unfold on_timer, timeout_callback.
repeat break_match; cbn [settled settle set_pendingRequests set_timers];
  try apply incl_refl; apply incl_appl, incl_refl.
Qed.

Lemma run_timers_settled qs : forall st p,
In p (map fst (settled st)) ->
In p (map fst (settled (run B config (map ETimer qs) st))).
Proof.
induction qs as [|q qs IH]; intros st p H; cbn [map run fold_left];
  [exact H|].
apply IH. apply in_map_iff in H. destruct H as [x [Hx Hin]].
apply in_map_iff. exists x. split; [exact Hx|].
now apply (on_timer_settled q st).
Qed.

Lemma run_timers_conserve qs : forall st i p,
pending_inv st -> In (i, p) (pendingRequests st) ->
In (i, p) (pendingRequests (run B config (map ETimer qs) st)) \/
In p (map fst (settled (run B config (map ETimer qs) st))).
Proof.
induction qs as [|q qs IH]; intros st i p I Hin; cbn [map run fold_left];
  [now left|].
fold (run B config (map ETimer qs) (on_timer q st)).
assert (I' : pending_inv (on_timer q st)) by (now apply on_timer_pending).
destruct (on_timer_conserves q st i p I Hin) as [H|H].
- now apply IH.
- right. now apply run_timers_settled.
Qed.

Lemma run_timers_written ps : forall st,
written (run B config (map ETimer ps) st) = written st.
Proof.
induction ps as [|p ps IH]; intros st; simpl; [reflexivity|].
rewrite IH. now destruct (on_timer_fields p st) as (_ & Hw & _).
Qed.

End Timers.

(** X4. A tool call on a live subprocess connection that gets no reply:
    when its timer fires, its entry is removed from the table, its
    promise is rejected with "MCP request timeout: tools/call", and the
    call returns an error-status result carrying that text. *)
Theorem X4_callTool_timeout_gives_error_result :
  forall (B : Builtins) (config : Stdio.StdioMCPConfig)
         (spawned : result Stdio.ChildProcess) (evs : list Stdio.Event)
         (proc : Stdio.ChildProcess) (toolName : jsstring) (args : Json),
    let st := Stdio.session B config spawned evs in
    Stdio.process st = Some proc -> Stdio.stdin proc = true ->
    let called := Stdio.callTool config toolName args st in
    let st2 := Stdio.on_timer (Stdio.promises st) (snd called) in
    let timeout := {| message := lit "MCP request timeout: tools/call" |} in
    fst called = Stdio.Suspended (Stdio.promises st) /\
    Stdio.settled st2 =
      Stdio.settled st ++ [(Stdio.promises st, Stdio.Rejected timeout)] /\
    map_get Z.eqb (Stdio.messageId st + 1)%Z (Stdio.pendingRequests st2) = None /\
    fst (Stdio.callTool_resume B config toolName (Stdio.Rejected timeout) st2) =
      {| status := error;
         content := Some (lit "Tool execution failed: "
                            ++ lit "MCP request timeout: tools/call");
         metadata := None |}.
Proof.
  intros B config spawned evs proc toolName args st Hp Hs called st2 timeout.
  pose proof (session_pending B config spawned evs) as I. fold st in I.
  assert (I2 : StdioInv.pending_inv (snd called)).
  { change (snd called) with
      (Stdio.step B config st (Stdio.ECallTool toolName args)).
    now apply step_pending. }
  unfold st2, called in *.
  rewrite (callTool_connected config toolName args st proc Hp Hs) in *.
  cbn [fst snd] in *.
  set (T := {| Stdio.t_id := (Stdio.messageId st + 1)%Z;
               Stdio.t_promise := Stdio.promises st;
               Stdio.t_method := lit "tools/call";
               Stdio.t_delay := Stdio.TIMEOUT_MS |}) in *.
  set (st1 := Stdio.set_timers _ _) in *.
  assert (Hin : In T (Stdio.timers st1)).
  { unfold st1. cbn [Stdio.timers Stdio.set_timers]. apply in_app_iff.
    right. now left. }
  assert (Hget : map_get Z.eqb (Stdio.t_id T) (Stdio.pendingRequests st1)
                 = Some (Stdio.promises st)).
  { unfold st1. cbn. rewrite (map_get_set Z.eqb Z.eqb_eq).
    now rewrite Z.eqb_refl. }
  pose proof (on_timer_pending_entry st1 T (Stdio.promises st) I2 Hin Hget) as E.
  change (Stdio.t_promise T) with (Stdio.promises st) in E.
  split; [reflexivity|]. rewrite E. split; [reflexivity|]. split; [|reflexivity].
  cbn [Stdio.pendingRequests Stdio.settle Stdio.set_pendingRequests].
  apply (map_get_None Z.eqb Z.eqb_eq).
  intros H. apply in_map_iff in H. destruct H as [[k v] [Hk Hkv]].
  simpl in Hk. subst k.
  apply (In_map_delete Z.eqb Z.eqb_eq) in Hkv; [|exact (StdioInv.pi_keys _ I2)].
  destruct Hkv as [_ Hne]. now apply Hne.
Qed.

Lemma X4_witness :
  Stdio.settled
    (Stdio.on_timer 0
       (snd (Stdio.callTool Examples.files_config (lit "read_file") (JObj [])
               MoreExamples.connected))) =
  [(0, Stdio.Rejected {| message := lit "MCP request timeout: tools/call" |})].
Proof.
  exact (proj1 (proj2
    (X4_callTool_timeout_gives_error_result Examples.table_builtins
       Examples.files_config (Ok Examples.child) [] Examples.child
       (lit "read_file") (JObj []) eq_refl eq_refl))).
Defined.

(** X5. [listTools] on a live subprocess connection writes one
    [tools/list] request with empty parameters under the next id; when
    the reply's result is an object, [listTools] returns its [tools]
    field, and an empty array when that field is missing. *)
Theorem X5_listTools_reply_gives_tools :
  forall (B : Builtins) (config : Stdio.StdioMCPConfig) (st : Stdio.Conn)
         (proc : Stdio.ChildProcess)
         (data : Buffer) (line rest : jsstring)
         (fields rfields : list (jsstring * Json)),
    Stdio.process st = Some proc -> Stdio.stdin proc = true ->
    Stdio.frame (Stdio.buffer st) data = ([line], rest) ->
    truthy_str (trim line) = true ->
    JSON_parse B line = Some (JObj fields) ->
    lookup_field (lit "id") fields = Some (JNum (Stdio.messageId st + 1)) ->
    truthy (lookup_field (lit "error") fields) = false ->
    lookup_field (lit "result") fields = Some (JObj rfields) ->
    let sent := Stdio.listTools config st in
    let st2 := Stdio.on_data B data (snd sent) in
    fst sent = Stdio.Awaiting (Stdio.promises st) /\
    Stdio.written (snd sent) =
      Stdio.written st
      ++ [{| Stdio.rq_id := Stdio.messageId st + 1;
             Stdio.rq_method := lit "tools/list";
             Stdio.rq_params := JObj [] |}] /\
    Stdio.settled st2 =
      Stdio.settled st
      ++ [(Stdio.promises st, Stdio.Resolved (Some (JObj rfields)))] /\
    Stdio.listTools_resume (Stdio.Resolved (Some (JObj rfields))) =
      Ok (match lookup_field (lit "tools") rfields with
          | Some tools => if truthy (Some tools) then tools else JArr []
          | None => JArr []
          end).
Proof.
  intros B config st proc data line rest fields rfields
         Hp Hs Hf Ht Hparse Hid Herr Hres sent st2.
  unfold st2, sent. rewrite (listTools_connected config st proc Hp Hs).
  cbn [fst snd]. split; [reflexivity|]. split; [reflexivity|]. split.
  - unfold Stdio.on_data.
    cbn [Stdio.buffer Stdio.set_timers Stdio.write Stdio.set_pendingRequests
         Stdio.new_promise snd Stdio.set_messageId].
    rewrite Hf. cbn [fold_left].
    rewrite (reply_completes B st _ line fields (Stdio.promises st) rest
               (Stdio.Resolved (Some (JObj rfields))));
      try assumption; try reflexivity.
    unfold Stdio.response_outcome. now rewrite Herr, Hres.
  - unfold Stdio.listTools_resume. cbn [get_prop].
    destruct (lookup_field (lit "tools") rfields) as [tools|]; [|reflexivity].
    now destruct (truthy (Some tools)).
Qed.

Lemma X5_witness :
  Stdio.settled
    (Stdio.on_data MoreExamples.replies_builtins
       (MoreExamples.line_chunk MoreExamples.tools_reply_text)
       (snd (Stdio.listTools Examples.files_config MoreExamples.connected))) =
  [(0, Stdio.Resolved (Some (JObj [(lit "tools", JArr [])])))].
Proof.
  exact (proj1 (proj2 (proj2
    (X5_listTools_reply_gives_tools MoreExamples.replies_builtins
       Examples.files_config MoreExamples.connected Examples.child
       (MoreExamples.line_chunk MoreExamples.tools_reply_text)
       (lit MoreExamples.tools_reply_text) [] MoreExamples.tools_reply_fields
       [(lit "tools", JArr [])]
       eq_refl eq_refl eq_refl eq_refl eq_refl eq_refl eq_refl eq_refl)))).
Defined.

(** X6. However a subprocess connection got where it is — also after
    its process has exited — once every timer armed at that moment has
    fired, no request is left pending: the table and the timer list are
    empty, nothing more was written, and the promise of every entry
    that was in the table has been completed. *)
Theorem X6_timers_complete_every_pending_request :
  forall (B : Builtins) (config : Stdio.StdioMCPConfig)
         (spawned : result Stdio.ChildProcess) (evs : list Stdio.Event),
    let st := Stdio.session B config spawned evs in
    let st' := Stdio.run B config
                 (map Stdio.ETimer (map Stdio.t_promise (Stdio.timers st))) st in
    Stdio.pendingRequests st' = [] /\
    Stdio.timers st' = [] /\
    Stdio.written st' = Stdio.written st /\
    forall i p, In (i, p) (Stdio.pendingRequests st) ->
                In p (map fst (Stdio.settled st')).
Proof.
  intros B config spawned evs st st'.
  set (more := map Stdio.ETimer (map Stdio.t_promise (Stdio.timers st))).
  assert (Hs : st' = Stdio.session B config spawned (evs ++ more)).
  { unfold st', st, Stdio.session. now rewrite run_app. }
  pose proof (session_pending B config spawned evs) as I. fold st in I.
  pose proof (session_pending B config spawned (evs ++ more)) as I'.
  rewrite <- Hs in I'.
  assert (Ht : Stdio.timers st' = []).
  { unfold st'. apply fire_all_timers; [exact (StdioInv.pi_timers _ I)|reflexivity]. }
  assert (Hp : Stdio.pendingRequests st' = []).
  { destruct (Stdio.pendingRequests st') as [|[i p] rest] eqn:E; [reflexivity|].
    destruct (StdioInv.pi_pending _ I' i p) as [_ [t [Hin _]]].
    - rewrite E. now left.
    - rewrite Ht in Hin. destruct Hin. }
  split; [exact Hp|]. split; [exact Ht|]. split.
  - apply run_timers_written.
  - intros i p Hin.
    destruct (run_timers_conserve B config
                (map Stdio.t_promise (Stdio.timers st)) st i p I Hin)
      as [H|H]; [|exact H].
    fold st' in H. rewrite Hp in H. destruct H.
Qed.

(** X7. [close()] of a subprocess connection drops the process handle
    and leaves the pending table, the timers and the completed promises
    as they are.  From then on, whatever the connection's methods and
    callbacks do, [isConnected()] is false, a further [close()] changes
    nothing at all, and [callTool] returns the "not connected" error
    result at once. *)
Theorem X7_close_is_final_and_idempotent :
  forall (B : Builtins) (config : Stdio.StdioMCPConfig) (st : Stdio.Conn)
         (evs : list Stdio.Event) (toolName : jsstring) (args : Json),
    let closed := Stdio.close config st in
    let st' := Stdio.run B config evs closed in
    Stdio.pendingRequests closed = Stdio.pendingRequests st /\
    Stdio.timers closed = Stdio.timers st /\
    Stdio.settled closed = Stdio.settled st /\
    Stdio.isConnected st' = false /\
    Stdio.close config st' = st' /\
    fst (Stdio.callTool config toolName args st') =
      Stdio.Returned
        {| status := error;
           content := Some (lit "Tool execution failed: "
                              ++ lit "MCP server " ++ Stdio.name config
                              ++ lit " not connected");
           metadata := None |}.
Proof.
  intros B config st evs toolName args closed st'.
  assert (Hc : Stdio.process closed = None).
  { unfold closed, Stdio.close. destruct (Stdio.process st) eqn:E; [reflexivity|].
    exact E. }
  assert (H : Stdio.process st' = None) by (apply run_no_process; exact Hc).
  split; [|split; [|split]];
    try (unfold closed, Stdio.close; destruct (Stdio.process st); reflexivity).
  split; [unfold Stdio.isConnected; now rewrite H|].
  split; [unfold Stdio.close; now rewrite H|].
  now rewrite (callTool_no_process config toolName args st' H).
Qed.

Section ReadLoopEffects.
Import Stdio StdioMore.
Variable B : Builtins.

Lemma map_delete_length n p (m : list (Z * nat)) :
map_get Z.eqb n m = Some p ->
S (List.length (map_delete Z.eqb n m)) = List.length m.
Proof.
induction m as [|[k v] m IH]; simpl; [discriminate|].
destruct (Z.eqb n k); [reflexivity|].
intros H. simpl. f_equal. now apply IH.
Qed.

Lemma completes_refl st : completes st st [].
Proof.
unfold completes. rewrite app_nil_r, Nat.add_0_r.
split; [reflexivity|]. split; [apply Nat.le_refl|].
split; [apply incl_refl|]. intros x [].
Qed.

Lemma handleResponse_completes m st :
exists more, completes st (snd (handleResponse B m st)) more.
Proof.
unfold handleResponse.
destruct (read B (Some m) (lit "id")) as [id|e];
  [|exists []; apply completes_refl].
unfold pending_get, pending_delete.
destruct id as [[| | n | | |]|];
  try (exists []; apply completes_refl).
destruct (map_get Z.eqb n (pendingRequests st)) as [p|] eqn:G;
  [|exists []; apply completes_refl].
pose proof (map_delete_length n p _ G) as L.
assert (K : forall s,
           completes st
             (settle p s
                (set_pendingRequests
                   (map_delete Z.eqb n (pendingRequests st)) st))
             [(p, s)]).
{ intros s. unfold completes.
  cbn [settled pendingRequests settle set_pendingRequests List.length map fst].
  repeat split.
  - lia.
  - apply map_delete_incl.
  - intros x [<-|[]]. apply (map_get_In Z.eqb Z.eqb_eq) in G.
    apply in_map_iff. exists (n, p). auto. }
assert (D : completes st
              (set_pendingRequests
                 (map_delete Z.eqb n (pendingRequests st)) st) []).
{ unfold completes.
  cbn [settled pendingRequests set_pendingRequests List.length map].
  rewrite app_nil_r. repeat split.
  - lia.
  - apply map_delete_incl.
  - intros x []. }
repeat break_inner; cbn [snd]; eexists; first [apply K|exact D].
Qed.

Lemma process_line_completes st line :
exists more, completes st (process_line B st line) more.
Proof.
unfold process_line.
destruct (truthy_str (trim line)); [|exists []; apply completes_refl].
destruct (JSON_parse B line) as [m|];
  [|exists []; exact (completes_refl st)].
destruct (handleResponse_completes m st) as [more H].
destruct (handleResponse B m st) as [[u|e] st1]; cbn [snd] in H;
  exists more; exact H.
Qed.

Lemma fold_process_line_completes lines : forall st,
exists more, completes st (fold_left (process_line B) lines st) more.
Proof.
induction lines as [|l ls IH]; intros st; simpl.
- exists []. apply completes_refl.
- destruct (process_line_completes st l) as [m1 (S1 & L1 & I1 & P1)].
  destruct (IH (process_line B st l)) as [m2 (S2 & L2 & I2 & P2)].
  exists (m1 ++ m2). unfold completes. repeat split.
  + now rewrite S2, S1, app_assoc.
  + rewrite length_app. lia.
  + eapply incl_tran; eauto.
  + rewrite map_app. apply incl_app; [exact P1|].
    eapply incl_tran; [exact P2|]. now apply incl_map.
Qed.

End ReadLoopEffects.

(** X8. The stdout handler only completes requests: whatever the chunk,
    it writes nothing to the child, arms and disarms no timer, takes no
    request id and leaves the process handle alone.  The promises it
    completes are appended to those completed before; each of them had
    an entry in the pending table, at least one entry leaves the table
    for each of them, and no entry is added. *)
Theorem X8_stdout_handler_only_completes_requests :
  forall (B : Builtins) (data : Buffer) (st : Stdio.Conn),
    let st' := Stdio.on_data B data st in
    Stdio.written st' = Stdio.written st /\
    Stdio.timers st' = Stdio.timers st /\
    Stdio.messageId st' = Stdio.messageId st /\
    Stdio.promises st' = Stdio.promises st /\
    Stdio.process st' = Stdio.process st /\
    exists more, StdioMore.completes st st' more.
Proof.
  intros B data st st'.
  destruct (on_data_fields B data st) as (H1 & H2 & H3 & H4 & H5).
  fold st' in H1, H2, H3, H4, H5.
  repeat (split; [assumption|]).
  unfold st', Stdio.on_data. destruct (Stdio.frame (Stdio.buffer st) data) as [lines buf].
  destruct (fold_process_line_completes B lines (Stdio.set_buffer buf st))
    as [more H].
  exists more. exact H.
Qed.

Section SplitJoin.
Import Stdio StdioMore.

Lemma split_join s :
let r := array_pop (split_nl s) in
terminated (fst r) ++ or_empty (snd r) = s /\
Forall (fun l => ~ In NL l) (fst r) /\
~ In NL (or_empty (snd r)).
Proof.
induction s as [|c s IH]; cbn zeta.
- rewrite pop_split_nil. simpl. repeat split; [constructor|tauto].
- cbn zeta in IH. destruct IH as (J & F & R).
  destruct (pop_split_some s) as [t Ht]. rewrite Ht in J, R. simpl in J, R.
  destruct (N.eqb c NL) eqn:E.
  + apply N.eqb_eq in E. subst c. rewrite pop_split_newline. rewrite Ht.
    cbn [fst snd or_empty terminated flat_map app].
    repeat split.
    * f_equal. exact J.
    * constructor; [tauto|exact F].
    * exact R.
  + rewrite (pop_split_char _ _ E). rewrite Ht.
    assert (Hc : c <> NL) by (now apply N.eqb_neq).
    destruct (fst (array_pop (split_nl s))) as [|l ls];
      cbn [fst snd or_empty option_map terminated flat_map app] in *.
    * repeat split; [now f_equal|constructor|].
      intros [H|H]; [congruence|contradiction].
    * apply Forall_cons_iff in F. destruct F as [Fl Fls]. repeat split.
      -- rewrite <- J. reflexivity.
      -- constructor; [|assumption]. intros [H|H]; [congruence|contradiction].
      -- exact R.
Qed.

End SplitJoin.

(** X9. Framing loses nothing and splits exactly at the newlines: the
    lines taken out of the buffer, each followed by a newline, and then
    the fragment retained, spell the old buffer followed by the decoded
    chunk; no line and no retained fragment holds a newline.  So the
    buffer of the handler never holds a complete line. *)
Theorem X9_framing_splits_exactly_at_newlines :
  forall (B : Builtins) (st : Stdio.Conn) (data : Buffer),
    let framed := Stdio.frame (Stdio.buffer st) data in
    StdioMore.terminated (fst framed) ++ snd framed =
      Stdio.buffer st ++ Buffer_toString data /\
    Forall (fun line => ~ In NL line) (fst framed) /\
    ~ In NL (snd framed) /\
    Stdio.buffer (Stdio.on_data B data st) = snd framed.
Proof.
  intros B st data framed.
  destruct (split_join (Stdio.buffer st ++ Buffer_toString data)) as (J & F & R).
  unfold framed. rewrite frame_text. cbn [fst snd].
  repeat split; try assumption.
  rewrite on_data_buffer. now rewrite frame_text.
Qed.

(** X10. Chunk boundaries that fall between characters do not matter.
    When every chunk of a sequence ends between two characters — as
    every chunk of pure ASCII output does — the handler takes out of the
    chunks the lines it takes out of their concatenation, retains the
    same fragment, and leaves the connection in the same state as if
    the bytes had arrived in one chunk. *)
Theorem X10_chunk_boundaries_between_characters_do_not_matter :
  forall (B : Builtins) (config : Stdio.StdioMCPConfig) (st : Stdio.Conn)
         (chunk : Buffer) (chunks : list Buffer),
    Forall (fun c => on_boundary c = true) (chunk :: chunks) ->
    Stdio.framed (chunk :: chunks) (Stdio.buffer st) =
      Stdio.frame (Stdio.buffer st) (chunk ++ List.concat chunks) /\
    Stdio.run B config (map Stdio.EData (chunk :: chunks)) st =
      Stdio.on_data B (chunk ++ List.concat chunks) st /\
    forall c, Forall (fun b => (Byte.to_N b <= 127)%N) c -> on_boundary c = true.
Proof.
  intros B config st chunk chunks H.
  split; [now apply framed_concat|]. split; [|apply ascii_on_boundary].
  rewrite run_data, (framed_concat chunks chunk _ H).
  unfold Stdio.on_data.
  now destruct (Stdio.frame (Stdio.buffer st) (chunk ++ List.concat chunks)).
Qed.

Lemma X10_witness :
  Stdio.run MoreExamples.replies_builtins Examples.files_config
    (map Stdio.EData [Examples.ascii_bytes "{"; MoreExamples.line_chunk "}"])
    MoreExamples.connected =
  Stdio.on_data MoreExamples.replies_builtins
    (Examples.ascii_bytes "{" ++ List.concat [MoreExamples.line_chunk "}"])
    MoreExamples.connected.
Proof.
  apply (X10_chunk_boundaries_between_characters_do_not_matter
           MoreExamples.replies_builtins Examples.files_config
           MoreExamples.connected).
  repeat constructor.
Defined.

(* ===================================================================== *)
(** * Requests whose entry is removed without their promise completed    *)
(* ===================================================================== *)

Section LostRequests.
Import Stdio StdioInv StdioMore.
Variable B : Builtins.
Variable config : StdioMCPConfig.

Lemma map_set_vals (k : Z) (v : nat) w (m : list (Z * nat)) :
In w (map snd (map_set Z.eqb k v m)) -> w = v \/ In w (map snd m).
Proof.
induction m as [|[k0 v0] m IH]; simpl.
- intros [H|[]]. now left.
- destruct (Z.eqb k k0); simpl.
  + intros [H|H]; [now left|right; now right].
  + intros [H|H]; [right; now left|]. destruct (IH H); auto.
Qed.

(** A promise that is neither completed nor in the table stays so:
  the handlers complete only promises they find in the table, and
  [sendRequest] files only new ones. *)
Lemma step_never_completes st ev p :
pending_inv st -> p < promises st ->
~ In p (map fst (settled st)) ->
~ In p (map snd (pendingRequests st)) ->
p < promises (step B config st ev) /\
~ In p (map fst (settled (step B config st ev))) /\
~ In p (map snd (pendingRequests (step B config st ev))).
Proof.
intros I Hlt Hs Hp.
destruct ev as [|toolName targs|data|data|e|q|code|]; cbn [step].
- unfold listTools, nextMessageId, sendRequest, new_promise. cbn.
  destruct (process st) as [proc|]; [destruct (stdin proc)|]; cbn;
    try (repeat split; assumption).
  split; [lia|]. split; [assumption|].
  intros H. apply map_set_vals in H. destruct H as [H|H]; [lia|auto].
- unfold callTool, callToolImpl, nextMessageId, sendRequest, new_promise.
  cbn.
  destruct (process st) as [proc|]; [destruct (stdin proc)|]; cbn;
    try (repeat split; assumption).
  split; [lia|]. split; [assumption|].
  intros H. apply map_set_vals in H. destruct H as [H|H]; [lia|auto].
- destruct (on_data_fields B data st) as (_ & _ & _ & _ & Hn).
  rewrite Hn. split; [assumption|].
  unfold on_data. destruct (frame (buffer st) data) as [lines buf].
  destruct (fold_process_line_completes B lines (set_buffer buf st))
    as [more (S1 & _ & I1 & P1)].
  cbn [settled pendingRequests set_buffer] in S1, I1, P1.
  split.
  + rewrite S1, map_app, in_app_iff. intros [H|H]; [auto|].
    apply Hp. now apply P1.
  + intros H. apply Hp. revert H. now apply incl_map.
- cbn. auto.
- cbn. auto.
- unfold on_timer.
  destruct (find (fun t => Nat.eqb (t_promise t) q) (timers st)) as [t|] eqn:F;
    [|auto].
  apply find_some in F. destruct F as [Ht _].
  unfold timeout_callback, map_has. cbn [pendingRequests set_timers].
  destruct (map_get Z.eqb (t_id t) (pendingRequests st)) as [p'|] eqn:G;
    cbn [promises settled pendingRequests settle set_pendingRequests
         set_timers]; [|auto].
  apply (map_get_In Z.eqb Z.eqb_eq) in G.
  destruct (pi_timer _ I t Ht) as (_ & _ & _ & H4).
  pose proof (H4 p' G) as E. subst p'.
  split; [assumption|]. split.
  + rewrite map_app, in_app_iff. intros [H|[H|[]]]; [auto|].
    cbn [fst] in H. apply Hp. rewrite <- H.
    apply in_map_iff. exists (t_id t, t_promise t). auto.
  + intros H. apply Hp. revert H. apply incl_map, map_delete_incl.
- cbn. auto.
- unfold close. destruct (process st); cbn; auto.
Qed.

Lemma run_never_completes evs : forall st p,
pending_inv st -> p < promises st ->
~ In p (map fst (settled st)) ->
~ In p (map snd (pendingRequests st)) ->
~ In p (map fst (settled (run B config evs st))).
Proof.
induction evs as [|ev evs IH]; intros st p I Hlt Hs Hp; cbn [run fold_left];
  [assumption|].
destruct (step_never_completes st ev p I Hlt Hs Hp) as (H1 & H2 & H3).
apply IH; auto. now apply step_pending.
Qed.

End LostRequests.

(** C4, at an input where the code departs from the specification.  A
    tool call is submitted on a connected subprocess connection: its
    request is written and its entry filed under the next id.  The
    child answers with a line carrying that id and an [error] object
    whose [message] cannot be converted to a string, as with the reply
    [{"id":1,"error":{"message":{"toString":1}}}].  [handleResponse]
    has deleted the entry when [new Error] throws, so the entry is gone
    and the promise is neither resolved nor rejected; and whatever
    happens afterwards — the timer of the request, further replies,
    further calls — it never is: the request is completed zero times. *)
Theorem C4_error_reply_leaves_request_uncompleted :
  forall (B : Builtins) (config : Stdio.StdioMCPConfig)
         (spawned : result Stdio.ChildProcess) (evs : list Stdio.Event)
         (proc : Stdio.ChildProcess) (toolName : jsstring) (args : Json)
         (data : Buffer) (line rest : jsstring)
         (fields efields : list (jsstring * Json)) (e : Error)
         (later : list Stdio.Event),
    let st := Stdio.session B config spawned evs in
    Stdio.process st = Some proc -> Stdio.stdin proc = true ->
    Stdio.frame (Stdio.buffer st) data = ([line], rest) ->
    truthy_str (trim line) = true ->
    JSON_parse B line = Some (JObj fields) ->
    lookup_field (lit "id") fields = Some (JNum (Stdio.messageId st + 1)) ->
    lookup_field (lit "error") fields = Some (JObj efields) ->
    Stdio.new_Error B (lookup_field (lit "message") efields) = Throw e ->
    let called := Stdio.callTool config toolName args st in
    let st2 := Stdio.on_data B data (snd called) in
    fst called = Stdio.Suspended (Stdio.promises st) /\
    Stdio.written (snd called) =
      Stdio.written st
      ++ [{| Stdio.rq_id := Stdio.messageId st + 1;
             Stdio.rq_method := lit "tools/call";
             Stdio.rq_params := JObj [(lit "name", JStr toolName);
                                      (lit "arguments", args)] |}] /\
    map_get Z.eqb (Stdio.messageId st + 1)%Z
            (Stdio.pendingRequests (snd called)) = Some (Stdio.promises st) /\
    map_get Z.eqb (Stdio.messageId st + 1)%Z (Stdio.pendingRequests st2) = None /\
    Stdio.settled st2 = Stdio.settled st /\
    ~ In (Stdio.promises st)
         (map fst (Stdio.settled (Stdio.run B config later st2))).
Proof.
  intros B config spawned evs proc toolName args data line rest fields efields
         e later st Hp Hs Hf Ht Hparse Hid Herr He called st2.
  pose proof (session_pending B config spawned evs) as I. fold st in I.
  assert (I1 : StdioInv.pending_inv (snd called)).
  { change (snd called) with
      (Stdio.step B config st (Stdio.ECallTool toolName args)).
    now apply step_pending. }
  assert (I2 : StdioInv.pending_inv st2).
  { change st2 with (Stdio.step B config (snd called) (Stdio.EData data)).
    now apply step_pending. }
  assert (Hout : Stdio.response_outcome B fields = Throw e)
    by (unfold Stdio.response_outcome; now rewrite Herr, He).
  assert (Hfresh : ~ In (Stdio.promises st) (map fst (Stdio.settled st))).
  { intros H. apply (StdioInv.pi_bound _ I) in H. lia. }
  assert (E2 : st2 =
    Stdio.logger
      (LError (lit "Failed to parse MCP response: " ++ line) (Some e))
      (Stdio.set_pendingRequests
         (map_delete Z.eqb (Stdio.messageId st + 1)%Z
            (Stdio.pendingRequests (snd called)))
         (Stdio.set_buffer rest (snd called)))).
  { unfold st2, called.
    rewrite (callTool_connected config toolName args st proc Hp Hs).
    cbn [snd]. unfold Stdio.on_data.
    cbn [Stdio.buffer Stdio.set_timers Stdio.write Stdio.set_pendingRequests
         Stdio.new_promise snd Stdio.set_messageId Stdio.logger Stdio.set_log].
    rewrite Hf. cbn [fold_left].
    rewrite (reply_handled B st _ line fields (Stdio.promises st) rest);
      try assumption; try reflexivity.
    cbv zeta. now rewrite Hout. }
  assert (Ec : fst called = Stdio.Suspended (Stdio.promises st) /\
               Stdio.written (snd called) =
                 Stdio.written st
                 ++ [{| Stdio.rq_id := Stdio.messageId st + 1;
                        Stdio.rq_method := lit "tools/call";
                        Stdio.rq_params := JObj [(lit "name", JStr toolName);
                                                 (lit "arguments", args)] |}] /\
               Stdio.pendingRequests (snd called) =
                 map_set Z.eqb (Stdio.messageId st + 1)%Z (Stdio.promises st)
                         (Stdio.pendingRequests st) /\
               Stdio.settled (snd called) = Stdio.settled st /\
               Stdio.promises (snd called) = S (Stdio.promises st)).
  { unfold called.
    rewrite (callTool_connected config toolName args st proc Hp Hs).
    repeat split. }
  destruct Ec as (C1 & C2 & C3 & C4 & C5).
  assert (Hgone : ~ In (Stdio.messageId st + 1)%Z
                       (map fst (Stdio.pendingRequests st2))).
  { rewrite E2. cbn [Stdio.pendingRequests Stdio.logger Stdio.set_log
                     Stdio.set_pendingRequests].
    intros H. apply in_map_iff in H. destruct H as [[k v] [Hk Hkv]].
    simpl in Hk. subst k.
    apply (In_map_delete Z.eqb Z.eqb_eq) in Hkv;
      [|exact (StdioInv.pi_keys _ I1)].
    destruct Hkv as [_ Hne]. now apply Hne. }
  split; [exact C1|]. split; [exact C2|]. split.
  { rewrite C3, (map_get_set Z.eqb Z.eqb_eq). now rewrite Z.eqb_refl. }
  split; [now apply (map_get_None Z.eqb Z.eqb_eq)|].
  assert (S2 : Stdio.settled st2 = Stdio.settled st)
    by (rewrite E2; exact C4).
  split; [exact S2|].
  apply run_never_completes.
  - exact I2.
  - rewrite E2. cbn [Stdio.promises Stdio.logger Stdio.set_log
                     Stdio.set_pendingRequests Stdio.set_buffer].
    rewrite C5. lia.
  - now rewrite S2.
  - intros H. apply in_map_iff in H. destruct H as [[k v] [Hv Hkv]].
    simpl in Hv. subst v.
    assert (Hin1 : In (k, Stdio.promises st)
                      (Stdio.pendingRequests (snd called))).
    { rewrite E2 in Hkv.
      cbn [Stdio.pendingRequests Stdio.logger Stdio.set_log
           Stdio.set_pendingRequests] in Hkv.
      now apply (map_delete_incl Z.eqb) in Hkv. }
    assert (Hin2 : In ((Stdio.messageId st + 1)%Z, Stdio.promises st)
                      (Stdio.pendingRequests (snd called))).
    { apply (map_get_In Z.eqb Z.eqb_eq).
      rewrite C3, (map_get_set Z.eqb Z.eqb_eq). now rewrite Z.eqb_refl. }
    pose proof (NoDup_map_inj snd _ _ _ (StdioInv.pi_vals _ I1) Hin1 Hin2
                  eq_refl) as E.
    injection E as ->. apply Hgone.
    apply in_map_iff. exists ((Stdio.messageId st + 1)%Z, Stdio.promises st).
    auto.
Qed.

Lemma C4_witness :
  let st2 :=
    Stdio.on_data Examples.table_builtins
      (Examples.ascii_bytes Examples.stuck_reply_text ++ [x0a])
      (snd (Stdio.callTool Examples.files_config (lit "read_file") (JObj [])
              (Stdio.session Examples.table_builtins Examples.files_config
                 (Ok Examples.child) []))) in
  map_get Z.eqb 1%Z (Stdio.pendingRequests st2) = None /\
  Stdio.settled st2 = [] /\
  ~ In 0 (map fst (Stdio.settled
                     (Stdio.run Examples.table_builtins Examples.files_config
                        [Stdio.ETimer 0] st2))).
Proof.
  exact (proj2 (proj2 (proj2
    (C4_error_reply_leaves_request_uncompleted Examples.table_builtins
       Examples.files_config (Ok Examples.child) [] Examples.child
       (lit "read_file") (JObj [])
       (Examples.ascii_bytes Examples.stuck_reply_text ++ [x0a])
       (lit Examples.stuck_reply_text) [] Examples.stuck_reply_fields
       [(lit "message", Examples.stuck_message)] Examples.not_primitive
       [Stdio.ETimer 0]
       eq_refl eq_refl eq_refl eq_refl eq_refl eq_refl eq_refl eq_refl)))).
Defined.

(** X23. What does hold of the pending table along every session of a
    subprocess connection.  No promise is completed twice.  A request
    written to the child is completed with no entry left under its id,
    or not completed with its entry in the table and its timer of
    30000 ms armed, or not completed with no entry either.  A response
    carrying the id of a pending entry removes the entry and then
    completes its promise — rejecting on a truthy [error], resolving
    with [result] otherwise — unless [new Error] throws, in which case
    the entry is removed and [handleResponse] throws.  The timer of a
    pending entry removes it and rejects with a timeout error.  A
    response whose id has no pending entry, and a timer whose entry is
    gone, complete nobody. *)
Theorem X23_no_promise_is_completed_twice :
  forall (B : Builtins) (config : Stdio.StdioMCPConfig)
         (spawned : result Stdio.ChildProcess) (evs : list Stdio.Event),
    let st := Stdio.session B config spawned evs in
    NoDup (map fst (Stdio.settled st)) /\
    (forall p r, nth_error (Stdio.written st) p = Some r ->
       (In p (map fst (Stdio.settled st)) /\
        map_get Z.eqb (Stdio.rq_id r) (Stdio.pendingRequests st) = None)
       \/
       (~ In p (map fst (Stdio.settled st)) /\
        map_get Z.eqb (Stdio.rq_id r) (Stdio.pendingRequests st) = Some p /\
        exists t, In t (Stdio.timers st) /\ Stdio.t_promise t = p /\
                  Stdio.t_id t = Stdio.rq_id r /\ Stdio.t_delay t = 30000%Z)
       \/
       (~ In p (map fst (Stdio.settled st)) /\
        map_get Z.eqb (Stdio.rq_id r) (Stdio.pendingRequests st) = None)) /\
    (forall fields n p,
       lookup_field (lit "id") fields = Some (JNum n) ->
       map_get Z.eqb n (Stdio.pendingRequests st) = Some p ->
       Stdio.handleResponse B (JObj fields) st =
       let st' :=
         Stdio.set_pendingRequests
           (map_delete Z.eqb n (Stdio.pendingRequests st)) st in
       match Stdio.response_outcome B fields with
       | Ok s => (Ok tt, Stdio.settle p s st')
       | Throw e => (Throw e, st')
       end) /\
    (forall t p,
       In t (Stdio.timers st) ->
       map_get Z.eqb (Stdio.t_id t) (Stdio.pendingRequests st) = Some p ->
       p = Stdio.t_promise t /\
       Stdio.on_timer (Stdio.t_promise t) st =
       Stdio.settle (Stdio.t_promise t)
         (Stdio.Rejected
            {| message := lit "MCP request timeout: " ++ Stdio.t_method t |})
         (Stdio.set_pendingRequests
            (map_delete Z.eqb (Stdio.t_id t) (Stdio.pendingRequests st))
            (Stdio.set_timers
               (filter (fun t' => negb (Nat.eqb (Stdio.t_promise t')
                                                (Stdio.t_promise t)))
                       (Stdio.timers st)) st))) /\
    (forall message id,
       get_prop (Some message) (lit "id") = Some id ->
       Stdio.pending_get id st = None ->
       Stdio.handleResponse B message st = (Ok tt, st)) /\
    (forall t,
       In t (Stdio.timers st) ->
       map_get Z.eqb (Stdio.t_id t) (Stdio.pendingRequests st) = None ->
       Stdio.on_timer (Stdio.t_promise t) st =
       Stdio.set_timers
         (filter (fun t' => negb (Nat.eqb (Stdio.t_promise t')
                                          (Stdio.t_promise t)))
                 (Stdio.timers st)) st).
Proof.
  intros B config spawned evs st.
  pose proof (session_pending B config spawned evs) as I.
  pose proof (session_written B config spawned evs) as W.
  destruct (run_ids B config evs _ (connect_ids config spawned)) as [S _].
  fold (Stdio.session B config spawned evs) in S. fold st in I, W, S.
  split; [exact (StdioInv.pi_settled _ I)|].
  split; [intros p r Hr; exact (request_status st p r S I W Hr)|].
  split; [intros fields n p; apply handleResponse_matching|].
  split.
  { intros t p Ht Hp. split.
    - destruct (StdioInv.pi_timer _ I t Ht) as (_ & _ & _ & H4).
      apply H4. now apply (map_get_In Z.eqb Z.eqb_eq).
    - eapply on_timer_pending_entry; eauto. }
  split; [intros message id; apply handleResponse_unmatched|].
  intros t Ht Hp. now apply on_timer_no_entry.
Qed.

Lemma X23_witness :
  (* the reply arrives while the request waits: its promise is resolved *)
  Stdio.handleResponse Examples.table_builtins Examples.reply_value
                       Examples.waiting =
  (Ok tt,
   Stdio.settle 0
     (Stdio.Resolved (Some (JObj [(lit "content", JStr (lit "hi"))])))
     (Stdio.set_pendingRequests [] Examples.waiting))
  /\
  (* the timer fires while the request waits: its promise is rejected *)
  Stdio.settled (Stdio.on_timer 0 Examples.waiting) =
  [(0, Stdio.Rejected {| message := lit "MCP request timeout: tools/call" |})]
  /\
  (* the reply arrives after the timeout: it is dropped *)
  Stdio.handleResponse Examples.table_builtins Examples.reply_value
                       Examples.timed_out =
  (Ok tt, Examples.timed_out).
Proof.
  pose proof (X23_no_promise_is_completed_twice
                Examples.table_builtins Examples.files_config
                (Ok Examples.child)
                [Stdio.ECallTool (lit "read_file") (JObj [])]) as W.
  pose proof (X23_no_promise_is_completed_twice
                Examples.table_builtins Examples.files_config
                (Ok Examples.child)
                [Stdio.ECallTool (lit "read_file") (JObj []); Stdio.ETimer 0]) as T.
  cbv zeta in W, T.
  destruct W as (_ & _ & Wr & Wt & _).
  destruct T as (_ & _ & _ & _ & Td & _).
  split; [|split].
  - exact (Wr [(lit "id", JNum 1);
                (lit "result", JObj [(lit "content", JStr (lit "hi"))])]
              1%Z 0 eq_refl eq_refl).
  - destruct (Wt Examples.first_timer 0 (or_introl eq_refl) eq_refl) as [_ E].
    change (Stdio.t_promise Examples.first_timer) with 0 in E.
    unfold Examples.waiting. rewrite E. reflexivity.
  - exact (Td Examples.reply_value (Some (JNum 1)) eq_refl eq_refl).
Defined.

(* ===================================================================== *)
(** * Further properties of the HTTP connection                           *)
(* ===================================================================== *)

(** X11. [callTool] of an HTTP connection never throws and makes
    exactly one request, a POST of the tool's name and arguments to the
    configured URL followed by [/tools/call].  A rejected [fetch] gives
    an error-status result with the error text, a response that is not
    ok gives one with "HTTP", the status code and the body text, and an
    ok response with a JSON object gives a success-status result with
    the stringified [content] field and the server's name. *)
Theorem X11_http_callTool_returns_a_result :
  forall (config : Http.HttpMCPConfig) (B : Builtins) (toolName : jsstring)
         (args : Json) (answer : result Http.Response) (st : Http.Conn),
    let res := Http.callTool config B toolName args answer st in
    Http.fetched (snd res) =
      Http.fetched st ++
      [{| Http.f_url := Http.url config ++ lit "/tools/call";
          Http.f_method := lit "POST";
          Http.f_headers := Http.merged_headers config;
          Http.f_body := JObj [(lit "name", JStr toolName);
                               (lit "arguments", args)] |}] /\
    (forall e, answer = Throw e ->
       fst res = {| status := error;
                    content := Some (lit "Tool execution failed: " ++ message e);
                    metadata := None |}) /\
    (forall response body,
       answer = Ok response -> Http.ok response = false ->
       Http.text response = Ok body ->
       fst res = {| status := error;
                    content := Some (lit "Tool execution failed: "
                                       ++ lit "HTTP "
                                       ++ decimal (Http.status response)
                                       ++ lit ": " ++ body);
                    metadata := None |}) /\
    (forall response fields,
       answer = Ok response -> Http.ok response = true ->
       Http.json response = Ok (JObj fields) ->
       fst res = {| status := success;
                    content := option_map (JSON_stringify B)
                                          (lookup_field (lit "content") fields);
                    metadata := Some (Http.name config) |}).
Proof.
  intros config B toolName args answer st res.
  unfold res, Http.callTool, Http.callToolImpl, Http.httpRequest.
  split; [|split; [|split]].
  - repeat break_inner; reflexivity.
  - intros e ->. reflexivity.
  - intros response body -> Hok Hb. cbn. now rewrite Hok, Hb.
  - intros response fields -> Hok Hj. cbn. now rewrite Hok, Hj.
Qed.

Lemma X11_witness :
  fst (Http.callTool Examples.web_config Examples.table_builtins (lit "search")
         (JObj []) (Throw Examples.refused) Http.fresh) =
  {| status := error;
     content := Some (lit "Tool execution failed: " ++ lit "fetch failed");
     metadata := None |}.
Proof.
  exact (proj1 (proj2
    (X11_http_callTool_returns_a_result Examples.web_config
       Examples.table_builtins (lit "search") (JObj [])
       (Throw Examples.refused) Http.fresh)) Examples.refused eq_refl).
Defined.

Section Headers.

Lemma fold_set_other k (hs : list (jsstring * jsstring)) : forall m,
~ In k (map fst hs) ->
map_get str_eqb k
  (fold_left (fun m kv => map_set str_eqb (fst kv) (snd kv) m) hs m) =
map_get str_eqb k m.
Proof.
induction hs as [|[k0 v0] hs IH]; intros m H; simpl; [reflexivity|].
rewrite IH by (intros Hin; apply H; now right).
rewrite (map_get_set str_eqb str_eqb_eq).
destruct (str_eqb k k0) eqn:E; [|reflexivity].
apply str_eqb_eq in E. subst k0. exfalso. apply H. now left.
Qed.

Lemma fold_set_given k v (hs : list (jsstring * jsstring)) : forall m,
NoDup (map fst hs) -> In (k, v) hs ->
map_get str_eqb k
  (fold_left (fun m kv => map_set str_eqb (fst kv) (snd kv) m) hs m) = Some v.
Proof.
induction hs as [|[k0 v0] hs IH]; intros m ND H; simpl; [destruct H|].
inversion ND as [|? ? Hn ND']; subst.
destruct H as [H|H].
- injection H as -> ->. rewrite fold_set_other by assumption.
  rewrite (map_get_set str_eqb str_eqb_eq).
  now rewrite (proj2 (str_eqb_eq k k) eq_refl).
- now apply IH.
Qed.

End Headers.

(** X12. The [headers] object an HTTP connection hands to [fetch],
    whose property names are compared exactly as written: each header
    the configuration supplies is in it with the supplied value; the
    property [Content-Type] is [application/json] unless the
    configuration supplies a property of exactly this name, which then
    replaces it; and the object has no other property.  A supplied
    [content-type] in lower case is another property: it does not
    replace the default, and the object holds both.  (What [fetch]
    sends for such an object is the platform's matter.) *)
Theorem X12_supplied_headers_override_the_default :
  forall (config : Http.HttpMCPConfig) (supplied : list (jsstring * jsstring)),
    Http.headers config = Some supplied ->
    NoDup (map fst supplied) ->
    let object := Http.merged_headers config in
    (forall k v, In (k, v) supplied -> map_get str_eqb k object = Some v) /\
    (~ In (lit "Content-Type") (map fst supplied) ->
     map_get str_eqb (lit "Content-Type") object
       = Some (lit "application/json")) /\
    (forall k, k <> lit "Content-Type" -> ~ In k (map fst supplied) ->
               map_get str_eqb k object = None) /\
    (forall v, In (lit "content-type", v) supplied ->
               ~ In (lit "Content-Type") (map fst supplied) ->
               map_get str_eqb (lit "content-type") object = Some v /\
               map_get str_eqb (lit "Content-Type") object
                 = Some (lit "application/json")).
Proof.
  intros config supplied Hs ND object. unfold object, Http.merged_headers.
  rewrite Hs.
  assert (H1 : forall k v, In (k, v) supplied ->
             map_get str_eqb k
               (fold_left (fun m kv => map_set str_eqb (fst kv) (snd kv) m)
                          supplied
                          [(lit "Content-Type", lit "application/json")])
             = Some v)
    by (intros k v Hin; now apply fold_set_given).
  assert (H2 : ~ In (lit "Content-Type") (map fst supplied) ->
             map_get str_eqb (lit "Content-Type")
               (fold_left (fun m kv => map_set str_eqb (fst kv) (snd kv) m)
                          supplied
                          [(lit "Content-Type", lit "application/json")])
             = Some (lit "application/json"))
    by (intros Hn; rewrite fold_set_other by assumption; reflexivity).
  split; [exact H1|]. split; [exact H2|]. split.
  - intros k Hk Hn. rewrite fold_set_other by assumption. simpl.
    destruct (str_eqb k (lit "Content-Type")) eqn:E; [|reflexivity].
    apply str_eqb_eq in E. contradiction.
  - intros v Hin Hn. split; [now apply H1|now apply H2].
Qed.

Lemma X12_witness :
  map_get str_eqb (lit "Content-Type")
    (Http.merged_headers
       {| Http.name := lit "web"; Http.url := lit "http://localhost:3000/mcp";
          Http.headers := Some [(lit "Authorization", lit "Bearer t");
                                (lit "Content-Type", lit "text/plain")] |}) =
  Some (lit "text/plain").
Proof.
  refine (proj1 (X12_supplied_headers_override_the_default
            {| Http.name := lit "web"; Http.url := lit "http://localhost:3000/mcp";
               Http.headers := Some [(lit "Authorization", lit "Bearer t");
                                     (lit "Content-Type", lit "text/plain")] |}
            [(lit "Authorization", lit "Bearer t");
             (lit "Content-Type", lit "text/plain")] eq_refl _)
            (lit "Content-Type") (lit "text/plain") _).
  - repeat constructor; simpl; intros H.
    + destruct H as [H|[]]. vm_compute in H. discriminate.
    + destruct H.
  - right. now left.
Defined.

(* ===================================================================== *)
(** * Further properties of the tool client                               *)
(* ===================================================================== *)

Section MoreDiscovery.
Import Client.
Variable E : Env.

Lemma combine_app {A C} (a a' : list A) (l l' : list C) :
List.length a = List.length l ->
combine (a ++ a') (l ++ l') = combine a l ++ combine a' l'.
Proof.
revert l. induction a as [|x a IH]; destruct l as [|y l]; simpl;
  intros H; try discriminate; [reflexivity|].
f_equal. apply IH. now injection H.
Qed.

Lemma discover_from_tools serverType conns : forall st,
let st' := discoverToolsFromConnections E conns serverType st in
exists lists,
  trace st' = trace st ++ lists /\
  map listTools_of lists = map Some (map snd conns) /\
  discoveredTools st' =
    discoveredTools st
    ++ flat_map (fun p => Wrapper.listed_tools (fst p) (snd p))
                (combine conns lists).
Proof.
unfold discoverToolsFromConnections.
induction conns as [|[server c] conns IH]; intros st; cbn [fold_left].
- exists []. now rewrite !app_nil_r.
- destruct (IH (discover_one E serverType st (server, c)))
    as (ls & Ht & Hm & Hd).
  exists (IListTools c (listTools_outcome E (trace st) c) :: ls).
  unfold discover_one, await_listTools in *.
  cbn [combine flat_map map listTools_of fst snd Wrapper.listed_tools] in *.
  destruct (listTools_outcome E (trace st) c) as [tools|e];
    cbn [trace discoveredTools set_discoveredTools logger record] in *.
  + split; [rewrite Ht, <- app_assoc; reflexivity|].
    split; [now rewrite Hm|]. rewrite Hd. now rewrite <- app_assoc.
  + split; [rewrite Ht, <- app_assoc; reflexivity|].
    split; [now rewrite Hm|]. exact Hd.
Qed.

Lemma discoverTools_servers st :
stdioServers (snd (discoverTools E st)) = stdioServers st /\
httpServers (snd (discoverTools E st)) = httpServers st.
Proof.
unfold discoverTools. cbn [snd].
set (st1 := set_discoveredTools [] st).
destruct (discover_from_servers E (lit "stdio") (stdioServers st1) st1)
  as [S1 H1].
set (st2 := discoverToolsFromConnections E (stdioServers st1) (lit "stdio") st1)
  in *.
destruct (discover_from_servers E (lit "HTTP") (httpServers st2) st2)
  as [S2 H2].
split; [now rewrite S2, S1|now rewrite H2, H1].
Qed.

End MoreDiscovery.

(** X13. A discovery pass drops the tools discovered before and asks
    every registered connection once for its tools, subprocess servers
    first and each registry in insertion order.  The new tool set is, in
    that order, the wrappers of the descriptors of every connection
    whose [listTools()] succeeded; a connection whose [listTools()]
    threw contributes nothing and stops nothing.  The registries are
    left as they are. *)
Theorem X13_discovery_collects_successful_listings :
  forall (E : Client.Env) (st : Client.State),
    let res := Client.discoverTools E st in
    let entries := Client.stdioServers st ++ Client.httpServers st in
    exists lists,
      Client.trace (snd res) = Client.trace st ++ lists /\
      map Client.listTools_of lists = map Some (map snd entries) /\
      fst res =
        flat_map (fun p => Wrapper.listed_tools (fst p) (snd p))
                 (combine entries lists) /\
      Client.discoveredTools (snd res) = fst res /\
      Client.stdioServers (snd res) = Client.stdioServers st /\
      Client.httpServers (snd res) = Client.httpServers st.
Proof.
  intros E st res entries. unfold res, Client.discoverTools. cbn [fst snd].
  set (st1 := Client.set_discoveredTools [] st).
  destruct (discover_from_tools E (lit "stdio") (Client.stdioServers st1) st1)
    as (l1 & T1 & M1 & D1).
  destruct (discover_from_servers E (lit "stdio") (Client.stdioServers st1) st1)
    as [S1 H1].
  set (st2 := Client.discoverToolsFromConnections E (Client.stdioServers st1)
                (lit "stdio") st1) in *.
  destruct (discover_from_tools E (lit "HTTP") (Client.httpServers st2) st2)
    as (l2 & T2 & M2 & D2).
  destruct (discover_from_servers E (lit "HTTP") (Client.httpServers st2) st2)
    as [S2 H2].
  set (st3 := Client.discoverToolsFromConnections E (Client.httpServers st2)
                (lit "HTTP") st2) in *.
  change (Client.stdioServers st1) with (Client.stdioServers st) in *.
  change (Client.httpServers st1) with (Client.httpServers st) in *.
  change (Client.trace st1) with (Client.trace st) in *.
  change (Client.discoveredTools st1) with (@nil Client.Tool) in *.
  rewrite H1 in *.
  exists (l1 ++ l2). unfold entries.
  split; [rewrite T2, T1, <- app_assoc; reflexivity|].
  split; [now rewrite !map_app, M1, M2|].
  split.
  - assert (L1 : List.length (Client.stdioServers st) = List.length l1).
    { apply (f_equal (@List.length _)) in M1. now rewrite !length_map in M1. }
    rewrite D2, D1. cbn [app]. rewrite (combine_app _ _ _ _ L1).
    now rewrite flat_map_app.
  - split; [reflexivity|]. split; congruence.
Qed.


Section Registries.
Import Client.

Lemma registered_ok maps i :
Wrapper.registry_ok stdio (fst maps) -> Wrapper.registry_ok http (snd maps) ->
Wrapper.registry_ok stdio (fst (registered maps i)) /\
Wrapper.registry_ok http (snd (registered maps i)).
Proof.
intros [N1 K1] [N2 K2]. unfold registered.
destruct i as [c [[]|e]| | |]; try (split; split; assumption).
destruct (kind c) eqn:Hk; cbn [fst snd].
- split; [|split; assumption]. split.
  + now apply (map_set_keys str_eqb str_eqb_eq).
  + intros key c' H. apply In_map_set in H; [|exact str_eqb_eq].
    destruct H as [[-> ->]|H]; [auto|now apply K1].
- split; [split; assumption|]. split.
  + now apply (map_set_keys str_eqb str_eqb_eq).
  + intros key c' H. apply In_map_set in H; [|exact str_eqb_eq].
    destruct H as [[-> ->]|H]; [auto|now apply K2].
Qed.

Lemma fold_registered_ok ints : forall maps,
Wrapper.registry_ok stdio (fst maps) -> Wrapper.registry_ok http (snd maps) ->
Wrapper.registry_ok stdio (fst (fold_left registered ints maps)) /\
Wrapper.registry_ok http (snd (fold_left registered ints maps)).
Proof.
induction ints as [|i ints IH]; intros maps H1 H2; simpl; [auto|].
destruct (registered_ok maps i H1 H2). now apply IH.
Qed.

End Registries.

(** X14. [initialize] keeps the registries well formed: each holds at
    most one connection per server name, a subprocess connection only
    in the subprocess registry and an HTTP one only in the HTTP
    registry, each filed under the name of its configuration. *)
Theorem X14_initialize_keeps_registries_well_formed :
  forall (E : Client.Env) (configs : list Client.MCPServerConfig)
         (st0 : Client.State),
    Wrapper.registry_ok Client.stdio (Client.stdioServers st0) ->
    Wrapper.registry_ok Client.http (Client.httpServers st0) ->
    let st := snd (Client.initialize E configs st0) in
    Wrapper.registry_ok Client.stdio (Client.stdioServers st) /\
    Wrapper.registry_ok Client.http (Client.httpServers st).
Proof.
  intros E configs st0 H1 H2 st.
  unfold st, Client.initialize.
  set (st1 := Client.logger _ st0).
  destruct (initialize_loop E configs st1) as (cs & _ & _ & Hr & _).
  set (st2 := fold_left (Client.initialize_one E) configs st1) in *.
  destruct (discoverTools_servers E st2) as [S H].
  destruct (Client.discoverTools E st2) as [tools st3]. cbn [snd] in *.
  cbn [Client.stdioServers Client.httpServers Client.logger].
  rewrite S, H.
  pose proof (fold_registered_ok cs
                (Client.stdioServers st1, Client.httpServers st1) H1 H2) as K.
  rewrite <- Hr in K. exact K.
Qed.

Lemma X14_witness :
  Wrapper.registry_ok Client.stdio (Client.stdioServers Examples.two_servers).
Proof.
  refine (proj1 (X14_initialize_keeps_registries_well_formed
            Examples.search_world
            [Examples.alpha_config; Examples.beta_config] Client.fresh _ _)).
  - split; [constructor|intros key c []].
  - split; [constructor|intros key c []].
Defined.

Section Routing.
Import Client.
Variable E : Env.

Lemma listed_server entries lists t :
In t (flat_map (fun p => Wrapper.listed_tools (fst p) (snd p))
               (combine entries lists)) ->
exists c, In (serverName t, c) entries.
Proof.
intros H. apply in_flat_map in H. destruct H as [[[server c] i] [Hin Ht]].
apply in_combine_l in Hin. exists c.
unfold Wrapper.listed_tools in Ht. cbn [fst snd] in Ht.
destruct i as [|? [ds|]| |]; try destruct Ht.
apply in_map_iff in Ht. destruct Ht as [d [<- _]]. exact Hin.
Qed.

Lemma registered_is_found server c (m : list (jsstring * Connection)) :
In (server, c) m -> exists c', map_get str_eqb server m = Some c'.
Proof.
intros H. destruct (map_get str_eqb server m) as [c'|] eqn:G; [eauto|].
apply (map_get_None str_eqb str_eqb_eq) in G. exfalso. apply G.
apply in_map_iff. exists (server, c). auto.
Qed.

Lemma callTool_registered server c tool targs st :
In (server, c) (stdioServers st ++ httpServers st) ->
exists r, fst (callTool E server tool targs st) = Ok r.
Proof.
intros H. unfold callTool.
destruct (map_get str_eqb server (stdioServers st)) as [c1|] eqn:G1;
  [eexists; reflexivity|].
apply in_app_iff in H. destruct H as [H|H].
- destruct (registered_is_found _ _ _ H) as [c' G]. congruence.
- destruct (registered_is_found _ _ _ H) as [c' G]. rewrite G.
  eexists. reflexivity.
Qed.

Lemma discovered_are_registered st t :
In t (discoveredTools (snd (discoverTools E st))) ->
exists c, In (serverName t, c) (stdioServers st ++ httpServers st).
Proof.
unfold discoverTools. cbn [snd].
set (st1 := set_discoveredTools [] st).
destruct (discover_from_tools E (lit "stdio") (stdioServers st1) st1)
  as (l1 & _ & _ & D1).
destruct (discover_from_servers E (lit "stdio") (stdioServers st1) st1)
  as [_ H1].
set (st2 := discoverToolsFromConnections E (stdioServers st1)
              (lit "stdio") st1) in *.
destruct (discover_from_tools E (lit "HTTP") (httpServers st2) st2)
  as (l2 & _ & _ & D2).
rewrite D2, D1, H1. cbn [discoveredTools set_discoveredTools st1 app].
intros H. apply in_app_iff in H. destruct H as [H|H];
  apply listed_server in H; destruct H as [c H]; exists c;
  apply in_app_iff; auto.
Qed.

End Routing.

(** X15. Every tool of a discovery pass can be executed: its server is
    registered, so when [validateArgs] accepts the arguments [execute]
    returns a result and never the not-found error; when
    [validateArgs] throws, [execute] rethrows without calling any
    connection. *)
Theorem X15_discovered_tools_are_routable :
  forall (E : Client.Env)
         (validateArgs : Client.Tool -> Json -> result unit)
         (st : Client.State) (t : Client.Tool) (args : Json),
    let st' := snd (Client.discoverTools E st) in
    In t (Client.discoveredTools st') ->
    (forall u, validateArgs t args = Ok u ->
       exists r, fst (Wrapper.execute E validateArgs t args st') = Ok r) /\
    (forall e, validateArgs t args = Throw e ->
       Wrapper.execute E validateArgs t args st' = (Throw e, st')).
Proof.
  intros E validateArgs st t args st' Hin.
  destruct (discoverTools_servers E st) as [Hs Hh]. fold st' in Hs, Hh.
  split.
  - intros u Hv. unfold Wrapper.execute. rewrite Hv.
    apply discovered_are_registered in Hin. destruct Hin as [c Hc].
    apply (callTool_registered E (Client.serverName t) c).
    now rewrite Hs, Hh.
  - intros e Hv. unfold Wrapper.execute. now rewrite Hv.
Qed.

Lemma X15_witness :
  exists r,
    fst (Wrapper.execute Examples.search_world (fun _ _ => Ok tt)
           (Client.wrap (lit "alpha") Examples.search_tool) (JObj [])
           (snd (Client.discoverTools Examples.search_world Examples.two_servers)))
    = Ok r.
Proof.
  exact (proj1 (X15_discovered_tools_are_routable Examples.search_world
                  (fun _ _ => Ok tt) Examples.two_servers
                  (Client.wrap (lit "alpha") Examples.search_tool) (JObj [])
                  (or_introl eq_refl)) tt eq_refl).
Defined.

Section Shutdown.
Import Client.

Lemma close_all (conns : list (jsstring * Connection)) : forall st,
let st' := fold_left (fun st e => record (IClose (snd e)) st) conns st in
trace st' = trace st ++ map IClose (map snd conns) /\
stdioServers st' = stdioServers st /\ httpServers st' = httpServers st /\
discoveredTools st' = discoveredTools st.
Proof.
induction conns as [|e conns IH]; intros st; simpl.
- now rewrite app_nil_r.
- destruct (IH (record (IClose (snd e)) st)) as (T & S & H & D).
  rewrite T, S, H, D. cbn. now rewrite <- app_assoc.
Qed.

End Shutdown.

(** X16. [shutdown] closes every registered connection once — the
    subprocess connections first — and then empties both registries and
    the tool set.  After it every [callTool] throws the not-found error
    without calling any connection, and a second [shutdown] closes
    nothing more. *)
Theorem X16_shutdown_closes_and_empties :
  forall (E : Client.Env) (st : Client.State)
         (server tool : jsstring) (args : Json),
    let st' := Client.shutdown st in
    Client.trace st' =
      Client.trace st
      ++ map Client.IClose
             (map snd (Client.stdioServers st ++ Client.httpServers st)) /\
    Client.stdioServers st' = [] /\
    Client.httpServers st' = [] /\
    Client.discoveredTools st' = [] /\
    Client.callTool E server tool args st' =
      (Throw {| message := lit "MCP server '" ++ server ++ lit "' not found" |},
       st') /\
    Client.trace (Client.shutdown st') = Client.trace st'.
Proof.
  intros E st server tool args st'.
  assert (T : forall s, Client.trace (Client.shutdown s) =
                        Client.trace s
                        ++ map Client.IClose
                             (map snd (Client.stdioServers s
                                         ++ Client.httpServers s))).
  { intros s. unfold Client.shutdown.
    set (s1 := Client.logger _ s).
    destruct (close_all (Client.stdioServers s1) s1) as (T1 & S1 & H1 & _).
    set (s2 := fold_left _ (Client.stdioServers s1) s1) in *.
    destruct (close_all (Client.httpServers s2) s2) as (T2 & _).
    cbn [Client.trace Client.logger Client.set_discoveredTools
         Client.set_httpServers Client.set_stdioServers].
    rewrite T2, T1, H1. rewrite !map_app, app_assoc. reflexivity. }
  split; [apply T|].
  split; [reflexivity|]. split; [reflexivity|]. split; [reflexivity|].
  split; [reflexivity|].
  rewrite T. change (Client.stdioServers st') with (@nil (jsstring * Client.Connection)).
  change (Client.httpServers st') with (@nil (jsstring * Client.Connection)).
  simpl. now rewrite app_nil_r.
Qed.

Section Names.

Lemma split_at_first (c : N) (a : list N) : forall b x y,
~ In c a -> ~ In c b -> a ++ c :: x = b ++ c :: y -> a = b /\ x = y.
Proof.
induction a as [|h a IH]; intros b x y Ha Hb E.
- destruct b as [|k b]; simpl in E.
  + injection E as ->. auto.
  + injection E as <- _. exfalso. apply Hb. now left.
- destruct b as [|k b]; simpl in E.
  + injection E as -> _. exfalso. apply Ha. now left.
  + injection E as -> E. destruct (IH b x y) as [-> ->]; auto.
    * intros H. apply Ha. now right.
    * intros H. apply Hb. now right.
Qed.

End Names.

(** X17. Public names tell servers and tools apart as long as server
    names hold no underscore: two wrappers with the same public name
    then have the same server and the same remote tool name.  With an
    underscore in a server name they need not: the tool [y] of a server
    [s_x] and the tool [x_y] of a server [s] share the public name
    [mcp_s_x_y]. *)
Theorem X17_public_names_are_unambiguous_without_underscores :
  (forall (server1 server2 : jsstring) (d1 d2 : Client.ToolDescriptor),
     Wrapper.no_underscore server1 -> Wrapper.no_underscore server2 ->
     Client.w_name (Client.wrap server1 d1)
       = Client.w_name (Client.wrap server2 d2) ->
     server1 = server2 /\ Client.d_name d1 = Client.d_name d2) /\
  (forall (s x y : jsstring) (desc : option jsstring) (schema : Json),
     Client.w_name
       (Client.wrap (s ++ lit "_" ++ x)
          {| Client.d_name := y; Client.d_description := desc;
             Client.d_inputSchema := schema |})
     = Client.w_name
         (Client.wrap s
            {| Client.d_name := x ++ lit "_" ++ y;
               Client.d_description := desc;
               Client.d_inputSchema := schema |})).
Proof.
  split.
  - intros server1 server2 d1 d2 H1 H2 E.
    cbn [Client.w_name Client.wrap] in E.
    apply app_inv_head in E.
    change (lit "_") with [Wrapper.UNDERSCORE] in E. cbn [app] in E.
    now apply (split_at_first Wrapper.UNDERSCORE).
  - intros s x y desc schema.
    cbn [Client.w_name Client.wrap Client.d_name].
    now rewrite <- !app_assoc.
Qed.

Lemma X17_witness :
  lit "alpha" = lit "alpha" /\
  Client.d_name Examples.search_tool = Client.d_name Examples.search_tool.
Proof.
  apply (proj1 X17_public_names_are_unambiguous_without_underscores
           (lit "alpha") (lit "alpha") Examples.search_tool Examples.search_tool).
  - vm_compute. intros H. repeat (destruct H as [H|H]; [discriminate|]). exact H.
  - vm_compute. intros H. repeat (destruct H as [H|H]; [discriminate|]). exact H.
  - reflexivity.
Defined.

(* ===================================================================== *)
(** * Properties of the error class and of the search and fetch handlers *)
(* ===================================================================== *)

(** X18. [getTruncatedResponse()] returns the response itself when it
    has at most 200 code units, and otherwise its first 200 code units
    followed by three dots; what it returns never has more than 203
    code units and always starts like the response. *)
Theorem X18_truncated_response_is_a_bounded_prefix :
  forall (e : Errors.ModelBehaviorError),
    let r := Errors.response e in
    let t := Errors.getTruncatedResponse e in
    (List.length r <= 200 -> t = r) /\
    (200 < List.length r ->
       t = firstn 200 r ++ lit "..." /\ List.length t = 203) /\
    List.length t <= 203 /\
    firstn 200 t = firstn 200 r.
Proof.
  intros e r t. unfold t, Errors.getTruncatedResponse. fold r.
  destruct (Nat.leb (List.length r) 200) eqn:L.
  - apply Nat.leb_le in L.
    split; [reflexivity|]. split; [lia|]. split; [lia|reflexivity].
  - apply Nat.leb_gt in L.
    assert (F : List.length (firstn 200 r) = 200)
      by (rewrite length_firstn; lia).
    assert (T : List.length (firstn 200 r ++ lit "...") = 203)
      by (rewrite length_app, F; reflexivity).
    split; [lia|]. split; [auto|]. split; [lia|].
    rewrite firstn_app, F, Nat.sub_diag, firstn_O, app_nil_r.
    now rewrite firstn_firstn, Nat.min_id.
Qed.

Lemma X18_witness :
  Errors.getTruncatedResponse
    (Errors.new_ModelBehaviorError (lit "not a tool call") (lit "bad output"))
  = lit "not a tool call".
Proof.
  apply (proj1 (X18_truncated_response_is_a_bounded_prefix
                  (Errors.new_ModelBehaviorError (lit "not a tool call")
                     (lit "bad output")))).
  vm_compute. lia.
Defined.

Section WhiteSpace.
Import Handlers.Search.

Lemma replace_runs_no_ws s : forall b,
Forall (fun c => is_ws c = false) (replace_runs b s).
Proof.
induction s as [|c s IH]; intros b; simpl; [constructor|].
destruct (is_ws c) eqn:W.
- destruct b; [apply IH|]. constructor; [reflexivity|apply IH].
- constructor; [exact W|apply IH].
Qed.

Lemma replace_runs_length s : forall b,
List.length (replace_runs b s) <= List.length s.
Proof.
induction s as [|c s IH]; intros b; simpl; [lia|].
destruct (is_ws c).
- destruct b; simpl; [specialize (IH true)|specialize (IH true)]; lia.
- simpl. specialize (IH false). lia.
Qed.

Lemma replace_runs_clean s : forall b,
Forall (fun c => is_ws c = false) s -> replace_runs b s = s.
Proof.
induction s as [|c s IH]; intros b F; simpl; [reflexivity|].
apply Forall_cons_iff in F. destruct F as [W F]. rewrite W.
f_equal. now apply IH.
Qed.

End WhiteSpace.

(** X19. [query.replace(/\s+/g, '-')] as the search handler uses it for
    result URLs: the outcome holds no white space, is never longer than
    the query, is the query itself when that holds no white space, and
    applying the replacement again changes nothing. *)
Theorem X19_replaced_query_has_no_white_space :
  forall (q : jsstring),
    let u := Handlers.Search.replace_whitespace q in
    Forall (fun c => is_ws c = false) u /\
    List.length u <= List.length q /\
    (Forall (fun c => is_ws c = false) q -> u = q) /\
    Handlers.Search.replace_whitespace u = u.
Proof.
  intros q u. unfold u, Handlers.Search.replace_whitespace.
  split; [apply replace_runs_no_ws|].
  split; [apply replace_runs_length|].
  split; [apply replace_runs_clean|].
  apply replace_runs_clean, replace_runs_no_ws.
Qed.

Lemma X19_witness :
  Handlers.Search.replace_whitespace (lit "rocq") = lit "rocq".
Proof.
  apply (proj1 (proj2 (proj2
           (X19_replaced_query_has_no_white_space (lit "rocq"))))).
  vm_compute. repeat constructor.
Defined.

Section SearchResults.
Import Handlers Handlers.Search.
Variable Date_now : nat -> N.

Lemma trim_start_length s : List.length (trim_start s) <= List.length s.
Proof.
induction s as [|c s IH]; simpl; [lia|]. destruct (is_ws c); simpl; lia.
Qed.

Lemma trim_length s : List.length (trim s) <= List.length s.
Proof.
unfold trim. rewrite length_rev.
etransitivity; [apply trim_start_length|]. rewrite length_rev.
apply trim_start_length.
Qed.

(** The decimal numeral of an index below three is one digit. *)
Lemma index_digit k :
k < 3 -> decimal (N.of_nat k) = [N.of_nat (48 + k)].
Proof.
intros H. destruct k as [|[|[|k]]]; [reflexivity|reflexivity|reflexivity|lia].
Qed.

Lemma results_from_ids lines q : forall i calls r,
In r (results_from Date_now lines i calls q) ->
exists k t,
  i <= k < i + List.length lines /\
  r_id r = lit "doc-" ++ decimal t ++ lit "-" ++ decimal (N.of_nat k).
Proof.
induction lines as [|line rest IH]; intros i calls r; cbn [results_from];
  [intros []|].
destruct (Nat.ltb 10 (List.length line)).
- intros [<-|H].
  + exists i, (Date_now calls). cbn [r_id List.length]. split; [lia|reflexivity].
  + apply IH in H. destruct H as (k & t & Hk & Hr). exists k, t.
    cbn [List.length]. split; [lia|exact Hr].
- intros H. apply IH in H. destruct H as (k & t & Hk & Hr). exists k, t.
  cbn [List.length]. split; [lia|exact Hr].
Qed.

Lemma ids_differ (t t' : N) k k' :
k < 3 -> k' < 3 ->
lit "doc-" ++ decimal t ++ lit "-" ++ decimal (N.of_nat k)
= lit "doc-" ++ decimal t' ++ lit "-" ++ decimal (N.of_nat k') ->
k = k'.
Proof.
intros Hk Hk' E. rewrite (index_digit k Hk), (index_digit k' Hk') in E.
rewrite !app_assoc in E. apply app_inj_tail in E. destruct E as [_ E].
apply Nat2N.inj in E. lia.
Qed.

Lemma results_from_NoDup lines q : forall i calls,
i + List.length lines <= 3 ->
NoDup (map r_id (results_from Date_now lines i calls q)).
Proof.
induction lines as [|line rest IH]; intros i calls L; cbn [results_from];
  [constructor|].
cbn [List.length] in L.
destruct (Nat.ltb 10 (List.length line)).
- cbn [map r_id]. constructor; [|apply IH; lia].
  intros H. apply in_map_iff in H. destruct H as (r & Hr & Hin).
  apply results_from_ids in Hin. destruct Hin as (k & t & Hk & Hid).
  rewrite Hid in Hr. apply ids_differ in Hr; lia.
- apply IH. lia.
Qed.

Lemma results_from_length lines q : forall i calls,
List.length (results_from Date_now lines i calls q) <= List.length lines.
Proof.
induction lines as [|line rest IH]; intros i calls; cbn [results_from];
  [reflexivity|].
destruct (Nat.ltb 10 (List.length line)); cbn [List.length].
- specialize (IH (S i) (S calls)). lia.
- specialize (IH (S i) calls). lia.
Qed.

Lemma results_from_titles lines q : forall i calls r,
In r (results_from Date_now lines i calls q) ->
List.length (r_title r) <= 100.
Proof.
induction lines as [|line rest IH]; intros i calls r; cbn [results_from];
  [intros []|].
destruct (Nat.ltb 10 (List.length line)); [|apply IH].
intros [<-|H]; [|now apply IH in H]. cbn [r_title].
etransitivity; [apply trim_length|]. apply firstn_le_length.
Qed.

Lemma results_from_urls lines q : forall i calls r,
i + List.length lines <= 3 ->
In r (results_from Date_now lines i calls q) ->
Forall (fun c => is_ws c = false) (r_url r).
Proof.
induction lines as [|line rest IH]; intros i calls r L; cbn [results_from];
  [intros []|].
cbn [List.length] in L.
destruct (Nat.ltb 10 (List.length line)); [|apply IH; lia].
intros [<-|H]; [|apply IH in H; [exact H|lia]]. cbn [r_url].
rewrite (index_digit i) by lia.
repeat (apply Forall_app; split).
- vm_compute. repeat constructor.
- apply replace_runs_no_ws.
- vm_compute. repeat constructor.
- constructor; [|constructor].
  destruct i as [|[|[|i]]]; [reflexivity|reflexivity|reflexivity|lia].
Qed.

End SearchResults.

Lemma parseSearchResults_ids (Date_now : nat -> N) (responseText q : jsstring) :
  NoDup (map Handlers.r_id
           (Handlers.Search.parseSearchResults Date_now responseText q)).
Proof.
  unfold Handlers.Search.parseSearchResults.
  set (lines := firstn 3 (filter _ (split_nl responseText))).
  assert (L : 0 + List.length lines <= 3)
    by (unfold lines; rewrite length_firstn; lia).
  pose proof (results_from_NoDup Date_now lines q 0 0 L) as ND.
  destruct (Handlers.Search.results_from Date_now lines 0 0 q) as [|r rs];
    [|exact ND].
  repeat constructor. intros [].
Qed.

(** X20. [parseSearchResults] returns between one and three results,
    whatever the response text.  Their ids are pairwise different, so
    each gets a cache entry of its own; a title is the query itself
    (the fallback result) or has at most 100 code units; and no URL
    holds white space. *)
Theorem X20_search_results_are_few_and_distinct :
  forall (Date_now : nat -> N) (responseText q : jsstring),
    let results :=
      Handlers.Search.parseSearchResults Date_now responseText q in
    1 <= List.length results <= 3 /\
    NoDup (map Handlers.r_id results) /\
    Forall (fun r => Handlers.r_title r = q \/
                     List.length (Handlers.r_title r) <= 100) results /\
    Forall (fun r => Forall (fun c => is_ws c = false) (Handlers.r_url r))
           results.
Proof.
  intros Date_now responseText q results.
  unfold results, Handlers.Search.parseSearchResults.
  set (lines := firstn 3 (filter _ (split_nl responseText))).
  assert (L : 0 + List.length lines <= 3)
    by (unfold lines; rewrite length_firstn; lia).
  pose proof (results_from_length Date_now lines q 0 0) as Len.
  pose proof (parseSearchResults_ids Date_now responseText q) as ND.
  unfold Handlers.Search.parseSearchResults in ND. fold lines in ND.
  pose proof (results_from_titles Date_now lines q 0 0) as Ti.
  pose proof (results_from_urls Date_now lines q 0 0) as Ur.
  destruct (Handlers.Search.results_from Date_now lines 0 0 q) as [|r rs].
  - split; [cbn; lia|]. split; [exact ND|].
    split; [constructor; [left; reflexivity|constructor]|].
    constructor; [|constructor]. cbn [Handlers.r_url].
    apply Forall_app; split; [vm_compute; repeat constructor|].
    apply replace_runs_no_ws.
  - split; [cbn [List.length] in *; lia|]. split; [exact ND|].
    split; apply Forall_forall; intros x Hx; [right; now apply Ti|].
    now apply (Ur x L).
Qed.

Section SearchCache.
Import Handlers Handlers.Search.
Variable toISOString : nat -> jsstring.
Variable model : jsstring.

(** The cache entry that [handle] builds for the result at [index]. *)
Lemma cache_result_other q text results : forall index searchCache id,
~ In id (map r_id results) ->
map_get str_eqb id
  (snd (fold_left (cache_result toISOString model q text) results
          (index, searchCache)))
= map_get str_eqb id searchCache.
Proof.
induction results as [|r0 rs IH]; intros index searchCache id H;
  cbn [fold_left cache_result]; [reflexivity|].
rewrite IH by (intros H'; apply H; now right).
rewrite (map_get_set str_eqb str_eqb_eq).
destruct (str_eqb id (r_id r0)) eqn:E; [|reflexivity].
apply str_eqb_eq in E. exfalso. apply H. left. now symmetry.
Qed.

Lemma cache_result_nth q text results : forall index searchCache k r,
NoDup (map r_id results) ->
nth_error results k = Some r ->
map_get str_eqb (r_id r)
  (snd (fold_left (cache_result toISOString model q text) results
          (index, searchCache)))
= Some {| d_id := r_id r; d_title := r_title r; d_text := text;
          d_url := r_url r;
          d_metadata := {| m_query := q;
                           m_timestamp := toISOString (index + k);
                           m_model := model |} |}.
Proof.
induction results as [|r0 rs IH]; intros index searchCache k r ND Hk;
  [destruct k; discriminate|].
cbn [map] in ND. apply NoDup_cons_iff in ND. destruct ND as [Hn ND].
cbn [fold_left cache_result]. destruct k as [|k]; cbn [nth_error] in Hk.
- injection Hk as ->. rewrite cache_result_other by exact Hn.
  rewrite (map_get_set str_eqb str_eqb_eq).
  rewrite (proj2 (str_eqb_eq _ _) eq_refl). now rewrite Nat.add_0_r.
- rewrite (IH (S index) _ k r ND Hk). now rewrite Nat.add_succ_r.
Qed.

End SearchCache.

(** X21. Search, then fetch.  When [geminiAI.query] succeeds, every
    result that [search] reports can be fetched afterwards by its id:
    [fetch] answers with that result's id, title and URL, the whole
    response text as document text, and the query, the time stamp taken
    for that result and the model as metadata.  For every id that is not
    among the results [fetch] answers as it did before the search. *)
Theorem X21_search_results_can_be_fetched :
  forall (B : Builtins) (Date_now : nat -> N) (toISOString : nat -> jsstring)
         (query : jsstring -> result jsstring) (model : jsstring)
         (q responseText : jsstring) (searchCache : Handlers.Cache),
    query (Handlers.Search.searchPrompt q) = Ok responseText ->
    let results :=
      Handlers.Search.parseSearchResults Date_now responseText q in
    let out :=
      Handlers.Search.handle B Date_now toISOString query model q searchCache in
    fst out =
      Handlers.createJsonResponse B
        (JObj [(lit "results", JArr (map Handlers.result_json results))]) /\
    (forall k r,
       nth_error results k = Some r ->
       Handlers.Fetch.handle B (Handlers.r_id r) (snd out) =
         Handlers.createJsonResponse B
           (Handlers.fetchResult_json
              {| Handlers.d_id := Handlers.r_id r;
                 Handlers.d_title := Handlers.r_title r;
                 Handlers.d_text := responseText;
                 Handlers.d_url := Handlers.r_url r;
                 Handlers.d_metadata :=
                   {| Handlers.m_query := q;
                      Handlers.m_timestamp := toISOString k;
                      Handlers.m_model := model |} |})) /\
    (forall id,
       ~ In id (map Handlers.r_id results) ->
       Handlers.Fetch.handle B id (snd out) =
         Handlers.Fetch.handle B id searchCache).
Proof.
  intros B Date_now toISOString query model q responseText searchCache Hq
         results out.
  unfold out, Handlers.Search.handle. rewrite Hq. cbn [fst snd]. fold results.
  split; [reflexivity|]. split.
  - intros k r Hk. unfold Handlers.Fetch.handle.
    rewrite (cache_result_nth toISOString model q responseText results 0
               searchCache k r); [reflexivity| |exact Hk].
    apply parseSearchResults_ids.
  - intros id Hid. unfold Handlers.Fetch.handle.
    now rewrite cache_result_other.
Qed.

Lemma X21_witness :
  fst (Handlers.Search.handle Examples.table_builtins
         (fun _ => 1700000000000%N) (fun _ => lit "2024-01-01T00:00:00.000Z")
         (fun _ => Ok (lit "Rocq is a proof assistant")) (lit "gemini-pro")
         (lit "rocq") [])
  = Handlers.createJsonResponse Examples.table_builtins
      (JObj [(lit "results",
              JArr (map Handlers.result_json
                      (Handlers.Search.parseSearchResults
                         (fun _ => 1700000000000%N)
                         (lit "Rocq is a proof assistant") (lit "rocq"))))]).
Proof.
  exact (proj1 (X21_search_results_can_be_fetched Examples.table_builtins
                  (fun _ => 1700000000000%N)
                  (fun _ => lit "2024-01-01T00:00:00.000Z")
                  (fun _ => Ok (lit "Rocq is a proof assistant"))
                  (lit "gemini-pro") (lit "rocq")
                  (lit "Rocq is a proof assistant") [] eq_refl)).
Defined.

(* ===================================================================== *)
(** * The message counter of a subprocess connection                      *)
(* ===================================================================== *)

Section Counter.
Import Stdio StdioMore.
Variable B : Builtins.
Variable config : StdioMCPConfig.

Lemma step_counter st ev :
messageId (step B config st ev)
  = (messageId st + (if is_call ev then 1 else 0))%Z /\
List.length (written (step B config st ev))
  <= List.length (written st) + (if is_call ev then 1 else 0).
Proof.
destruct ev as [|toolName targs|data|data|e|p|code|]; cbn [step is_call].
- unfold listTools, nextMessageId, sendRequest, new_promise.
  cbn. destruct (process st) as [proc|]; [destruct (stdin proc)|];
    cbn; rewrite ?length_app; cbn; split; lia.
- unfold callTool, callToolImpl, nextMessageId, sendRequest, new_promise.
  cbn. destruct (process st) as [proc|]; [destruct (stdin proc)|];
    cbn; rewrite ?length_app; cbn; split; lia.
- destruct (on_data_fields B data st) as (_ & Hm & Hw & _).
  rewrite Hm, Hw. split; lia.
- cbn. split; lia.
- cbn. split; lia.
- destruct (on_timer_fields p st) as (Hm & Hw & _). rewrite Hm, Hw. split; lia.
- cbn. split; lia.
- unfold close. destruct (process st); cbn; split; lia.
Qed.

Lemma run_counter evs : forall st,
messageId (run B config evs st) = (messageId st + Z.of_nat (calls evs))%Z /\
List.length (written (run B config evs st))
  <= List.length (written st) + calls evs.
Proof.
unfold calls.
induction evs as [|ev evs IH]; intros st; cbn [run fold_left filter].
- cbn. split; lia.
- destruct (IH (step B config st ev)) as [Hm Hw]. unfold run in Hm, Hw.
  destruct (step_counter st ev) as [Sm Sw].
  rewrite Hm, Sm. destruct (is_call ev); cbn [List.length]; split; lia.
Qed.

End Counter.

(** X22. The message counter of a subprocess connection counts the
    calls of [listTools] and [callTool], not the requests written: the
    id is taken before [sendRequest] looks at the process, so a call
    that fails for want of a process uses up an id all the same.  After
    any session the counter is the number of calls made, and at most
    that many requests were written. *)
Theorem X22_every_call_uses_up_an_id :
  forall (B : Builtins) (config : Stdio.StdioMCPConfig)
         (spawned : result Stdio.ChildProcess) (evs : list Stdio.Event),
    let st := Stdio.session B config spawned evs in
    Stdio.messageId st = Z.of_nat (StdioMore.calls evs) /\
    List.length (Stdio.written st) <= StdioMore.calls evs /\
    (forall toolName args,
       Stdio.process st = None ->
       let st' := snd (Stdio.callTool config toolName args st) in
       Stdio.messageId st' = (Stdio.messageId st + 1)%Z /\
       Stdio.written st' = Stdio.written st).
Proof.
  intros B config spawned evs st. unfold st, Stdio.session.
  destruct (run_counter B config evs (snd (Stdio.connect config spawned Stdio.fresh)))
    as [Hm Hw].
  assert (H0 : Stdio.messageId (snd (Stdio.connect config spawned Stdio.fresh)) = 0%Z
               /\ Stdio.written (snd (Stdio.connect config spawned Stdio.fresh)) = []).
  { unfold Stdio.connect. destruct spawned as [p|e]; [|split; reflexivity].
    cbn. destruct (negb (Stdio.stdout p) || negb (Stdio.stdin p));
      split; reflexivity. }
  destruct H0 as [M0 W0]. rewrite M0 in Hm. rewrite W0 in Hw. cbn in Hw.
  split; [rewrite Hm; lia|]. split; [exact Hw|].
  intros toolName args Hp.
  rewrite (callTool_no_process config toolName args _ Hp). split; reflexivity.
Qed.

Lemma X22_witness :
  let st := Stdio.session Examples.table_builtins Examples.files_config
              (Ok Examples.child) [Stdio.EExit (Some 1%N)] in
  let st' := snd (Stdio.callTool Examples.files_config (lit "read") (JObj []) st) in
  Stdio.messageId st' = (Stdio.messageId st + 1)%Z /\
  Stdio.written st' = Stdio.written st.
Proof.
  exact (proj2 (proj2 (X22_every_call_uses_up_an_id Examples.table_builtins
                         Examples.files_config (Ok Examples.child)
                         [Stdio.EExit (Some 1%N)]))
           (lit "read") (JObj []) eq_refl).
Defined.
